(** * The memory / knowledge-graph subsystem of NexusChat

    A shallow embedding of
      - [services/embeddings]   : [generateEmbedding], [cosineSimilarity]
      - [services/vectorStore]  : the [VectorStore] class
      - [store/memoryStore]     : the zustand memory store
      - [services/memory]       : [MemoryService.extractMemories]
      - [services/google]       : [searchGoogle], [analyzeSearchResults]
      - [hooks/useMessage]      : [performWebSearch]
    and the properties of the specification that concern them.

    Conventions of the embedding.
      - A JavaScript [number] is a rational ([Q]): the finite, non-NaN doubles.
        On those the comparator [b - a] has the sign of the exact difference,
        and [Math.max], [>=], [===] and the truthiness test of [||] are the
        exact ones.  [Math.sqrt] is a built-in of the platform and is taken as
        a parameter.
      - [async] functions run to completion one after the other; an
        [await]ed call is a sequenced call.  A computation either returns or
        throws, and threads the mutable world (the vector store's array, the
        browser's local storage, the zustand state, the console).
      - [Map] and [Set] iterate in insertion order: they are association lists
        and lists with the insertion discipline written out.
      - A string is a sequence of bytes: [length], [toLowerCase] and [trim]
        are the ones of JavaScript on ASCII text. *)

From Stdlib Require Import String Ascii List Bool Arith ZArith QArith Qminmax Lia.
From Stdlib Require Import Sorted Permutation DecimalString.
Import ListNotations.

Local Open Scope string_scope.
Local Open Scope list_scope.
Local Open Scope Q_scope.

Set Implicit Arguments.

(* ================================================================== *)
(** ** JavaScript values *)

Module JS.

(** [number], restricted to finite values. *)
Definition number := Q.

(** Truthiness of a number: [0] is falsy. *)
Definition truthy (x : number) : bool := negb (Qeq_bool x 0).

(** [x || d] where [x] is a possibly [undefined] number. *)
Definition or_default (x : option number) (d : number) : number :=
  match x with
  | Some v => if truthy v then v else d
  | None => d
  end.

(** [x || d] where [x] is a possibly [undefined] object or array. *)
Definition or_else {A} (x : option A) (d : A) : A :=
  match x with
  | Some v => v
  | None => d
  end.

(** [Math.max(a, b)]. *)
Definition Math_max (a b : number) : number := Qmax a b.

(** [a >= b]. *)
Definition geb (a b : number) : bool := Qle_bool b a.

(** A thrown value: [new Error(message)]. *)
Inductive Error := mkError (message : string).

(** How a call ends. *)
Inductive outcome (A : Type) :=
| Returned (a : A)
| Thrown (e : Error).
Arguments Returned {A} a.
Arguments Thrown {A} e.

(** *** [Array.prototype] *)

(** [l.findIndex(p)]: [None] stands for [-1]. *)
Fixpoint findIndex {A} (p : A -> bool) (l : list A) : option nat :=
  match l with
  | [] => None
  | x :: t => if p x then Some O
              else match findIndex p t with
                   | Some i => Some (S i)
                   | None => None
                   end
  end.

(** [l.slice(from, to)] for indices within the array. *)
Definition slice {A} (l : list A) (from to : nat) : list A :=
  firstn (to - from) (skipn from l).

(** [l.slice(from)]. *)
Definition slice_from {A} (l : list A) (from : nat) : list A := skipn from l.

(** [l.slice(0, end)] for any integer [end]: a negative [end] counts from
    the end of the array. *)
Definition slice0 {A} (l : list A) (end_ : Z) : list A :=
  if (end_ <? 0)%Z
  then firstn (Z.to_nat (Z.max (Z.of_nat (length l) + end_) 0)) l
  else firstn (Z.to_nat end_) l.

(** [l[i] = v] for [i] within the array. *)
Fixpoint assign {A} (l : list A) (i : nat) (v : A) : list A :=
  match l, i with
  | [], _ => []
  | _ :: t, O => v :: t
  | x :: t, S j => x :: assign t j v
  end.

(** [l.sort(compareFn)].  The sort is stable (ECMAScript 2019): an element
    moves behind another one only when [compareFn] puts it strictly after.
    [insert x l] puts [x], which stood before every element of [l], into the
    sorted [l]. *)
Fixpoint insert {A} (compareFn : A -> A -> number) (x : A) (l : list A) : list A :=
  match l with
  | [] => [x]
  | y :: t =>
      if Qle_bool (compareFn x y) 0
      then x :: y :: t
      else y :: insert compareFn x t
  end.

Fixpoint sort {A} (compareFn : A -> A -> number) (l : list A) : list A :=
  match l with
  | [] => []
  | x :: t => insert compareFn x (sort compareFn t)
  end.

(** *** [Map] and [Set], in insertion order *)

Definition Map (V : Type) := list (string * V).

Fixpoint Map_get {V} (m : Map V) (k : string) : option V :=
  match m with
  | [] => None
  | (k', v) :: t => if String.eqb k' k then Some v else Map_get t k
  end.

(** [m.set(k, v)]: an existing key keeps its place. *)
Fixpoint Map_set {V} (m : Map V) (k : string) (v : V) : Map V :=
  match m with
  | [] => [(k, v)]
  | (k', v') :: t =>
      if String.eqb k' k then (k', v) :: t else (k', v') :: Map_set t k v
  end.

(** [new Map(entries)]. *)
Definition Map_of {V} (entries : list (string * V)) : Map V :=
  fold_left (fun m e => Map_set m (fst e) (snd e)) entries [].

Definition Set_ := list string.

Definition Set_has (s : Set_) (k : string) : bool :=
  existsb (String.eqb k) s.

Definition Set_add (s : Set_) (k : string) : Set_ :=
  if Set_has s k then s else s ++ [k].

(** *** [String.prototype] *)

Definition lower_ascii (c : ascii) : ascii :=
  let n := nat_of_ascii c in
  if (65 <=? n)%nat && (n <=? 90)%nat then ascii_of_nat (n + 32) else c.

Definition upper_ascii (c : ascii) : ascii :=
  let n := nat_of_ascii c in
  if (97 <=? n)%nat && (n <=? 122)%nat then ascii_of_nat (n - 32) else c.

Fixpoint map_string (f : ascii -> ascii) (s : string) : string :=
  match s with
  | EmptyString => EmptyString
  | String c t => String (f c) (map_string f t)
  end.

Definition toLowerCase : string -> string := map_string lower_ascii.
Definition toUpperCase : string -> string := map_string upper_ascii.

(** [s.includes(sub)]. *)
Fixpoint includes (s sub : string) : bool :=
  if String.prefix sub s then true
  else match s with
       | EmptyString => false
       | String _ t => includes t sub
       end.

(** [l.join(sep)]. *)
Fixpoint join (sep : string) (l : list string) : string :=
  match l with
  | [] => ""
  | [x] => x
  | x :: t => (x ++ sep ++ join sep t)%string
  end.

End JS.

Import JS.

(* ================================================================== *)
(** ** The answer of the language model *)

Inductive MemoryType := fact | concept | relationship.

Inductive ConnectionType := related_to | part_of | depends_on | causes | similar_to.

(** A connection as the language model proposes it: the target is named by
    its content. *)
Module ProposedConnection.
Record t := mk {
  type : ConnectionType;
  targetContent : string;
  strength : number;
  description : option string
}.
End ProposedConnection.

(** [metadata] of a memory.  [timestamp] is the extra property that
    [extractMemories] writes. *)
Module Metadata.
Record t := mk {
  workspace : option string;
  thread : option string;
  context : option string;
  tags : option (list string);
  timestamp : option number
}.
Definition empty : t := mk None None None None None.
End Metadata.

(** An entry of [parsed.memories]. *)
Module ExtractedMemory.
Record t := mk {
  type : MemoryType;
  content : string;
  confidence : option number;
  connections : option (list ProposedConnection.t);
  metadata : option Metadata.t
}.
End ExtractedMemory.

(* ================================================================== *)
(** ** The platform

    What the repository calls and does not define: [Math.sqrt], the
    feature-extraction pipeline of the embedding model, [crypto.randomUUID],
    [Date.now], the chat-completion endpoint and [JSON.parse] on its answer.
    The two sources of fresh values are read through the world's counter of
    calls. *)

Class Platform := {
  Math_sqrt : number -> number;
  (** [pipeline('feature-extraction', ...)]: [None] when the model cannot be
      loaded; the loaded model maps a text to its vector or throws. *)
  pipeline : option (string -> outcome (list number));
  randomUUID : nat -> string;
  Date_now : nat -> number;
  (** The endpoint, from the prompt to [data.choices[0].message.content]. *)
  openRouter : string -> outcome string;
  (** [JSON.parse(response).memories]: [None] when the text is not JSON or
      holds no such array. *)
  JSON_parse : string -> option (list ExtractedMemory.t)
}.

(* ================================================================== *)
(** ** The data model ([types/memory]) *)

Module Connection.
Record t := mk {
  type : ConnectionType;
  targetId : string;
  strength : number;
  description : option string
}.
End Connection.

Module Memory.
Record t := mk {
  id : string;
  type : MemoryType;
  content : string;
  source : option string;
  timestamp : number;
  confidence : number;
  connections : list Connection.t;
  metadata : Metadata.t
}.
End Memory.

(** [Partial<Memory> & { content; type }], which also covers
    [Omit<Memory, 'id' | 'timestamp'>]: an absent property is [None]. *)
Module PartialMemory.
Record t := mk {
  id : option string;
  type : MemoryType;
  content : string;
  source : option string;
  timestamp : option number;
  confidence : option number;
  connections : option (list Connection.t);
  metadata : option Metadata.t
}.
End PartialMemory.

(** The vector store's record. *)
Module StoredMetadata.
Record t := mk {
  type : MemoryType;
  source : option string;
  confidence : number;
  workspace : option string;
  thread : option string;
  timestamp : number;
  tags : list string
}.
End StoredMetadata.

Module StoredMemory.
Record t := mk {
  id : string;
  embedding : list number;
  metadata : StoredMetadata.t;
  content : string
}.
End StoredMemory.

(** An element of the result of [findSimilarMemories]. *)
Module Match.
Record t := mk { memory : Memory.t; similarity : number }.
End Match.

(** The state of the zustand store. *)
Inductive Filter := all | facts | concepts | relationships.

Module MemoryState.
Record t := mk {
  memories : list Memory.t;
  isMemoryPanelOpen : bool;
  activeFilter : Filter;
  searchQuery : string
}.
Definition initial : t := mk [] false all "".
Definition set_memories (s : t) (ms : list Memory.t) : t :=
  mk ms (isMemoryPanelOpen s) (activeFilter s) (searchQuery s).
End MemoryState.

(* ================================================================== *)
(** ** The world and the computations over it *)

(** What [localStorage] holds under the vector store's key. *)
Inductive StorageItem :=
| Missing
| Json (v : list StoredMemory.t)
| Garbage.

Record World := mkWorld {
  vectors : list StoredMemory.t;   (** [VectorStore.memories] of the singleton *)
  item : StorageItem;              (** [localStorage['nexus-chat-vector-store']] *)
  denied : bool;                   (** [localStorage.getItem] throws *)
  full : bool;                     (** [localStorage.setItem] throws *)
  store : MemoryState.t;           (** [useMemoryStore] *)
  console : list string;           (** what [console.error] printed, latest first *)
  calls : nat                      (** calls of [randomUUID] and [Date.now] so far *)
}.

Definition with_vectors (w : World) (v : list StoredMemory.t) : World :=
  mkWorld v (item w) (denied w) (full w) (store w) (console w) (calls w).
Definition with_item (w : World) (i : StorageItem) : World :=
  mkWorld (vectors w) i (denied w) (full w) (store w) (console w) (calls w).
Definition with_store (w : World) (s : MemoryState.t) : World :=
  mkWorld (vectors w) (item w) (denied w) (full w) s (console w) (calls w).
Definition with_console (w : World) (c : list string) : World :=
  mkWorld (vectors w) (item w) (denied w) (full w) (store w) c (calls w).
Definition with_calls (w : World) (n : nat) : World :=
  mkWorld (vectors w) (item w) (denied w) (full w) (store w) (console w) n.

Definition M (A : Type) := World -> outcome A * World.

Definition ret {A} (a : A) : M A := fun w => (Returned a, w).

Definition throw {A} (e : Error) : M A := fun w => (Thrown e, w).

Definition bind {A B} (m : M A) (k : A -> M B) : M B :=
  fun w =>
    match m w with
    | (Returned a, w') => k a w'
    | (Thrown e, w') => (Thrown e, w')
    end.

(** [try { m } catch (e) { handler e }]. *)
Definition try_catch {A} (m : M A) (handler : Error -> M A) : M A :=
  fun w =>
    match m w with
    | (Returned a, w') => (Returned a, w')
    | (Thrown e, w') => handler e w'
    end.

Definition lift {A} (o : outcome A) : M A := fun w => (o, w).

Definition get : M World := fun w => (Returned w, w).

Definition modify (f : World -> World) : M unit := fun w => (Returned tt, f w).

Declare Scope js_scope.
Delimit Scope js_scope with js.
Notation "x <- m ;; k" := (bind m (fun x => k))
  (at level 61, m at next level, right associativity) : js_scope.
Notation "m ;;; k" := (bind m (fun _ => k))
  (at level 61, right associativity) : js_scope.
Notation "'try' m 'catch' h" := (try_catch m h)
  (at level 62, m at level 61) : js_scope.
Local Open Scope js_scope.

(** [console.error(label, ...)]. *)
Definition console_error (label : string) : M unit :=
  modify (fun w => with_console w (label :: console w)).

(** [crypto.randomUUID()] and [Date.now()]. *)
Definition crypto_randomUUID `{Platform} : M string :=
  fun w => (Returned (randomUUID (calls w)), with_calls w (S (calls w))).

Definition now `{Platform} : M number :=
  fun w => (Returned (Date_now (calls w)), with_calls w (S (calls w))).

(** [for (const x of l) { body x }]. *)
Fixpoint for_of {A} (l : list A) (body : A -> M unit) : M unit :=
  match l with
  | [] => ret tt
  | x :: t => body x ;;; for_of t body
  end.

(* ================================================================== *)
(** ** [services/embeddings] *)

Module Embeddings.

Definition getEmbeddingModel `{Platform} : M (string -> outcome (list number)) :=
  match pipeline with
  | Some model => ret model
  | None =>
      console_error "Failed to load embedding model:" ;;;
      throw (mkError "Failed to initialize embedding model. Please try again.")
  end.

Definition generateEmbedding `{Platform} (text : string) : M (list number) :=
  try (model <- getEmbeddingModel ;; lift (model text))
  catch (fun _ =>
    console_error "Failed to generate embedding:" ;;;
    throw (mkError "Failed to generate text embedding. Please try again.")).

(** The accumulators of the loop of [cosineSimilarity]. *)
Record Accum := mkAccum { dotProduct : number; normA : number; normB : number }.

(** The [for] loop: [n] iterations are left, the next index is [i]. *)
Fixpoint cosine_loop (a b : list number) (i n : nat) (acc : Accum) : Accum :=
  match n with
  | O => acc
  | S n' =>
      let ai := nth i a 0 in
      let bi := nth i b 0 in
      cosine_loop a b (S i) n'
        {| dotProduct := dotProduct acc + ai * bi;
           normA := normA acc + ai * ai;
           normB := normB acc + bi * bi |}
  end.

Definition cosineSimilarity `{Platform} (a b : list number) : outcome number :=
  if negb (length a =? length b)%nat
  then Thrown (mkError "Vectors must have the same length")
  else
    let acc := cosine_loop a b 0 (length a) (mkAccum 0 0 0) in
    let normA := Math_sqrt (normA acc) in
    let normB := Math_sqrt (normB acc) in
    if Qeq_bool normA 0 || Qeq_bool normB 0
    then Returned 0
    else Returned (dotProduct acc / (normA * normB)).

(** The mathematical reading of the formula: the dot product, summed from the
    first component on, and the Euclidean norm. *)
Definition dot (a b : list number) : number :=
  fold_left Qplus (map (fun p => fst p * snd p) (combine a b)) 0.

Definition magnitude `{Platform} (a : list number) : number := Math_sqrt (dot a a).

End Embeddings.

(* ================================================================== *)
(** ** [services/vectorStore] *)

(** [l.map(f)] where [f] may throw: the first throw ends the call. *)
Fixpoint map_outcome {A B} (f : A -> outcome B) (l : list A) : outcome (list B) :=
  match l with
  | [] => Returned []
  | x :: t =>
      match f x with
      | Thrown e => Thrown e
      | Returned y =>
          match map_outcome f t with
          | Thrown e => Thrown e
          | Returned ys => Returned (y :: ys)
          end
      end
  end.

(** [l.map(f)] where [f] acts on the world. *)
Fixpoint map_M {A B} (callback : A -> M B) (array : list A) : M (list B) :=
  match array with
  | [] => ret []
  | x :: t => y <- callback x ;; ys <- map_M callback t ;; ret (y :: ys)
  end.

(** [l.map(f).filter(x => x !== null)]. *)
Fixpoint filter_null {A} (l : list (option A)) : list A :=
  match l with
  | [] => []
  | Some x :: t => x :: filter_null t
  | None :: t => filter_null t
  end.

Module LocalStorage.

Definition getItem : M StorageItem :=
  fun w => if denied w then (Thrown (mkError "SecurityError"), w)
           else (Returned (item w), w).

(** [setItem(key, JSON.stringify(v))]. *)
Definition setItem (v : list StoredMemory.t) : M unit :=
  fun w => if full w then (Thrown (mkError "QuotaExceededError"), w)
           else (Returned tt, with_item w (Json v)).

End LocalStorage.

(** [{ storedMemory, similarity }]. *)
Module Scored.
Record t := mk { storedMemory : StoredMemory.t; similarity : number }.
End Scored.

Module VectorStore.

Definition loadFromStorage : M unit :=
  try (stored <- LocalStorage.getItem ;;
       match stored with
       | Missing => ret tt
       | Json v => modify (fun w => with_vectors w v)
       | Garbage => throw (mkError "SyntaxError")
       end)
  catch (fun _ => console_error "Failed to load vector store from storage:").

Definition saveToStorage : M unit :=
  try (w <- get ;; LocalStorage.setItem (vectors w))
  catch (fun _ => console_error "Failed to save vector store to storage:").

(** [new VectorStore()]. *)
Definition constructor : M unit :=
  modify (fun w => with_vectors w []) ;;; loadFromStorage.

Definition toStored (memory : Memory.t) (embedding : list number) : StoredMemory.t :=
  {| StoredMemory.id := Memory.id memory;
     StoredMemory.embedding := embedding;
     StoredMemory.metadata :=
       {| StoredMetadata.type := Memory.type memory;
          StoredMetadata.source := Memory.source memory;
          StoredMetadata.confidence := Memory.confidence memory;
          StoredMetadata.workspace := Metadata.workspace (Memory.metadata memory);
          StoredMetadata.thread := Metadata.thread (Memory.metadata memory);
          StoredMetadata.timestamp := Memory.timestamp memory;
          StoredMetadata.tags := or_else (Metadata.tags (Memory.metadata memory)) [] |};
     StoredMemory.content := Memory.content memory |}.

Definition addMemory `{Platform} (memory : Memory.t) : M unit :=
  try (embedding <- Embeddings.generateEmbedding (Memory.content memory) ;;
       let storedMemory := toStored memory embedding in
       w <- get ;;
       match findIndex (fun m => String.eqb (StoredMemory.id m) (Memory.id memory))
                       (vectors w) with
       | Some index =>
           modify (fun w => with_vectors w (assign (vectors w) index storedMemory))
       | None =>
           modify (fun w => with_vectors w (vectors w ++ [storedMemory]))
       end ;;;
       saveToStorage)
  catch (fun error =>
    console_error "Failed to add memory to vector store:" ;;; throw error).

(** The projection of a stored record back to a [Memory]. *)
Definition toMatch (s : Scored.t) : Match.t :=
  let storedMemory := Scored.storedMemory s in
  let metadata := StoredMemory.metadata storedMemory in
  {| Match.similarity := Scored.similarity s;
     Match.memory :=
       {| Memory.id := StoredMemory.id storedMemory;
          Memory.content := StoredMemory.content storedMemory;
          Memory.type := StoredMetadata.type metadata;
          Memory.source := StoredMetadata.source metadata;
          Memory.confidence := StoredMetadata.confidence metadata;
          Memory.timestamp := StoredMetadata.timestamp metadata;
          Memory.connections := [];
          Memory.metadata :=
            {| Metadata.workspace := StoredMetadata.workspace metadata;
               Metadata.thread := StoredMetadata.thread metadata;
               Metadata.context := None;
               Metadata.tags := Some (StoredMetadata.tags metadata);
               Metadata.timestamp := None |} |} |}.

Definition score `{Platform} (queryEmbedding : list number) (storedMemory : StoredMemory.t)
  : outcome Scored.t :=
  match Embeddings.cosineSimilarity queryEmbedding (StoredMemory.embedding storedMemory) with
  | Returned similarity => Returned (Scored.mk storedMemory similarity)
  | Thrown e => Thrown e
  end.

Definition bySimilarity (a b : Scored.t) : number :=
  Scored.similarity b - Scored.similarity a.

(** The chain [.filter(...).sort(...).slice(0, limit).map(...)]. *)
Definition select (similarities : list Scored.t) (limit : Z) (minSimilarity : number)
  : list Match.t :=
  map toMatch
    (slice0
       (sort bySimilarity
          (filter (fun s => geb (Scored.similarity s) minSimilarity) similarities))
       limit).

Definition findSimilarMemories `{Platform}
  (content : string) (limit : Z) (minSimilarity : number) : M (list Match.t) :=
  try (queryEmbedding <- Embeddings.generateEmbedding content ;;
       w <- get ;;
       similarities <- lift (map_outcome (score queryEmbedding) (vectors w)) ;;
       ret (select similarities limit minSimilarity))
  catch (fun _ => console_error "Failed to find similar memories:" ;;; ret []).

(** The defaults of [limit] and [minSimilarity]. *)
Definition default_limit : Z := 5.
Definition default_minSimilarity : number := 7 # 10.

Definition deleteMemory (id : string) : M unit :=
  modify (fun w =>
    with_vectors w
      (filter (fun m => negb (String.eqb (StoredMemory.id m) id)) (vectors w))) ;;;
  saveToStorage.

Definition clear : M unit :=
  modify (fun w => with_vectors w []) ;;; saveToStorage.

End VectorStore.

(* ================================================================== *)
(** ** [store/memoryStore] *)

(** [{ memory, strength }], an element of the ranked array. *)
Module Ranked.
Record t := mk { memory : Memory.t; strength : number }.
End Ranked.

Module MemoryStore.

(** zustand's [set] with an updater, and [get].  The store is created under
    [persist]: after the update the middleware writes the state to local
    storage, under a key of its own.  That write is not part of this [set];
    the world has no field for the item it writes.  What is proved of an
    action through [set] is proved of the state the action leaves, which is
    settled before the write. *)
Definition set (f : MemoryState.t -> MemoryState.t) : M unit :=
  modify (fun w => with_store w (f (store w))).

Definition string_truthy (s : string) : bool := negb (String.eqb s "").

Definition byTimestamp (a b : Memory.t) : number :=
  Memory.timestamp b - Memory.timestamp a.

Definition addMemory `{Platform} (memory : PartialMemory.t) : M unit :=
  id <- match PartialMemory.id memory with
        | Some i => if string_truthy i then ret i else crypto_randomUUID
        | None => crypto_randomUUID
        end ;;
  timestamp <- match PartialMemory.timestamp memory with
               | Some t => if truthy t then ret t else now
               | None => now
               end ;;
  let newMemory :=
    {| Memory.id := id;
       Memory.type := PartialMemory.type memory;
       Memory.content := PartialMemory.content memory;
       Memory.source := PartialMemory.source memory;
       Memory.timestamp := timestamp;
       Memory.confidence := or_default (PartialMemory.confidence memory) 1;
       Memory.connections := or_else (PartialMemory.connections memory) [];
       Memory.metadata :=
         let md := or_else (PartialMemory.metadata memory) Metadata.empty in
         {| Metadata.workspace := Metadata.workspace md;
            Metadata.thread := Metadata.thread md;
            Metadata.context := Metadata.context md;
            Metadata.tags := Some (or_else (Metadata.tags md) []);
            Metadata.timestamp := Metadata.timestamp md |} |} in
  VectorStore.addMemory newMemory ;;;
  set (fun state =>
    let filteredMemories :=
      filter (fun m =>
                if string_truthy (Memory.id newMemory)
                then negb (String.eqb (Memory.id m) (Memory.id newMemory))
                else true)
             (MemoryState.memories state) in
    MemoryState.set_memories state
      (sort byTimestamp (filteredMemories ++ [newMemory]))).

Definition removeMemory (id : string) : M unit :=
  VectorStore.deleteMemory id ;;;
  set (fun state =>
    MemoryState.set_memories state
      (filter (fun m => negb (String.eqb (Memory.id m) id)) (MemoryState.memories state))).

Definition clearMemories : M unit :=
  VectorStore.clear ;;;
  set (fun state => MemoryState.set_memories state []).

Definition with_connections (memory : Memory.t) (connections : list Connection.t)
  : Memory.t :=
  {| Memory.id := Memory.id memory;
     Memory.type := Memory.type memory;
     Memory.content := Memory.content memory;
     Memory.source := Memory.source memory;
     Memory.timestamp := Memory.timestamp memory;
     Memory.confidence := Memory.confidence memory;
     Memory.connections := connections;
     Memory.metadata := Memory.metadata memory |}.

(** The updater of [addConnection] on one memory of the array. *)
Definition connect (sourceId targetId : string) (type : ConnectionType)
  (strength : number) (description : option string) (memory : Memory.t) : Memory.t :=
  if String.eqb (Memory.id memory) sourceId then
    let existingConnectionIndex :=
      findIndex (fun conn => String.eqb (Connection.targetId conn) targetId)
                (Memory.connections memory) in
    let newConnection := Connection.mk type targetId strength description in
    let connections :=
      match existingConnectionIndex with
      | Some i =>
          slice (Memory.connections memory) 0 i
            ++ [newConnection]
            ++ slice_from (Memory.connections memory) (i + 1)
      | None => Memory.connections memory ++ [newConnection]
      end in
    with_connections memory connections
  else memory.

Definition addConnection (sourceId targetId : string) (type : ConnectionType)
  (strength : number) (description : option string) : M unit :=
  set (fun state =>
    MemoryState.set_memories state
      (map (connect sourceId targetId type strength description)
           (MemoryState.memories state))).

Definition removeConnection (sourceId targetId : string) : M unit :=
  set (fun state =>
    MemoryState.set_memories state
      (map (fun memory =>
              if String.eqb (Memory.id memory) sourceId then
                with_connections memory
                  (filter (fun conn => negb (String.eqb (Connection.targetId conn) targetId))
                          (Memory.connections memory))
              else memory)
           (MemoryState.memories state))).

(** [relatedIds] and [relationStrengths], the two collections that the
    [forEach] loops of [getRelatedMemories] fill. *)
Record Relations := mkRelations {
  relatedIds : Set_;
  relationStrengths : Map number
}.

(** The body of [target.connections.forEach]. *)
Definition outgoing (acc : Relations) (conn : Connection.t) : Relations :=
  {| relatedIds := Set_add (relatedIds acc) (Connection.targetId conn);
     relationStrengths :=
       Map_set (relationStrengths acc) (Connection.targetId conn) (Connection.strength conn) |}.

(** The body of the inner [memory.connections.forEach]. *)
Definition incoming (id : string) (memory : Memory.t) (acc : Relations)
  (conn : Connection.t) : Relations :=
  if String.eqb (Connection.targetId conn) id then
    {| relatedIds := Set_add (relatedIds acc) (Memory.id memory);
       relationStrengths :=
         Map_set (relationStrengths acc) (Memory.id memory)
           (Math_max (Connection.strength conn)
                     (or_default (Map_get (relationStrengths acc) (Memory.id memory)) 0)) |}
  else acc.

Definition relations (memories : list Memory.t) (target : Memory.t) (id : string)
  : Relations :=
  let acc := fold_left outgoing (Memory.connections target) (mkRelations [] []) in
  fold_left
    (fun acc memory => fold_left (incoming id memory) (Memory.connections memory) acc)
    memories acc.

Definition findMemory (memories : list Memory.t) (id : string) : option Memory.t :=
  find (fun m => String.eqb (Memory.id m) id) memories.

(** The callback of [Array.from(relatedIds).map]. *)
Definition combine_strengths (memories : list Memory.t)
  (semanticMemories : Map Match.t) (relationStrengths : Map number)
  (relatedId : string) : option Ranked.t :=
  let memory := findMemory memories relatedId in
  let semanticMatch := Map_get semanticMemories relatedId in
  match memory with
  | None => None
  | Some memory =>
      let explicitStrength := or_default (Map_get relationStrengths relatedId) 0 in
      let semanticStrength :=
        match semanticMatch with
        | Some m => Match.similarity m
        | None => 0
        end in
      let combinedStrength := Math_max explicitStrength semanticStrength in
      Some (Ranked.mk memory combinedStrength)
  end.

Definition byStrength (a b : Ranked.t) : number :=
  Ranked.strength b - Ranked.strength a.

(** The array before [.map(item => item.memory)]. *)
Definition ranked (memories : list Memory.t) (semanticMemories : Map Match.t)
  (rel : Relations) : list Ranked.t :=
  sort byStrength
    (filter_null
       (map (combine_strengths memories semanticMemories (relationStrengths rel))
            (relatedIds rel))).

(** What [semanticMemories.forEach] pushes. *)
Definition semanticOnly (semanticMemories : Map Match.t) (rel : Relations)
  : list Memory.t :=
  map (fun e => Match.memory (snd e))
      (filter (fun e => negb (Set_has (relatedIds rel) (fst e))) semanticMemories).

Definition semanticMap (similarMemories : list Match.t) : Map Match.t :=
  Map_of (map (fun m => (Memory.id (Match.memory m), m)) similarMemories).

Definition getRelatedMemories `{Platform} (id : string) : M (list Memory.t) :=
  w <- get ;;
  let state := store w in
  match findMemory (MemoryState.memories state) id with
  | None => ret []
  | Some target =>
      similarMemories <-
        VectorStore.findSimilarMemories (Memory.content target)
          VectorStore.default_limit VectorStore.default_minSimilarity ;;
      let semanticMemories := semanticMap similarMemories in
      let rel := relations (MemoryState.memories state) target id in
      let allRelatedMemories :=
        map Ranked.memory (ranked (MemoryState.memories state) semanticMemories rel) in
      ret (allRelatedMemories ++ semanticOnly semanticMemories rel)
  end.

Definition with_tags (memory : Memory.t) (tags : list string) : Memory.t :=
  let md := Memory.metadata memory in
  {| Memory.id := Memory.id memory;
     Memory.type := Memory.type memory;
     Memory.content := Memory.content memory;
     Memory.source := Memory.source memory;
     Memory.timestamp := Memory.timestamp memory;
     Memory.confidence := Memory.confidence memory;
     Memory.connections := Memory.connections memory;
     Memory.metadata :=
       {| Metadata.workspace := Metadata.workspace md;
          Metadata.thread := Metadata.thread md;
          Metadata.context := Metadata.context md;
          Metadata.tags := Some tags;
          Metadata.timestamp := Metadata.timestamp md |} |}.

(** The re-upsert is not awaited; a failure of it is printed. *)
Definition updateMemoryTags `{Platform} (id : string) (tags : list string) : M unit :=
  w <- get ;;
  let updatedMemories :=
    map (fun memory =>
           if String.eqb (Memory.id memory) id then with_tags memory tags else memory)
        (MemoryState.memories (store w)) in
  match findMemory updatedMemories id with
  | Some updatedMemory =>
      try (VectorStore.addMemory updatedMemory)
      catch (fun e => console_error (match e with mkError m => m end))
  | None => ret tt
  end ;;;
  set (fun state => MemoryState.set_memories state updatedMemories).

End MemoryStore.

(* ================================================================== *)
(** ** [services/memory] *)

Module MemoryService.

Definition nl : string := String (ascii_of_nat 10) "".

Definition type_name (t : MemoryType) : string :=
  match t with
  | fact => "fact"
  | concept => "concept"
  | relationship => "relationship"
  end.

(** One line of the context: [TYPE: content (ID: id)]. *)
Definition context_line (m : Memory.t) : string :=
  (toUpperCase (type_name (Memory.type m)) ++ ": " ++ Memory.content m
     ++ " (ID: " ++ Memory.id m ++ ")")%string.

Definition prompt_of (relevantMemories : list Memory.t) (conversation : string) : string :=
  ("Analyze this conversation and extract memories. Use existing memories to identify connections and enhance understanding."
     ++ nl ++ nl ++ "Existing Memories:" ++ nl
     ++ join nl (map context_line relevantMemories)
     ++ nl ++ nl ++ "New Conversation:" ++ nl ++ conversation)%string.

(** The callback of [memory.connections.map]: [None] is [null]. *)
Definition resolve (relevantMemories : list Memory.t) (conn : ProposedConnection.t)
  : option Connection.t :=
  let targetMemory :=
    find (fun m =>
            includes (toLowerCase (Memory.content m))
                     (toLowerCase (ProposedConnection.targetContent conn)))
         relevantMemories in
  match targetMemory with
  | Some targetMemory =>
      Some {| Connection.type := ProposedConnection.type conn;
              Connection.targetId := Memory.id targetMemory;
              Connection.strength := ProposedConnection.strength conn;
              Connection.description := ProposedConnection.description conn |}
  | None => None
  end.

(** The callback of [parsed.memories.map]. *)
Definition candidate `{Platform} (conversation : string) (relevantMemories : list Memory.t)
  (memory : ExtractedMemory.t) : M PartialMemory.t :=
  connections <-
    match ExtractedMemory.connections memory with
    | Some conns => ret (filter_null (map (resolve relevantMemories) conns))
    | None => throw (mkError "TypeError")
    end ;;
  timestamp <- now ;;
  let md := or_else (ExtractedMemory.metadata memory) Metadata.empty in
  ret {| PartialMemory.id := None;
         PartialMemory.timestamp := None;
         PartialMemory.type := ExtractedMemory.type memory;
         PartialMemory.content := ExtractedMemory.content memory;
         PartialMemory.confidence := Some (or_default (ExtractedMemory.confidence memory) 1);
         PartialMemory.source := Some (substring 0 100 conversation ++ "...")%string;
         PartialMemory.connections := Some connections;
         PartialMemory.metadata :=
           Some {| Metadata.workspace := Metadata.workspace md;
                   Metadata.thread := Metadata.thread md;
                   Metadata.context := Metadata.context md;
                   Metadata.timestamp := Some timestamp;
                   Metadata.tags := Some (or_else (Metadata.tags md) []) |} |}.

(** [{ ...memory, id, timestamp }]. *)
Definition fullMemory (memory : PartialMemory.t) (id : string) (timestamp : number)
  : Memory.t :=
  {| Memory.id := id;
     Memory.timestamp := timestamp;
     Memory.type := PartialMemory.type memory;
     Memory.content := PartialMemory.content memory;
     Memory.source := PartialMemory.source memory;
     Memory.confidence := or_else (PartialMemory.confidence memory) 0;
     Memory.connections := or_else (PartialMemory.connections memory) [];
     Memory.metadata := or_else (PartialMemory.metadata memory) Metadata.empty |}.

(** The body of the [for ... of] loop that stores the new memories. *)
Definition persist `{Platform} (memory : PartialMemory.t) : M unit :=
  id <- crypto_randomUUID ;;
  timestamp <- now ;;
  VectorStore.addMemory (fullMemory memory id timestamp).

Definition extractMemories `{Platform} (conversation : string)
  (existingMemories : list Memory.t) : M (list PartialMemory.t) :=
  try (similarMemories <-
         VectorStore.findSimilarMemories conversation 5 VectorStore.default_minSimilarity ;;
       let relevantMemories := existingMemories ++ map Match.memory similarMemories in
       let prompt := prompt_of relevantMemories conversation in
       response <- lift (openRouter prompt) ;;
       (try (parsed <- match JSON_parse response with
                       | Some memories => ret memories
                       | None => throw (mkError "SyntaxError")
                       end ;;
             memories <- map_M (candidate conversation relevantMemories) parsed ;;
             for_of memories persist ;;;
             ret memories)
        catch (fun _ =>
          console_error "Failed to parse memory extraction result:" ;;; ret [])))
  catch (fun _ => console_error "Failed to extract memories:" ;;; ret []).

End MemoryService.

(* ================================================================== *)
(** ** [services/google]

    The search service talks to two endpoints through [fetch].  What comes
    back is read through typed views: of a body that is a JSON object, the
    three paths the code follows; [None] stands for a path that leads
    nowhere, or to a value of the wrong kind. *)

Module Google.

Definition MAX_RETRIES : nat := 3.
Definition RETRY_DELAY : Z := 1000.

(** An element of [data.items]. *)
Record Item := mkItem {
  title : option string;
  snippet : option string;
  link : option string
}.

Record Body := mkBody {
  (** [error.error?.message] *)
  error_message : option string;
  (** [data.items] when it is an array; an element that is [null] is [None] *)
  items : option (list (option Item));
  (** [data.choices[0]?.message?.content] when [data.choices] is an array *)
  content : option string
}.

(** [{}] *)
Definition empty_body : Body := mkBody None None None.

(** A response: [json] is what [response.json()] resolves to, [None] for
    [null], or the error it rejects with. *)
Record Response := mkResponse {
  ok : bool;
  status : Z;
  json : outcome (option Body)
}.

(** The query string of the search endpoint; [num] is the number whose
    digits are sent. *)
Record SearchParams := mkSearchParams {
  key : string;
  cx : string;
  q : string;
  num : number
}.

(** The request to the chat-completion endpoint. *)
Record ChatRequest := mkChatRequest {
  authorization : string;
  referer : string;
  model : string;
  system : string;
  user : string;
  temperature : number;
  max_tokens : Z
}.

Inductive Request :=
| Search (params : SearchParams)
| Chat (body : ChatRequest).

(** [fetch] answers the [n]-th request of the session, or rejects;
    [origin] is [window.location.origin]. *)
Class Web := {
  fetch : Request -> nat -> outcome Response;
  origin : string
}.

(** [{ title, description, url }] *)
Record SearchResult := mkSearchResult {
  result_title : string;
  result_description : string;
  result_url : string
}.

Inductive Mode := default | comprehensive | key_points | synthesis.

(** What [searchGoogle] throws: its own class of errors, or any other
    [Error]. *)
Inductive Exception :=
| GoogleSearchError (message : string) (statusCode : option Z) (retryable : bool)
| OtherError (e : Error).

(** How a call of [searchGoogle] ends. *)
Inductive completion (A : Type) :=
| Done (a : A)
| Raised (e : Exception).
Arguments Done {A} a.
Arguments Raised {A} e.

(** The session: the requests sent, the first arguments of [console.error]
    and the delays waited for, the latest first. *)
Record Net := mkNet {
  sent : nat;
  printed : list string;
  waited : list Z
}.

Definition send `{Web} (request : Request) (n : Net) : outcome Response * Net :=
  (fetch request (sent n), mkNet (S (sent n)) (printed n) (waited n)).

Definition print (label : string) (n : Net) : Net :=
  mkNet (sent n) (label :: printed n) (waited n).

(** [await delay(ms)] *)
Definition delay (ms : Z) (n : Net) : Net :=
  mkNet (sent n) (printed n) (ms :: waited n).

(** [x || d] on a string that may be absent. *)
Definition or_string (x : option string) (d : string) : string :=
  match x with
  | Some s => if String.eqb s "" then d else s
  | None => d
  end.

(** The digits of an integer, as a template literal prints them. *)
Definition digits (z : Z) : string := NilZero.string_of_int (Z.to_int z).

(** [response.json().catch(() => ({}))] *)
Definition json_or_empty (response : Response) : option Body :=
  match json response with
  | Returned body => body
  | Thrown _ => Some empty_body
  end.

Definition validateGoogleConfig `{Web} (searchEngineId apiKey : string) (n : Net)
  : bool * Net :=
  if String.eqb searchEngineId "" || String.eqb apiKey "" then (false, n)
  else
    let params := mkSearchParams apiKey searchEngineId "test" 1 in
    match send (Search params) n with
    | (Returned response, n1) => (ok response, n1)
    | (Thrown _, n1) => (false, print "Google Search validation error:" n1)
    end.

(** The callback of [data.items.map]. *)
Definition toResult (item : option Item) : outcome SearchResult :=
  match item with
  | Some item =>
      Returned (mkSearchResult (or_string (title item) "")
                               (or_string (snippet item) "")
                               (or_string (link item) ""))
  | None => Thrown (mkError "TypeError")
  end.

(** The [try] block of [searchGoogle]. *)
Definition search `{Web} (params : SearchParams) (n : Net)
  : completion (list SearchResult) * Net :=
  match send (Search params) n with
  | (Thrown e, n1) => (Raised (OtherError e), n1)
  | (Returned response, n1) =>
      if negb (ok response) then
        match json_or_empty response with
        | None => (Raised (OtherError (mkError "TypeError")), n1)
        | Some error =>
            let errorMessage :=
              or_string (error_message error)
                ("Search failed with status " ++ digits (status response)) in
            let n2 := print "Google Search API error:" n1 in
            if (status response =? 403)%Z then
              (Raised (GoogleSearchError
                         "Invalid API key or Search Engine ID. Please check your settings."
                         None false), n2)
            else if (status response =? 429)%Z then
              (Raised (GoogleSearchError "Search quota exceeded. Please try again later."
                         None false), n2)
            else
              (Raised (GoogleSearchError errorMessage (Some (status response)) false), n2)
        end
      else
        match json response with
        | Thrown e => (Raised (OtherError e), n1)
        | Returned None => (Raised (OtherError (mkError "TypeError")), n1)
        | Returned (Some data) =>
            match items data with
            | None => (Done [], n1)
            | Some items =>
                match map_outcome toResult items with
                | Returned results => (Done results, n1)
                | Thrown e => (Raised (OtherError e), n1)
                end
            end
        end
  end.

Definition searchGoogle `{Web} (query searchEngineId apiKey : string)
  (numResults : number) (n : Net) : completion (list SearchResult) * Net :=
  if String.eqb searchEngineId "" || String.eqb apiKey "" then
    (Raised (GoogleSearchError
               "Google Search configuration is missing. Please check your API key and Search Engine ID in settings."
               None false), n)
  else
    let params := mkSearchParams apiKey searchEngineId query numResults in
    match search params n with
    | (Done results, n1) => (Done results, n1)
    | (Raised error, n1) =>
        let n2 := print "Google Search error:" n1 in
        match error with
        | GoogleSearchError _ _ _ => (Raised error, n2)
        | OtherError (mkError message) =>
            (Raised (GoogleSearchError message None false), n2)
        end
    end.

Definition default_numResults : number := 5.

Definition nl : string := String (ascii_of_nat 10) "".
Definition quote : string := String (ascii_of_nat 34) "".
(** The bullet U+2022, in UTF-8. *)
Definition bullet : string :=
  String (ascii_of_nat 226) (String (ascii_of_nat 128) (String (ascii_of_nat 162) "")).

Definition systemPrompt (mode : Mode) (previousAnalyses : list string) : string :=
  match mode with
  | comprehensive =>
      join nl
        ["As a thorough research analyst, provide a detailed analysis of these search results. Focus on:";
         "1. Comprehensive coverage of all major points";
         "2. Technical details and specifications";
         "3. Different perspectives and approaches";
         "4. Historical context and development";
         "5. Real-world applications and implications";
         "";
         "Format your analysis in a well-structured, detailed manner using headings and bullet points where appropriate."]
  | key_points =>
      join nl
        ["As a strategic analyst, identify and analyze the key points from these search results. Focus on:";
         "1. Core concepts and fundamental principles";
         "2. Critical relationships and dependencies";
         "3. Key patterns and trends";
         "4. Important contradictions or debates";
         "5. Practical implications";
         "";
         "Organize your analysis around the most significant findings and their interconnections."]
  | synthesis =>
      join nl
        ["As an expert synthesist, create a final, integrated analysis combining previous analyses with these results. Focus on:";
         "1. Synthesizing all gathered information into a coherent whole";
         "2. Highlighting the most important insights";
         "3. Resolving contradictions and clarifying ambiguities";
         "4. Drawing well-supported conclusions";
         "5. Providing actionable insights";
         "";
         "Previous Analyses:";
         join (nl ++ nl ++ "---" ++ nl ++ nl)%string previousAnalyses;
         "";
         "Create a final, authoritative summary that brings together all the information."]
  | default =>
      join nl
        ["As a search analyst, analyze these results and provide a concise, well-organized summary that directly answers or addresses the query. Focus on:";
         "1. Extracting and highlighting relevant information";
         "2. Including specific facts and data";
         "3. Citing sources using [Title](URL) format";
         "4. Organizing information logically";
         "5. Maintaining factual accuracy"]
  end.

Definition searchContent (results : list SearchResult) : string :=
  join (nl ++ nl)%string
    (map (fun result =>
            ("Title: " ++ result_title result ++ nl
               ++ "URL: " ++ result_url result ++ nl
               ++ "Description: " ++ result_description result)%string)
         results).

(** White space, as far as one byte holds it. *)
Definition is_space (c : ascii) : bool :=
  let n := nat_of_ascii c in
  ((9 <=? n) && (n <=? 13) || (n =? 32))%nat.

Fixpoint trimStart (s : string) : string :=
  match s with
  | String c t => if is_space c then trimStart t else s
  | EmptyString => EmptyString
  end.

Fixpoint trimEnd (s : string) : string :=
  match s with
  | String c t =>
      match trimEnd t with
      | EmptyString => if is_space c then EmptyString else String c EmptyString
      | t' => String c t'
      end
  | EmptyString => EmptyString
  end.

(** [s.trim()] *)
Definition trim (s : string) : string := trimEnd (trimStart s).

Definition generateFallbackAnalysis (query : string) (results : list SearchResult)
  : string :=
  let relevantResults := slice0 results 3 in
  let summary :=
    ("Here are the most relevant findings for " ++ quote ++ query ++ quote ++ ":"
       ++ nl ++ nl
       ++ join (nl ++ nl)
            (map (fun result =>
                    bullet ++ " " ++ result_title result ++ nl
                      ++ "  " ++ result_description result ++ nl
                      ++ "  Source: " ++ result_url result)
                 relevantResults))%string in
  summary.

(** What the [try] block of an attempt makes of the response. *)
Definition read (response : Response) : outcome string :=
  if negb (ok response) then
    match json_or_empty response with
    | None => Thrown (mkError "TypeError")
    | Some error =>
        Thrown (mkError (or_string (error_message error)
                           ("API error: " ++ digits (status response))))
    end
  else
    match json response with
    | Thrown e => Thrown e
    | Returned data =>
        match data with
        | None => Thrown (mkError "Invalid API response structure")
        | Some data =>
            match content data with
            | None => Thrown (mkError "Invalid API response structure")
            | Some text =>
                if String.eqb text "" then Thrown (mkError "Invalid API response structure")
                else
                  let content := trim text in
                  if String.eqb content "" || (String.length content <? 10)%nat then
                    Thrown (mkError "Generated content is too short or empty")
                  else Returned content
            end
        end
    end.

(** The [try] block of an attempt. *)
Definition ask `{Web} (request : ChatRequest) (n : Net) : outcome string * Net :=
  match send (Chat request) n with
  | (Thrown e, n1) => (Thrown e, n1)
  | (Returned response, n1) => (read response, n1)
  end.

(** The loop [for (let attempt = 0; attempt < MAX_RETRIES; attempt++)], with
    [remaining = MAX_RETRIES - attempt]. *)
Fixpoint attempts `{Web} (request : ChatRequest) (query : string)
  (results : list SearchResult) (attempt remaining : nat) (n : Net)
  : outcome string * Net :=
  match remaining with
  | O => (Thrown (mkError "Failed to analyze search results after multiple attempts"), n)
  | S remaining' =>
      match ask request n with
      | (Returned content, n1) => (Returned content, n1)
      | (Thrown _, n1) =>
          let n2 := print ("Analysis attempt " ++ digits (Z.of_nat (attempt + 1)) ++ " failed:") n1 in
          if (attempt =? MAX_RETRIES - 1)%nat then
            (Returned (generateFallbackAnalysis query results), n2)
          else
            attempts request query results (S attempt) remaining'
              (delay (RETRY_DELAY * 2 ^ Z.of_nat attempt) n2)
      end
  end.

(** The body of the request, and the two headers that vary. *)
Definition chatRequest `{Web} (apiKey model query : string)
  (results : list SearchResult) (mode : Mode) (previousAnalyses : list string)
  : ChatRequest :=
  {| authorization := "Bearer " ++ apiKey;
     referer := origin;
     model := model;
     system := systemPrompt mode previousAnalyses;
     user := "Query: " ++ query ++ nl ++ nl ++ "Search Results:" ++ nl
               ++ searchContent results;
     temperature := match mode with synthesis => 7 # 10 | _ => 3 # 10 end;
     max_tokens := 2000 |}.

Definition analyzeSearchResults `{Web} (apiKey model query : string)
  (results : list SearchResult) (mode : Mode) (previousAnalyses : list string) (n : Net)
  : outcome string * Net :=
  match results with
  | [] => (Returned "", n)
  | _ :: _ =>
      attempts (chatRequest apiKey model query results mode previousAnalyses)
               query results 0 MAX_RETRIES n
  end.

End Google.

(* ================================================================== *)
(** ** [hooks/useMessage]: the web search of a message *)

Module UseMessage.

Import Google.

Inductive Stage := searching | analyzing.

Record SearchState := mkSearchState {
  isSearching : bool;
  error : option string;
  stage : option Stage;
  results : list SearchResult
}.

(** The settings of the store that the search reads. *)
Record Settings := mkSettings {
  googleSearchId : string;
  googleSearchApiKey : string;
  apiKey : string;
  model : string
}.

(** The session and the state of the hook. *)
Record Hook := mkHook {
  net : Net;
  searchState : SearchState
}.

Definition setSearchState (update : SearchState -> SearchState) (h : Hook) : Hook :=
  mkHook (net h) (update (searchState h)).

(** Every value thrown in [performWebSearch] is an [Error]: the argument is
    its message. *)
Definition handleSearchError (errorMessage : string) (h : Hook) : option string * Hook :=
  let h1 := mkHook (print "Search error:" (net h)) (searchState h) in
  (None,
   setSearchState
     (fun prev => mkSearchState false (Some errorMessage) None (results prev)) h1).

Definition message_of (e : Exception) : string :=
  match e with
  | GoogleSearchError message _ _ => message
  | OtherError (mkError message) => message
  end.

(** The loop over the queries; [allResults.push(...results)]. *)
Fixpoint searchAll `{Web} (settings : Settings) (resultsPerQuery : number)
  (queries : list string) (allResults : list SearchResult) (n : Net)
  : completion (list SearchResult) * Net :=
  match queries with
  | [] => (Done allResults, n)
  | searchQuery :: queries' =>
      match searchGoogle searchQuery (googleSearchId settings)
              (googleSearchApiKey settings) resultsPerQuery n with
      | (Done results, n1) =>
          searchAll settings resultsPerQuery queries' (allResults ++ results) n1
      | (Raised e, n1) => (Raised e, n1)
      end
  end.

(** [Array.from(new Map(allResults.map(result => [result.url, result])).values())] *)
Definition unique (allResults : list SearchResult) : list SearchResult :=
  map snd (Map_of (map (fun result => (result_url result, result)) allResults)).

(** The passes of the analysis. *)
Definition analyze `{Web} (settings : Settings) (query : string)
  (uniqueResults : list SearchResult) (isDeepSearch : bool) (n : Net)
  : outcome string * Net :=
  if isDeepSearch then
    match analyzeSearchResults (apiKey settings) (model settings) query uniqueResults
            comprehensive [] n with
    | (Thrown e, n1) => (Thrown e, n1)
    | (Returned firstPass, n1) =>
        match analyzeSearchResults (apiKey settings) (model settings) query uniqueResults
                key_points [] n1 with
        | (Thrown e, n2) => (Thrown e, n2)
        | (Returned secondPass, n2) =>
            analyzeSearchResults (apiKey settings) (model settings) query uniqueResults
              synthesis [firstPass; secondPass] n2
        end
    end
  else
    analyzeSearchResults (apiKey settings) (model settings) query uniqueResults
      default [] n.

Definition performWebSearch `{Web} (settings : Settings) (query : string)
  (isDeepSearch : bool) (h : Hook) : option string * Hook :=
  if String.eqb (googleSearchId settings) "" || String.eqb (googleSearchApiKey settings) ""
  then
    handleSearchError
      "Google Search is not configured. Please add your API key and Search Engine ID in settings."
      h
  else
    let h1 := setSearchState (fun _ => mkSearchState true None (Some searching) []) h in
    let (isValid, n1) :=
      validateGoogleConfig (googleSearchId settings) (googleSearchApiKey settings) (net h1) in
    if negb isValid then
      handleSearchError
        "Invalid Google Search configuration. Please check your API key and Search Engine ID."
        (mkHook n1 (searchState h1))
    else
      let resultsPerQuery : number := if isDeepSearch then 10 else 5 in
      let queries :=
        if isDeepSearch
        then [query; "detailed " ++ query; "comprehensive " ++ query; "in-depth " ++ query]%string
        else [query] in
      match searchAll settings resultsPerQuery queries [] n1 with
      | (Raised e, n2) => handleSearchError (message_of e) (mkHook n2 (searchState h1))
      | (Done allResults, n2) =>
          let uniqueResults := unique allResults in
          match uniqueResults with
          | [] =>
              (None,
               mkHook n2 (mkSearchState false (Some "No search results found") None []))
          | _ :: _ =>
              let h2 :=
                setSearchState
                  (fun prev =>
                     mkSearchState (isSearching prev) (error prev) (Some analyzing)
                                   uniqueResults)
                  (mkHook n2 (searchState h1)) in
              match analyze settings query uniqueResults isDeepSearch n2 with
              | (Thrown (mkError message), n3) =>
                  handleSearchError message (mkHook n3 (searchState h2))
              | (Returned analysis, n3) =>
                  (Some analysis,
                   mkHook n3 (mkSearchState false None None uniqueResults))
              end
          end
      end.

End UseMessage.

(* ================================================================== *)
(** * The vocabulary of the properties *)

(** ** Computations *)

(** A computation throws in a world. *)
Definition throws {A} (m : M A) (w : World) : Prop :=
  exists e w', m w = (Thrown e, w').

(** A computation returns in a world. *)
Definition returns {A} (m : M A) (w : World) : Prop :=
  exists a w', m w = (Returned a, w').

(** ** Sorting *)

(** The comparator of a sort by descending [key]. *)
Definition descending {A} (key : A -> number) (a b : A) : number := key b - key a.

(** A list in descending order of [key]. *)
Definition Descending {A} (key : A -> number) : list A -> Prop :=
  StronglySorted (fun a b => key b <= key a).

(** The elements of one key. *)
Definition has_key {A} (key : A -> number) (v : number) (a : A) : bool :=
  Qeq_bool (key a) v.

(** ** Similarity and the vector store *)

(** The products of the components of two vectors. *)
Definition products (a b : list number) : list number :=
  map (fun p => fst p * snd p) (combine a b).

(** The vector of the model for a text, when it gives one. *)
Definition embed `{Platform} (text : string) : option (list number) :=
  match pipeline with
  | Some model =>
      match model text with
      | Returned v => Some v
      | Thrown _ => None
      end
  | None => None
  end.

(** The array after the update-or-push of [addMemory]. *)
Definition upserted (vs : list StoredMemory.t) (s : StoredMemory.t) : list StoredMemory.t :=
  match findIndex (fun m => String.eqb (StoredMemory.id m) (StoredMemory.id s)) vs with
  | Some index => assign vs index s
  | None => vs ++ [s]
  end.

(** The matches of a selection. *)
Definition qualifying (sims : list Scored.t) (minSimilarity : number) : list Scored.t :=
  filter (fun s => geb (Scored.similarity s) minSimilarity) sims.

(** The number of entries that [slice(0, limit)] keeps of [n]: a negative
    [limit] counts from the end. *)
Definition kept (n : nat) (limit : Z) : nat :=
  if (limit <? 0)%Z
  then Z.to_nat (Z.max (Z.of_nat n + limit) 0)
  else Nat.min (Z.to_nat limit) n.

(** What the constructor finds when the stored item cannot be read. *)
Definition unreadable (w : World) : Prop := denied w = true \/ item w = Garbage.

(** ** Connections *)

(** The update-or-append of [addConnection] on one list of connections. *)
Definition upsert (conns : list Connection.t) (new : Connection.t) : list Connection.t :=
  match findIndex (fun conn => String.eqb (Connection.targetId conn) (Connection.targetId new))
                  conns with
  | Some i => slice conns 0 i ++ [new] ++ slice_from conns (i + 1)
  | None => conns ++ [new]
  end.

(** The edges of a list that point at [target]. *)
Definition edges_to (target : string) (conns : list Connection.t) : list Connection.t :=
  filter (fun conn => String.eqb (Connection.targetId conn) target) conns.

(** The targets of a list of edges. *)
Definition targets (conns : list Connection.t) : list string :=
  map Connection.targetId conns.

(** The invariant of the data model: at most one edge per target. *)
Definition single_edged (memory : Memory.t) : Prop :=
  NoDup (targets (Memory.connections memory)).

(** ** [addMemory] of the memory store *)

(** The record that [addMemory] builds from its argument, given the id and
    the timestamp it settled on. *)
Definition newMemory (memory : PartialMemory.t) (id : string) (timestamp : number)
  : Memory.t :=
  {| Memory.id := id;
     Memory.type := PartialMemory.type memory;
     Memory.content := PartialMemory.content memory;
     Memory.source := PartialMemory.source memory;
     Memory.timestamp := timestamp;
     Memory.confidence := or_default (PartialMemory.confidence memory) 1;
     Memory.connections := or_else (PartialMemory.connections memory) [];
     Memory.metadata :=
       let md := or_else (PartialMemory.metadata memory) Metadata.empty in
       {| Metadata.workspace := Metadata.workspace md;
          Metadata.thread := Metadata.thread md;
          Metadata.context := Metadata.context md;
          Metadata.tags := Some (or_else (Metadata.tags md) []);
          Metadata.timestamp := Metadata.timestamp md |} |}.

(** The array of the zustand state after the update of [addMemory]. *)
Definition placed (memories : list Memory.t) (new : Memory.t) : list Memory.t :=
  sort MemoryStore.byTimestamp
    (filter (fun m =>
               if MemoryStore.string_truthy (Memory.id new)
               then negb (String.eqb (Memory.id m) (Memory.id new))
               else true) memories
     ++ [new]).

(** ** Explicit, semantic and combined strength *)

(** The edges that bear on the target [id], each as the candidate it names
    and its strength: those of the target, and those of the memories that
    point at it. *)
Definition outgoing_edges (target : Memory.t) : list (string * number) :=
  map (fun conn => (Connection.targetId conn, Connection.strength conn))
      (Memory.connections target).

Definition incoming_edges (memories : list Memory.t) (id : string)
  : list (string * number) :=
  flat_map (fun m => map (fun conn => (Memory.id m, Connection.strength conn))
                         (edges_to id (Memory.connections m)))
           memories.

Definition strengths_of (c : string) (edges : list (string * number)) : list number :=
  map snd (filter (fun e => String.eqb (fst e) c) edges).

(** The strengths of all the edges between the target and the candidate [c],
    in either direction. *)
Definition explicit_strengths (memories : list Memory.t) (target : Memory.t)
  (id c : string) : list number :=
  strengths_of c (outgoing_edges target) ++ strengths_of c (incoming_edges memories id).

(** The last strength of a list, when there is one. *)
Definition latest (l : list number) : list number :=
  match rev l with
  | [] => []
  | x :: _ => [x]
  end.

(** The strengths that count for the candidate [c]: of the edges of the
    target to [c], the last one ([relationStrengths.set] replaces what an
    earlier edge recorded); of the edges of [c] to the target, all. *)
Definition counted_strengths (memories : list Memory.t) (target : Memory.t)
  (id c : string) : list number :=
  latest (strengths_of c (outgoing_edges target))
  ++ strengths_of c (incoming_edges memories id).

(** The maximum of a list of strengths, when there is one. *)
Definition strongest (l : list number) : option number :=
  match l with
  | [] => None
  | x :: t => Some (fold_left Qmax t x)
  end.

(** The two loop bodies, on an edge given as candidate and strength. *)
Definition set_step (acc : MemoryStore.Relations) (e : string * number)
  : MemoryStore.Relations :=
  {| MemoryStore.relatedIds := Set_add (MemoryStore.relatedIds acc) (fst e);
     MemoryStore.relationStrengths :=
       Map_set (MemoryStore.relationStrengths acc) (fst e) (snd e) |}.

Definition max_step (acc : MemoryStore.Relations) (e : string * number)
  : MemoryStore.Relations :=
  {| MemoryStore.relatedIds := Set_add (MemoryStore.relatedIds acc) (fst e);
     MemoryStore.relationStrengths :=
       Map_set (MemoryStore.relationStrengths acc) (fst e)
         (Math_max (snd e)
            (or_default (Map_get (MemoryStore.relationStrengths acc) (fst e)) 0)) |}.

(** One round of the second loop on the strength recorded so far. *)
Definition raise (a : option number) (s : number) : option number :=
  Some (Math_max s (or_default a 0)).

(** The semantic strength of a candidate, as the code has it: the
    similarity of its match among the matches that [findSimilarMemories]
    returned for the content of the target, and 0 when it is not among them,
    be it below the floor, cut by the limit, or lost with a failed search. *)
Definition semantic_strength (similar : list Match.t) (c : string) : number :=
  match find (fun m => String.eqb (Memory.id (Match.memory m)) c) similar with
  | Some m => Match.similarity m
  | None => 0
  end.

(** The combined strength, as the code has it: the maximum of the strongest
    of the strengths that count and of the semantic strength. *)
Definition combined_strength (memories : list Memory.t) (target : Memory.t)
  (id : string) (similar : list Match.t) (c : string) : number :=
  match strongest (counted_strengths memories target id c) with
  | Some e => Qmax e (semantic_strength similar c)
  | None => semantic_strength similar c
  end.

(** The strengths as the specification words them.  The explicit strength:
    the maximum of the strengths of all the edges between the target and the
    candidate, in either direction, 0 without an edge. *)
Definition spec_explicit (memories : list Memory.t) (target : Memory.t)
  (id c : string) : number :=
  match strongest (explicit_strengths memories target id c) with
  | Some x => x
  | None => 0
  end.

(** The semantic strength: the cosine similarity of the content of the
    target with the stored vector of the candidate, 0 when it is below the
    floor of 0.7. *)
Definition spec_semantic `{Platform} (vs : list StoredMemory.t) (content c : string)
  : number :=
  match embed content, find (fun s => String.eqb (StoredMemory.id s) c) vs with
  | Some q, Some s =>
      match Embeddings.cosineSimilarity q (StoredMemory.embedding s) with
      | Returned x => if geb x VectorStore.default_minSimilarity then x else 0
      | Thrown _ => 0
      end
  | _, _ => 0
  end.

Definition spec_combined `{Platform} (w : World) (target : Memory.t) (id c : string)
  : number :=
  Qmax (spec_explicit (MemoryState.memories (store w)) target id c)
       (spec_semantic (vectors w) (Memory.content target) c).

Definition matched_ids (similar : list Match.t) : list string :=
  map (fun m => Memory.id (Match.memory m)) similar.

(** A candidate has no edge to or from the target. *)
Definition no_edge (memories : list Memory.t) (target : Memory.t) (id c : string) : bool :=
  match explicit_strengths memories target id c with
  | [] => true
  | _ :: _ => false
  end.

(** ** Extraction *)

(** The candidate made of an entry of the answer, given the time. *)
Definition candidate_of (conversation : string) (relevantMemories : list Memory.t)
  (memory : ExtractedMemory.t) (timestamp : number) : PartialMemory.t :=
  let md := or_else (ExtractedMemory.metadata memory) Metadata.empty in
  {| PartialMemory.id := None;
     PartialMemory.timestamp := None;
     PartialMemory.type := ExtractedMemory.type memory;
     PartialMemory.content := ExtractedMemory.content memory;
     PartialMemory.confidence := Some (or_default (ExtractedMemory.confidence memory) 1);
     PartialMemory.source := Some (substring 0 100 conversation ++ "...")%string;
     PartialMemory.connections :=
       Some (filter_null (map (MemoryService.resolve relevantMemories)
                              (or_else (ExtractedMemory.connections memory) [])));
     PartialMemory.metadata :=
       Some {| Metadata.workspace := Metadata.workspace md;
               Metadata.thread := Metadata.thread md;
               Metadata.context := Metadata.context md;
               Metadata.timestamp := Some timestamp;
               Metadata.tags := Some (or_else (Metadata.tags md) []) |} |}.

(** The candidates of the entries, the first one made at call [c]. *)
Fixpoint candidates `{Platform} (conversation : string) (relevantMemories : list Memory.t)
  (parsed : list ExtractedMemory.t) (c : nat) : list PartialMemory.t :=
  match parsed with
  | [] => []
  | memory :: t =>
      candidate_of conversation relevantMemories memory (Date_now c)
        :: candidates conversation relevantMemories t (S c)
  end.

(** The stored copy of a candidate whose id is drawn at call [c]. *)
Definition copy `{Platform} (memory : PartialMemory.t) (c : nat) : StoredMemory.t :=
  VectorStore.toStored
    (MemoryService.fullMemory memory (randomUUID c) (Date_now (S c)))
    (or_else (embed (PartialMemory.content memory)) []).

(** The stored copies of the candidates, the first id drawn at call [c]. *)
Fixpoint copies `{Platform} (memories : list PartialMemory.t) (c : nat) : list StoredMemory.t :=
  match memories with
  | [] => []
  | memory :: t => copy memory c :: copies t (S (S c))
  end.

(** The ids drawn by [n] rounds of the storing loop that starts at call [c]. *)
Fixpoint generated `{Platform} (c n : nat) : list string :=
  match n with
  | O => []
  | S n' => randomUUID c :: generated (S (S c)) n'
  end.

(** The ids drawn are new: distinct, and not in the store. *)
Definition fresh_ids `{Platform} (vs : list StoredMemory.t) (c n : nat) : Prop :=
  NoDup (generated c n)
  /\ Forall (fun x => ~ In x (map StoredMemory.id vs)) (generated c n).

(** ** The vector store, by id *)

Definition stored_ids (vs : list StoredMemory.t) : list string := map StoredMemory.id vs.

Definition has_id (id : string) (s : StoredMemory.t) : bool :=
  String.eqb (StoredMemory.id s) id.

Definition other_id (id : string) (s : StoredMemory.t) : bool :=
  negb (String.eqb (StoredMemory.id s) id).

(** The [Memory] that a match makes of a stored record. *)
Definition projection (s : StoredMemory.t) : Memory.t :=
  Match.memory (VectorStore.toMatch (Scored.mk s 0)).

(** Two results of [cosineSimilarity] that a caller cannot tell apart: the
    same error, or equal numbers. *)
Definition same_score (o1 o2 : outcome number) : Prop :=
  match o1, o2 with
  | Returned x, Returned y => x == y
  | Thrown e1, Thrown e2 => e1 = e2
  | _, _ => False
  end.

(** ** The memory store, by id *)

(** The id that [addMemory] settles on: the one given when it is not empty,
    else a drawn one. *)
Definition settled_id `{Platform} (memory : PartialMemory.t) (w : World) : string :=
  match PartialMemory.id memory with
  | Some i => if MemoryStore.string_truthy i then i else randomUUID (calls w)
  | None => randomUUID (calls w)
  end.

(** The counter of calls once the id is settled. *)
Definition calls_after_id (memory : PartialMemory.t) (w : World) : nat :=
  match PartialMemory.id memory with
  | Some i => if MemoryStore.string_truthy i then calls w else S (calls w)
  | None => S (calls w)
  end.

(** The timestamp that [addMemory] settles on: the one given when it is not
    0, else the time. *)
Definition settled_timestamp `{Platform} (memory : PartialMemory.t) (w : World) : number :=
  match PartialMemory.timestamp memory with
  | Some t => if truthy t then t else Date_now (calls_after_id memory w)
  | None => Date_now (calls_after_id memory w)
  end.

Definition memory_ids (ms : list Memory.t) : list string := map Memory.id ms.

(** Every memory of the collection has a record of its id in the vector
    store. *)
Definition backed (w : World) : Prop :=
  forall m, In m (MemoryState.memories (store w)) ->
            In (Memory.id m) (map StoredMemory.id (vectors w)).

(** The updater of [removeConnection] on one memory of the array. *)
Definition disconnect (sourceId targetId : string) (memory : Memory.t) : Memory.t :=
  if String.eqb (Memory.id memory) sourceId then
    MemoryStore.with_connections memory
      (filter (fun conn => negb (String.eqb (Connection.targetId conn) targetId))
              (Memory.connections memory))
  else memory.

(** What [removeConnection] leaves of one memory: the id and every field but
    the connections; of the connections of the source, the edges to other
    targets in their order; every other memory whole. *)
Definition disconnected (sourceId targetId : string) (m m' : Memory.t) : Prop :=
  m' = MemoryStore.with_connections m (Memory.connections m')
  /\ (Memory.id m = sourceId ->
      edges_to targetId (Memory.connections m') = []
      /\ forall c, c <> targetId ->
           edges_to c (Memory.connections m') = edges_to c (Memory.connections m))
  /\ (Memory.id m <> sourceId -> m' = m).

(** The updater of [updateMemoryTags] on one memory of the array. *)
Definition retag (id : string) (tags : list string) (memory : Memory.t) : Memory.t :=
  if String.eqb (Memory.id memory) id then MemoryStore.with_tags memory tags else memory.

(** ** Runs of the memory service *)

(** From one world to a later one: the zustand state is the same and no id
    has left the vector store. *)
Definition grows (w w' : World) : Prop :=
  store w' = store w
  /\ forall x, In x (map StoredMemory.id (vectors w)) ->
               In x (map StoredMemory.id (vectors w')).

Definition extract_label : string := "Failed to extract memories:".
Definition parse_label : string := "Failed to parse memory extraction result:".

(** The answer of the language model, read: [None] when the call or the
    parser fails. *)
Definition answer_of `{Platform} (prompt : string) : option (list ExtractedMemory.t) :=
  match openRouter prompt with
  | Returned response => JSON_parse response
  | Thrown _ => None
  end.

(** ** Runs of the search service *)

(** What the attempt that is the [i]-th request of the session gets. *)
Definition reply `{Google.Web} (request : Google.ChatRequest) (i : nat) : outcome string :=
  match Google.fetch (Google.Chat request) i with
  | Returned response => Google.read response
  | Thrown e => Thrown e
  end.

(** The line printed when the attempt of index [i] fails, and the delay
    waited for after it. *)
Definition failure_line (i : nat) : string :=
  ("Analysis attempt " ++ Google.digits (Z.of_nat (i + 1)) ++ " failed:")%string.

Definition pause (i : nat) : Z := (Google.RETRY_DELAY * 2 ^ Z.of_nat i)%Z.

(** The indices of [k] attempts in a row from [from] on, the latest first. *)
Definition latest_first (from k : nat) : list nat := rev (seq from k).

(** How a web search ends: with an analysis and no error, or with an error
    and no analysis; never still searching. *)
Definition settled (r : option string) (s : UseMessage.SearchState) : Prop :=
  UseMessage.isSearching s = false
  /\ UseMessage.stage s = None
  /\ match r with
     | Some analysis =>
         UseMessage.error s = None
         /\ (10 <= String.length analysis)%nat
         /\ UseMessage.results s <> []
         /\ NoDup (map Google.result_url (UseMessage.results s))
     | None => UseMessage.error s <> None
     end.

(* ================================================================== *)
(** * A concrete platform and concrete runs *)

Module Example.

(** [Math.sqrt], exact on the squares of rationals. *)
Definition sqrt_exact (q : number) : number := Z.sqrt (Qnum q) # Pos.sqrt (Qden q).

(** An embedding model with two directions: texts about cats, and the rest. *)
Definition model (text : string) : outcome (list number) :=
  if includes (toLowerCase text) "cat" then Returned [1; 0] else Returned [0; 1].

(** An id generator that never repeats itself. *)
Fixpoint ticks (n : nat) : string :=
  match n with
  | O => ""
  | S n' => String "i" (ticks n')
  end.

Definition uuid (n : nat) : string := ("uuid-" ++ ticks n)%string.

(** A clock that advances with every call. *)
Definition clock (n : nat) : number := inject_Z (1700000000000 + Z.of_nat n).

(** The answer of the language model, and what [JSON.parse] makes of it: one
    fact, rated 0, with one proposed connection. *)
Definition answer : string := "{ memories: [...] }".

Definition entry : ExtractedMemory.t :=
  {| ExtractedMemory.type := fact;
     ExtractedMemory.content := "The cat sleeps on the sofa";
     ExtractedMemory.confidence := Some 0;
     ExtractedMemory.connections :=
       Some [ProposedConnection.mk related_to "CAT" (8 # 10) None];
     ExtractedMemory.metadata := None |}.

Definition parse (response : string) : option (list ExtractedMemory.t) :=
  if String.eqb response answer then Some [entry] else None.

(** A browser where everything works. *)
Definition browser : Platform :=
  {| Math_sqrt := sqrt_exact;
     pipeline := Some model;
     randomUUID := uuid;
     Date_now := clock;
     openRouter := fun _ => Returned answer;
     JSON_parse := parse |}.

(** A browser that cannot load the embedding model. *)
Definition offline : Platform :=
  {| Math_sqrt := sqrt_exact;
     pipeline := None;
     randomUUID := uuid;
     Date_now := clock;
     openRouter := fun _ => Returned answer;
     JSON_parse := parse |}.

(** A first visit: nothing stored, nothing remembered. *)
Definition fresh : World := mkWorld [] Missing false false MemoryState.initial [] 0.

(** A fact of the collection, and its record in the vector store. *)
Definition memory (id content : string) (connections : list Connection.t) : Memory.t :=
  {| Memory.id := id;
     Memory.type := fact;
     Memory.content := content;
     Memory.source := None;
     Memory.timestamp := 1;
     Memory.confidence := 1;
     Memory.connections := connections;
     Memory.metadata := Metadata.empty |}.

Definition vector (id content : string) (embedding : list number) : StoredMemory.t :=
  VectorStore.toStored (memory id content []) embedding.

(** Three memories: [A] points at [B], [C] points at [A]; a fourth text is
    known to the vector store only. *)
Definition A : Memory.t :=
  memory "A" "the cat sleeps" [Connection.mk related_to "B" (9 # 10) None].
Definition B : Memory.t := memory "B" "the dog barks" [].
Definition C : Memory.t :=
  memory "C" "a cat purrs" [Connection.mk causes "A" (5 # 10) None].

Definition graph : World :=
  mkWorld
    [vector "A" "the cat sleeps" [1; 0]; vector "B" "the dog barks" [0; 1];
     vector "C" "a cat purrs" [1; 0]; vector "D" "cats hunt" [1; 0]]
    Missing false false
    (MemoryState.mk [A; B; C] false all "")
    [] 0.


(** A browser whose storage is full. *)
Definition quota : World :=
  mkWorld [vector "A" "the cat sleeps" [1; 0]]
          (Json [vector "A" "the cat sleeps" [1; 0]]) false true
          MemoryState.initial [] 0.

(** A memory handed to [addMemory] with the confidence 0. *)
Definition unrated : PartialMemory.t :=
  PartialMemory.mk (Some "A") fact "the cat sleeps" None None (Some 0) None None.

End Example.

(** ** Further platforms and worlds *)

Module Scenario.

Import Example.

(** What was said. *)
Definition heard : string := "The cat sat on the sofa".

(** A language model that cannot be reached. *)
Definition silent : Platform :=
  {| Math_sqrt := sqrt_exact;
     pipeline := Some model;
     randomUUID := uuid;
     Date_now := clock;
     openRouter := fun _ => Thrown (mkError "Failed to process memory extraction");
     JSON_parse := parse |}.

(** An entry of the answer without its list of connections. *)
Definition loose : ExtractedMemory.t :=
  {| ExtractedMemory.type := concept;
     ExtractedMemory.content := "Sofas are soft";
     ExtractedMemory.confidence := Some (9 # 10);
     ExtractedMemory.connections := None;
     ExtractedMemory.metadata := None |}.

(** A language model that forgets the connections of its second entry. *)
Definition careless : Platform :=
  {| Math_sqrt := sqrt_exact;
     pipeline := Some model;
     randomUUID := uuid;
     Date_now := clock;
     openRouter := fun _ => Returned answer;
     JSON_parse := fun _ => Some [entry; loose] |}.

(** An embedding model that fails on texts about dogs. *)
Definition picky (text : string) : outcome (list number) :=
  if includes (toLowerCase text) "dog" then Thrown (mkError "out of memory")
  else model text.

Definition about_dogs : ExtractedMemory.t :=
  {| ExtractedMemory.type := fact;
     ExtractedMemory.content := "The dog sleeps on the floor";
     ExtractedMemory.confidence := Some 1;
     ExtractedMemory.connections := Some [];
     ExtractedMemory.metadata := None |}.

(** A browser with that model, and an answer of three entries, the second
    one about dogs. *)
Definition halting : Platform :=
  {| Math_sqrt := sqrt_exact;
     pipeline := Some picky;
     randomUUID := uuid;
     Date_now := clock;
     openRouter := fun _ => Returned answer;
     JSON_parse := fun _ => Some [entry; about_dogs; entry] |}.

(** A vector store with a record of another embedding model, of three
    dimensions. *)
Definition mixed : World :=
  mkWorld
    [vector "A" "the cat sleeps" [1; 0]; vector "L" "an old note" [1; 0; 0]]
    Missing false false MemoryState.initial [] 0.

(** A memory that the vector store of [graph] does not have yet. *)
Definition kitten : Memory.t := memory "K" "the cat plays" [].

(** A stored item that is not JSON, in a storage that can be written. *)
Definition corrupted : World :=
  mkWorld [vector "A" "the cat sleeps" [1; 0]] Garbage false false
          MemoryState.initial [] 0.

(** [A] holds two edges to [B], of strengths 0.9 and then 0.2; [C] points at
    [A] with 0.5.  Neither [B] nor [C] is about cats. *)
Definition twice : Memory.t :=
  memory "A" "the cat sleeps"
    [Connection.mk related_to "B" (9 # 10) None; Connection.mk causes "B" (2 # 10) None].

Definition doubled : World :=
  mkWorld
    [vector "A" "the cat sleeps" [1; 0]; vector "B" "the dog barks" [0; 1];
     vector "C" "a dog runs" [0; 1]]
    Missing false false
    (MemoryState.mk
       [twice; memory "B" "the dog barks" [];
        memory "C" "a dog runs" [Connection.mk causes "A" (5 # 10) None]]
       false all "")
    [] 0.

(** Six records about cats: the search for [T] returns the first five, and
    [G], as similar as they are, is cut.  [T] points at [B] with 0.5 and at
    [G] with 0.2. *)
Definition tom : Memory.t :=
  memory "T" "the cat sleeps"
    [Connection.mk related_to "B" (5 # 10) None; Connection.mk related_to "G" (2 # 10) None].

Definition crowded : World :=
  mkWorld
    [vector "T" "the cat sleeps" [1; 0]; vector "V1" "a cat eats" [1; 0];
     vector "V2" "a cat drinks" [1; 0]; vector "V3" "a cat jumps" [1; 0];
     vector "V4" "a cat hides" [1; 0]; vector "G" "a cat purrs" [1; 0];
     vector "B" "the dog barks" [0; 1]]
    Missing false false
    (MemoryState.mk
       [tom; memory "B" "the dog barks" []; memory "G" "a cat purrs" []]
       false all "")
    [] 0.

(** Two records under the id [C], as a stored item written by hand can hold
    them; nothing points at [A] and [A] points at nothing. *)
Definition echoed : World :=
  mkWorld
    [vector "C" "a cat eats" [1; 0]; vector "D" "a cat drinks" [24; 7];
     vector "C" "a cat ate" [4; 3]]
    Missing false false
    (MemoryState.mk [memory "A" "the cat sleeps" []] false all "")
    [] 0.

End Scenario.

(** ** Sessions of the search service *)

Module Session.

Import Google.

Definition accepted : Response :=
  mkResponse true 200
    (Returned (Some (mkBody None None (Some "  Cats sleep most of the day.  ")))).

Definition overloaded : Response :=
  mkResponse false 503 (Thrown (mkError "SyntaxError")).

Definition terse : Response :=
  mkResponse true 200 (Returned (Some (mkBody None None (Some " Cats. ")))).

(** A network that fails twice and then answers. *)
Definition flaky : Web :=
  {| fetch := fun _ i =>
       match i with
       | 0%nat => Thrown (mkError "Failed to fetch")
       | 1%nat => Returned overloaded
       | _ => Returned accepted
       end;
     origin := "https://nexus.example" |}.

(** A network that never gives an acceptable answer. *)
Definition down : Web :=
  {| fetch := fun _ i =>
       match i with
       | 0%nat => Thrown (mkError "Failed to fetch")
       | 1%nat => Returned overloaded
       | _ => Returned terse
       end;
     origin := "https://nexus.example" |}.

Definition found : list SearchResult :=
  [mkSearchResult "Cats" "All about cats" "https://cats.example"].

(** A session that has not started. *)
Definition start : Net := mkNet 0 [] [].

End Session.

(* ================================================================== *)
(** * Properties *)

(** ** Numbers *)

Lemma geb_le (a b : number) : geb a b = true <-> b <= a.
Proof. unfold geb. apply Qle_bool_iff. Qed.

Lemma Qle_bool_false (a b : Q) : Qle_bool a b = false -> b < a.
Proof.
  intros H. apply Qnot_le_lt. intros Hle.
  apply Qle_bool_iff in Hle. congruence.
Qed.

Lemma or_default_eq (x : option number) (d : number) :
  or_default x d == match x with Some v => if Qeq_bool v 0 then d else v | None => d end.
Proof.
  destruct x as [v|]; simpl; [|reflexivity].
  unfold truthy. destruct (Qeq_bool v 0); reflexivity.
Qed.

(** [x || 0] is [x] for a number that is there. *)
Lemma or_default_zero (v : number) : or_default (Some v) 0 == v.
Proof.
  simpl. unfold truthy. destruct (Qeq_bool v 0) eqn:E; simpl; [|reflexivity].
  apply Qeq_bool_iff in E. symmetry. exact E.
Qed.

(** ** [Array.prototype.sort] with a comparator [key b - key a] *)

Section SortFacts.

Variable A : Type.
Variable key : A -> number.


(** [x] stays in front of [y] exactly when its key is not smaller. *)
Lemma descending_le (x y : A) :
  Qle_bool (descending key x y) 0 = true <-> key y <= key x.
Proof.
  unfold descending. rewrite Qle_bool_iff. split; intros H.
  - apply Qle_minus_iff in H.
    apply Qle_minus_iff. setoid_replace (key x + - key y) with (0 + - (key y - key x)) by ring.
    exact H.
  - apply Qle_minus_iff. apply Qle_minus_iff in H.
    setoid_replace (0 + - (key y - key x)) with (key x + - key y) by ring.
    exact H.
Qed.


Lemma insert_perm (cmp : A -> A -> number) (x : A) (l : list A) :
  Permutation (insert cmp x l) (x :: l).
Proof.
  induction l as [|y t IH]; simpl.
  - apply Permutation_refl.
  - destruct (Qle_bool (cmp x y) 0).
    + apply Permutation_refl.
    + apply perm_trans with (y :: x :: t).
      * apply perm_skip. exact IH.
      * apply perm_swap.
Qed.

Lemma sort_perm (cmp : A -> A -> number) (l : list A) :
  Permutation (sort cmp l) l.
Proof.
  induction l as [|x t IH]; simpl.
  - apply perm_nil.
  - apply perm_trans with (x :: sort cmp t).
    + apply insert_perm.
    + apply perm_skip. exact IH.
Qed.

Lemma sort_In (cmp : A -> A -> number) (l : list A) (x : A) :
  In x (sort cmp l) <-> In x l.
Proof.
  split; apply Permutation_in.
  - apply sort_perm.
  - apply Permutation_sym, sort_perm.
Qed.

Lemma sort_length (cmp : A -> A -> number) (l : list A) :
  length (sort cmp l) = length l.
Proof. apply Permutation_length, sort_perm. Qed.

Lemma insert_Descending (x : A) (l : list A) :
  Descending key l -> Descending key (insert (descending key) x l).
Proof.
  unfold Descending.
  induction l as [|y t IH]; simpl; intros Hs.
  - constructor; [constructor | constructor].
  - destruct (Qle_bool (descending key x y) 0) eqn:E.
    + apply descending_le in E.
      inversion Hs as [|? ? Ht Hy]; subst.
      constructor; [exact Hs|].
      constructor; [exact E|].
      rewrite Forall_forall in *. intros z Hz.
      apply Qle_trans with (key y); auto.
    + inversion Hs as [|? ? Ht Hy]; subst.
      constructor; [apply IH; exact Ht|].
      rewrite Forall_forall in *. intros z Hz.
      apply (Permutation_in _ (insert_perm (descending key) x t)) in Hz.
      destruct Hz as [<-|Hz]; [|auto].
      apply Qle_bool_false in E. unfold descending in E.
      apply Qlt_le_weak. apply Qlt_minus_iff in E. exact E.
Qed.

Lemma sort_Descending (l : list A) : Descending key (sort (descending key) l).
Proof.
  induction l as [|x t IH]; simpl.
  - constructor.
  - apply insert_Descending. exact IH.
Qed.

(** Stability: the elements of one key keep the order they had. *)
Lemma insert_stable (v : number) (x : A) (l : list A) :
  filter (has_key key v) (insert (descending key) x l) = filter (has_key key v) (x :: l).
Proof.
  induction l as [|y t IH]; simpl.
  - reflexivity.
  - destruct (Qle_bool (descending key x y) 0) eqn:E.
    + reflexivity.
    + simpl. rewrite IH. simpl.
      destruct (has_key key v x) eqn:Hx; [|reflexivity].
      destruct (has_key key v y) eqn:Hy; [|reflexivity].
      exfalso. unfold has_key in *.
      apply Qeq_bool_iff in Hx. apply Qeq_bool_iff in Hy.
      assert (Hle : key y <= key x) by (rewrite Hx, Hy; apply Qle_refl).
      apply descending_le in Hle. congruence.
Qed.

Lemma sort_stable (v : number) (l : list A) :
  filter (has_key key v) (sort (descending key) l) = filter (has_key key v) l.
Proof.
  induction l as [|x t IH]; simpl.
  - reflexivity.
  - rewrite insert_stable. simpl. rewrite IH. reflexivity.
Qed.

Lemma Descending_firstn (n : nat) (l : list A) :
  Descending key l -> Descending key (firstn n l).
Proof.
  unfold Descending. revert n.
  induction l as [|x t IH]; intros [|n] Hs; simpl; try constructor.
  - inversion Hs; subst. apply IH. assumption.
  - inversion Hs as [|? ? Ht Hx]; subst.
    rewrite Forall_forall in *. intros z Hz.
    apply Hx. revert Hz. clear. revert n.
    induction t as [|y t IH]; intros [|n]; simpl; try tauto.
    intros [->|Hz]; [now left | right; eauto].
Qed.

Lemma Descending_filter (p : A -> bool) (l : list A) :
  Descending key l -> Descending key (filter p l).
Proof.
  unfold Descending.
  induction l as [|x t IH]; simpl; intros Hs; [constructor|].
  inversion Hs as [|? ? Ht Hx]; subst.
  destruct (p x); [|auto].
  constructor; [auto|].
  rewrite Forall_forall in *. intros z Hz.
  apply filter_In in Hz. apply Hx, Hz.
Qed.

End SortFacts.

(** [slice(0, end)] keeps a prefix. *)
Lemma slice0_prefix {A} (l : list A) (end_ : Z) :
  exists rest, slice0 l end_ ++ rest = l.
Proof.
  unfold slice0. destruct (end_ <? 0)%Z.
  - eexists. apply firstn_skipn.
  - eexists. apply firstn_skipn.
Qed.

Lemma slice0_length {A} (l : list A) (end_ : Z) :
  (0 <= end_)%Z -> (Z.of_nat (length (slice0 l end_)) <= end_)%Z.
Proof.
  intros H. unfold slice0.
  destruct (end_ <? 0)%Z eqn:E; [apply Z.ltb_lt in E; lia|].
  rewrite length_firstn. lia.
Qed.

Lemma slice0_In {A} (l : list A) (end_ : Z) (x : A) :
  In x (slice0 l end_) -> In x l.
Proof.
  destruct (slice0_prefix l end_) as [rest E].
  intros H. rewrite <- E. apply in_or_app. now left.
Qed.

(** ** [cosineSimilarity] *)

Section CosineFacts.

Context `{Platform}.

(** The loop, started at index [length a1] of [a1 ++ a2] and [b1 ++ b2], adds
    the products of the remaining components to its three accumulators. *)
Lemma cosine_loop_sums (a2 b2 a1 b1 : list number) (acc : Embeddings.Accum) :
  length a1 = length b1 ->
  length a2 = length b2 ->
  Embeddings.cosine_loop (a1 ++ a2) (b1 ++ b2) (length a1) (length a2) acc =
  {| Embeddings.dotProduct := fold_left Qplus (products a2 b2) (Embeddings.dotProduct acc);
     Embeddings.normA := fold_left Qplus (products a2 a2) (Embeddings.normA acc);
     Embeddings.normB := fold_left Qplus (products b2 b2) (Embeddings.normB acc) |}.
Proof.
  revert b2 a1 b1 acc.
  induction a2 as [|x a2 IH]; intros [|y b2] a1 b1 acc H1 H2; simpl in H2; try discriminate.
  - destruct acc; reflexivity.
  - injection H2 as H2.
    cbn [length Embeddings.cosine_loop].
    replace (nth (length a1) (a1 ++ x :: a2) 0) with x
      by (rewrite app_nth2, Nat.sub_diag by lia; reflexivity).
    replace (nth (length a1) (b1 ++ y :: b2) 0) with y
      by (rewrite H1, app_nth2, Nat.sub_diag by lia; reflexivity).
    replace (a1 ++ x :: a2) with ((a1 ++ [x]) ++ a2) by (rewrite <- app_assoc; reflexivity).
    replace (b1 ++ y :: b2) with ((b1 ++ [y]) ++ b2) by (rewrite <- app_assoc; reflexivity).
    replace (S (length a1)) with (length (a1 ++ [x])) by (rewrite length_app; simpl; lia).
    rewrite IH; [reflexivity | rewrite !length_app; simpl; lia | exact H2].
Qed.

Lemma cosine_loop_dot (a b : list number) :
  length a = length b ->
  Embeddings.cosine_loop a b 0 (length a) (Embeddings.mkAccum 0 0 0) =
  Embeddings.mkAccum (Embeddings.dot a b) (Embeddings.dot a a) (Embeddings.dot b b).
Proof.
  intros E. apply (cosine_loop_sums a b [] [] (Embeddings.mkAccum 0 0 0)); auto.
Qed.

Lemma cosineSimilarity_mismatch (a b : list number) :
  length a <> length b ->
  Embeddings.cosineSimilarity a b = Thrown (mkError "Vectors must have the same length").
Proof.
  intros Hne. unfold Embeddings.cosineSimilarity.
  apply Nat.eqb_neq in Hne. rewrite Hne. reflexivity.
Qed.

Lemma cosineSimilarity_equal_length (a b : list number) :
  length a = length b ->
  Embeddings.cosineSimilarity a b =
  if Qeq_bool (Embeddings.magnitude a) 0 || Qeq_bool (Embeddings.magnitude b) 0
  then Returned 0
  else Returned (Embeddings.dot a b / (Embeddings.magnitude a * Embeddings.magnitude b)).
Proof.
  intros E. unfold Embeddings.cosineSimilarity.
  rewrite (proj2 (Nat.eqb_eq _ _) E). cbn [negb].
  rewrite cosine_loop_dot by exact E. reflexivity.
Qed.

(** C5.  [cosineSimilarity] throws on vectors of different lengths and returns
    no score; on vectors of one length it returns 0 when either magnitude is
    zero, and the dot product divided by the product of the magnitudes
    otherwise. *)
Theorem cosineSimilarity_spec (a b : list number) :
  (length a <> length b ->
     Embeddings.cosineSimilarity a b = Thrown (mkError "Vectors must have the same length"))
  /\ (length a = length b ->
        (Embeddings.magnitude a == 0 \/ Embeddings.magnitude b == 0 ->
           Embeddings.cosineSimilarity a b = Returned 0)
        /\ (~ Embeddings.magnitude a == 0 -> ~ Embeddings.magnitude b == 0 ->
              Embeddings.cosineSimilarity a b =
              Returned (Embeddings.dot a b / (Embeddings.magnitude a * Embeddings.magnitude b)))).
Proof.
  split; [apply cosineSimilarity_mismatch|].
  intros E. rewrite (cosineSimilarity_equal_length a b E). split.
  - intros [Z|Z]; apply Qeq_bool_iff in Z; rewrite Z; [reflexivity|].
    rewrite orb_true_r. reflexivity.
  - intros Za Zb.
    destruct (Qeq_bool (Embeddings.magnitude a) 0) eqn:Ea;
      [apply Qeq_bool_iff in Ea; contradiction|].
    destruct (Qeq_bool (Embeddings.magnitude b) 0) eqn:Eb;
      [apply Qeq_bool_iff in Eb; contradiction|].
    reflexivity.
Qed.

End CosineFacts.

(** ** The vector store *)

Section VectorStoreFacts.

Context `{Platform}.

Lemma throws_not_returns {A} (m : M A) (w : World) : throws m w -> ~ returns m w.
Proof. intros (e & w1 & E) (a & w2 & E'). congruence. Qed.

(** [generateEmbedding] only prints: it returns the model's vector in the
    world it was called in, or throws its own error after printing. *)
Lemma generateEmbedding_cases (text : string) (w : World) :
  (exists v, Embeddings.generateEmbedding text w = (Returned v, w))
  \/ (exists c,
        Embeddings.generateEmbedding text w =
        (Thrown (mkError "Failed to generate text embedding. Please try again."),
         with_console w (c ++ console w))).
Proof.
  unfold Embeddings.generateEmbedding, Embeddings.getEmbeddingModel, try_catch, bind.
  destruct pipeline as [model|]; cbn.
  - unfold lift. destruct (model text) as [v|e]; cbn.
    + left. eexists. reflexivity.
    + right. exists ["Failed to generate embedding:"]. reflexivity.
  - right. exists ["Failed to generate embedding:"; "Failed to load embedding model:"].
    reflexivity.
Qed.

(** Whether it throws does not depend on the world. *)
Lemma generateEmbedding_throws (text : string) (w w' : World) :
  throws (Embeddings.generateEmbedding text) w ->
  throws (Embeddings.generateEmbedding text) w'.
Proof.
  unfold throws, Embeddings.generateEmbedding, Embeddings.getEmbeddingModel, try_catch, bind.
  destruct pipeline as [model|]; cbn.
  - unfold lift. destruct (model text) as [v|e]; cbn.
    + intros (e & w1 & E). discriminate.
    + intros _. do 2 eexists. reflexivity.
  - intros _. do 2 eexists. reflexivity.
Qed.

Lemma generateEmbedding_thrown (text : string) (w w1 : World) (e : Error) :
  Embeddings.generateEmbedding text w = (Thrown e, w1) ->
  vectors w1 = vectors w /\ item w1 = item w /\ store w1 = store w
  /\ denied w1 = denied w /\ full w1 = full w /\ calls w1 = calls w.
Proof.
  intros E. destruct (generateEmbedding_cases text w) as [(v & E')|(c & E')];
    rewrite E' in E; inversion E; subst; cbn; auto 10.
Qed.

Lemma generateEmbedding_returned (text : string) (w w1 : World) (v : list number) :
  Embeddings.generateEmbedding text w = (Returned v, w1) -> w1 = w.
Proof.
  intros E. destruct (generateEmbedding_cases text w) as [(v' & E')|(c & E')];
    rewrite E' in E; inversion E; subst; reflexivity.
Qed.

(** [saveToStorage] never throws: a failed write is printed. *)
Lemma saveToStorage_eq (w : World) :
  VectorStore.saveToStorage w =
  if full w
  then (Returned tt,
        with_console w ("Failed to save vector store to storage:" :: console w))
  else (Returned tt, with_item w (Json (vectors w))).
Proof.
  unfold VectorStore.saveToStorage, try_catch, bind, get, LocalStorage.setItem.
  destruct (full w); reflexivity.
Qed.

Lemma addMemory_embedded (memory : Memory.t) (w : World) (v : list number) :
  Embeddings.generateEmbedding (Memory.content memory) w = (Returned v, w) ->
  VectorStore.addMemory memory w =
  VectorStore.saveToStorage
    (with_vectors w (upserted (vectors w) (VectorStore.toStored memory v))).
Proof.
  intros E.
  unfold VectorStore.addMemory, try_catch, bind. rewrite E. cbn.
  unfold upserted. cbn.
  destruct (findIndex _ (vectors w)); cbn;
    rewrite saveToStorage_eq; cbn; destruct (full w); reflexivity.
Qed.

Lemma addMemory_thrown (memory : Memory.t) (w w1 : World) (e : Error) :
  Embeddings.generateEmbedding (Memory.content memory) w = (Thrown e, w1) ->
  VectorStore.addMemory memory w =
  (Thrown e,
   with_console w1 ("Failed to add memory to vector store:" :: console w1)).
Proof.
  intros E. unfold VectorStore.addMemory, try_catch, bind. rewrite E. reflexivity.
Qed.

(** Scoring keeps the records in the order of the array; each one carries the
    cosine similarity of its embedding to the query. *)
Lemma map_outcome_score (q : list number) (vs : list StoredMemory.t) (sims : list Scored.t) :
  map_outcome (VectorStore.score q) vs = Returned sims ->
  map Scored.storedMemory sims = vs
  /\ Forall (fun s =>
               Embeddings.cosineSimilarity q (StoredMemory.embedding (Scored.storedMemory s))
               = Returned (Scored.similarity s)) sims.
Proof.
  revert sims. induction vs as [|x t IH]; intros sims E; simpl in E.
  - inversion E. split; [reflexivity | constructor].
  - unfold VectorStore.score at 1 in E.
    destruct (Embeddings.cosineSimilarity q (StoredMemory.embedding x)) as [s|e] eqn:Es;
      [|discriminate].
    destruct (map_outcome (VectorStore.score q) t) as [ys|e] eqn:Et; [|discriminate].
    inversion E; subst. destruct (IH ys eq_refl) as [IH1 IH2].
    split; [simpl; now rewrite IH1 | constructor; [exact Es | exact IH2]].
Qed.

(** What [findSimilarMemories] does: either the query is embedded and every
    stored vector scored, and the selection is returned in the same world; or
    something was thrown on the way, and the empty array is returned. *)
Lemma findSimilarMemories_cases (content : string) (limit : Z) (minSimilarity : number)
  (w : World) :
  (exists q sims,
      Embeddings.generateEmbedding content w = (Returned q, w)
      /\ map_outcome (VectorStore.score q) (vectors w) = Returned sims
      /\ VectorStore.findSimilarMemories content limit minSimilarity w =
         (Returned (VectorStore.select sims limit minSimilarity), w))
  \/ (exists c,
        VectorStore.findSimilarMemories content limit minSimilarity w =
        (Returned [], with_console w (c ++ console w))).
Proof.
  unfold VectorStore.findSimilarMemories, try_catch, bind.
  destruct (generateEmbedding_cases content w) as [(q & E)|(c & E)]; rewrite E; cbn.
  - unfold lift.
    destruct (map_outcome (VectorStore.score q) (vectors w)) as [sims|e] eqn:Es; cbn.
    + left. exists q, sims. auto.
    + right. exists ["Failed to find similar memories:"]. reflexivity.
  - right. exists ("Failed to find similar memories:" :: c). reflexivity.
Qed.

Lemma filter_map_swap {A B} (f : A -> B) (p : B -> bool) (l : list A) :
  filter p (map f l) = map f (filter (fun x => p (f x)) l).
Proof.
  induction l as [|x t IH]; simpl; [reflexivity|].
  destruct (p (f x)); simpl; now rewrite IH.
Qed.

Lemma select_threshold (sims : list Scored.t) (limit : Z) (minSimilarity : number) :
  Forall (fun m => minSimilarity <= Match.similarity m)
         (VectorStore.select sims limit minSimilarity).
Proof.
  apply Forall_forall. intros m Hm. unfold VectorStore.select in Hm.
  apply in_map_iff in Hm. destruct Hm as (s & <- & Hs).
  apply slice0_In in Hs. apply sort_In in Hs. apply filter_In in Hs.
  destruct Hs as [_ Hs]. apply geb_le in Hs. exact Hs.
Qed.

Lemma Descending_map {A B} (f : A -> B) (key : B -> number) (l : list A) :
  Descending (fun x => key (f x)) l -> Descending key (map f l).
Proof.
  unfold Descending. induction 1 as [|x t Ht IH Hx]; simpl; constructor; auto.
  rewrite Forall_forall in *. intros y Hy. apply in_map_iff in Hy.
  destruct Hy as (z & <- & Hz). auto.
Qed.

Lemma slice0_Descending {A} (key : A -> number) (l : list A) (end_ : Z) :
  Descending key l -> Descending key (slice0 l end_).
Proof.
  intros Hs. unfold slice0. destruct (end_ <? 0)%Z; apply Descending_firstn; exact Hs.
Qed.

Lemma select_Descending (sims : list Scored.t) (limit : Z) (minSimilarity : number) :
  Descending Match.similarity (VectorStore.select sims limit minSimilarity).
Proof.
  unfold VectorStore.select. apply Descending_map. cbn.
  apply slice0_Descending.
  exact (@sort_Descending _ Scored.similarity _).
Qed.

Lemma select_length (sims : list Scored.t) (limit : Z) (minSimilarity : number) :
  (0 <= limit)%Z ->
  (Z.of_nat (length (VectorStore.select sims limit minSimilarity)) <= limit)%Z.
Proof.
  intros Hl. unfold VectorStore.select. rewrite length_map.
  apply slice0_length. exact Hl.
Qed.

Lemma select_connections (sims : list Scored.t) (limit : Z) (minSimilarity : number) :
  Forall (fun m => Memory.connections (Match.memory m) = [])
         (VectorStore.select sims limit minSimilarity).
Proof.
  apply Forall_forall. intros m Hm. unfold VectorStore.select in Hm.
  apply in_map_iff in Hm. destruct Hm as (s & <- & _). reflexivity.
Qed.

(** The matches of one similarity are the first of the stored records of
    that similarity, in the order of the array. *)
Lemma select_stable (sims : list Scored.t) (limit : Z) (minSimilarity v : number) :
  exists rest,
    filter (has_key Match.similarity v) (VectorStore.select sims limit minSimilarity) ++ rest
    = map VectorStore.toMatch
          (filter (has_key Scored.similarity v) (qualifying sims minSimilarity)).
Proof.
  unfold VectorStore.select.
  set (sorted := sort VectorStore.bySimilarity _).
  destruct (slice0_prefix sorted limit) as [rest E].
  exists (map VectorStore.toMatch (filter (has_key Scored.similarity v) rest)).
  rewrite filter_map_swap.
  change (fun x => has_key Match.similarity v (VectorStore.toMatch x))
    with (has_key Scored.similarity v).
  rewrite <- map_app, <- filter_app, E.
  unfold sorted. f_equal.
  exact (@sort_stable _ Scored.similarity v _).
Qed.

Lemma StronglySorted_app_inv {A} (R : A -> A -> Prop) (l1 l2 : list A) :
  StronglySorted R (l1 ++ l2) -> forall x y, In x l1 -> In y l2 -> R x y.
Proof.
  induction l1 as [|a l1 IH]; simpl; intros Hs x y Hx Hy; [contradiction|].
  inversion Hs as [|? ? Ht Ha]; subst.
  destruct Hx as [<-|Hx].
  - rewrite Forall_forall in Ha. apply Ha. apply in_or_app. now right.
  - eapply IH; eauto.
Qed.

Lemma generateEmbedding_embed (text : string) (v : list number) (w : World) :
  embed text = Some v -> Embeddings.generateEmbedding text w = (Returned v, w).
Proof.
  unfold embed, Embeddings.generateEmbedding, Embeddings.getEmbeddingModel, try_catch, bind.
  destruct pipeline as [model|]; [|discriminate]. cbn. unfold lift.
  destruct (model text); [|discriminate]. intros [= ->]. reflexivity.
Qed.

Lemma embed_None_throws (text : string) (w : World) :
  embed text = None -> throws (Embeddings.generateEmbedding text) w.
Proof.
  unfold embed, throws, Embeddings.generateEmbedding, Embeddings.getEmbeddingModel,
    try_catch, bind.
  destruct pipeline as [model|]; cbn.
  - unfold lift. destruct (model text); [discriminate|]. intros _. do 2 eexists. reflexivity.
  - intros _. do 2 eexists. reflexivity.
Qed.

(** A search whose query embeds and whose scoring returns. *)
Lemma findSimilarMemories_scored (content : string) (limit : Z) (minSimilarity : number)
  (w : World) (q : list number) (sims : list Scored.t) :
  embed content = Some q ->
  map_outcome (VectorStore.score q) (vectors w) = Returned sims ->
  VectorStore.findSimilarMemories content limit minSimilarity w
  = (Returned (VectorStore.select sims limit minSimilarity), w).
Proof.
  intros Eq Es. unfold VectorStore.findSimilarMemories, try_catch, bind.
  rewrite (@generateEmbedding_embed content q w Eq). cbn. unfold lift. rewrite Es.
  reflexivity.
Qed.

(** A search whose query embeds and whose scoring throws. *)
Lemma findSimilarMemories_unscored (content : string) (limit : Z) (minSimilarity : number)
  (w : World) (q : list number) (e : Error) :
  embed content = Some q ->
  map_outcome (VectorStore.score q) (vectors w) = Thrown e ->
  VectorStore.findSimilarMemories content limit minSimilarity w
  = (Returned [], with_console w ("Failed to find similar memories:" :: console w)).
Proof.
  intros Eq Es. unfold VectorStore.findSimilarMemories, try_catch, bind.
  rewrite (@generateEmbedding_embed content q w Eq). cbn. unfold lift. rewrite Es.
  reflexivity.
Qed.

Lemma map_outcome_thrown {A B} (f : A -> outcome B) (l : list A) (x : A) :
  In x l -> (exists e, f x = Thrown e) -> exists e, map_outcome f l = Thrown e.
Proof.
  induction l as [|y t IH]; simpl; intros Hin Hx; [contradiction|].
  destruct (f y) as [b|e] eqn:Ey; [|eauto].
  destruct Hin as [->|Hin].
  - destruct Hx as (e & Ex). congruence.
  - destruct (IH Hin Hx) as (e & ->). eauto.
Qed.

Lemma map_outcome_returned {A B} (f : A -> outcome B) (l : list A) :
  (forall x, In x l -> exists y, f x = Returned y) ->
  exists ys, map_outcome f l = Returned ys
             /\ length ys = length l
             /\ forall x y, In x l -> f x = Returned y -> In y ys.
Proof.
  induction l as [|a t IH]; simpl; intros Hall.
  - exists []. repeat split. intros x y [].
  - destruct (Hall a (or_introl eq_refl)) as (b & Eb). rewrite Eb.
    destruct IH as (ys & -> & Hlen & Hin); [intros x Hx; apply Hall; now right|].
    exists (b :: ys). split; [reflexivity|]. split; [simpl; now rewrite Hlen|].
    intros x y [<-|Hx] Ey; [left; congruence | right; eauto].
Qed.

Lemma score_mismatch (q : list number) (s : StoredMemory.t) :
  length (StoredMemory.embedding s) <> length q ->
  exists e, VectorStore.score q s = Thrown e.
Proof.
  intros Hne. unfold VectorStore.score.
  rewrite cosineSimilarity_mismatch by congruence. eauto.
Qed.

Lemma score_same_length (q : list number) (s : StoredMemory.t) :
  length (StoredMemory.embedding s) = length q ->
  exists sim, Embeddings.cosineSimilarity q (StoredMemory.embedding s) = Returned sim
              /\ VectorStore.score q s = Returned (Scored.mk s sim).
Proof.
  intros E. unfold VectorStore.score.
  rewrite (@cosineSimilarity_equal_length _ q (StoredMemory.embedding s)) by congruence.
  destruct (_ || _); eauto.
Qed.

(** [slice(0, limit)] keeps [kept] entries. *)
Lemma slice0_kept {A} (l : list A) (end_ : Z) :
  length (slice0 l end_) = kept (length l) end_.
Proof.
  unfold slice0, kept. destruct (end_ <? 0)%Z eqn:E; rewrite length_firstn.
  - apply Z.ltb_lt in E. lia.
  - reflexivity.
Qed.

(** The selection, for any limit: it holds [kept] of the qualifying records,
    and what it leaves out of them is no more similar than what it holds. *)
Lemma select_cut (sims : list Scored.t) (limit : Z) (minSimilarity : number) :
  length (VectorStore.select sims limit minSimilarity)
  = kept (length (qualifying sims minSimilarity)) limit
  /\ exists rest,
       Permutation (VectorStore.select sims limit minSimilarity ++ map VectorStore.toMatch rest)
                   (map VectorStore.toMatch (qualifying sims minSimilarity))
       /\ (forall r m, In r rest -> In m (VectorStore.select sims limit minSimilarity) ->
                       Scored.similarity r <= Match.similarity m).
Proof.
  unfold VectorStore.select. fold (qualifying sims minSimilarity).
  set (sorted := sort VectorStore.bySimilarity (qualifying sims minSimilarity)).
  split.
  - rewrite length_map, slice0_kept. unfold sorted. now rewrite sort_length.
  - destruct (slice0_prefix sorted limit) as [rest E]. exists rest. split.
    + rewrite <- map_app, E. apply Permutation_map. apply sort_perm.
    + intros r m Hr Hm. apply in_map_iff in Hm. destruct Hm as (x & <- & Hx). cbn.
      assert (Hd : Descending Scored.similarity sorted)
        by exact (@sort_Descending _ Scored.similarity _).
      rewrite <- E in Hd.
      exact (@StronglySorted_app_inv _ _ _ _ Hd x r Hx Hr).
Qed.

(** A search whose query embeds, over stored vectors of the length of the
    query's: every record is scored by its cosine similarity with the query,
    and the selection of the scores is returned. *)
Lemma findSimilarMemories_selected (content : string) (limit : Z) (minSimilarity : number)
  (w : World) (q : list number) :
  embed content = Some q ->
  (forall s, In s (vectors w) -> length (StoredMemory.embedding s) = length q) ->
  exists sims,
    map Scored.storedMemory sims = vectors w
    /\ Forall (fun s =>
                 Embeddings.cosineSimilarity q (StoredMemory.embedding (Scored.storedMemory s))
                 = Returned (Scored.similarity s)) sims
    /\ VectorStore.findSimilarMemories content limit minSimilarity w
       = (Returned (VectorStore.select sims limit minSimilarity), w).
Proof.
  intros Eq Hlen.
  destruct (map_outcome_returned (VectorStore.score q) (vectors w)) as (sims & Es & _).
  { intros s Hs. destruct (score_same_length q s (Hlen s Hs)) as (sim & _ & E). eauto. }
  destruct (map_outcome_score _ _ Es) as [E1 E2].
  exists sims. split; [exact E1|]. split; [exact E2|].
  exact (@findSimilarMemories_scored content limit minSimilarity w q sims Eq Es).
Qed.

(** A search whose query does not embed, or meets a stored vector of
    another length, returns the empty array. *)
Lemma findSimilarMemories_unselected (content : string) (limit : Z) (minSimilarity : number)
  (w : World) :
  (embed content = None
   \/ exists q s, embed content = Some q /\ In s (vectors w)
                  /\ length (StoredMemory.embedding s) <> length q) ->
  fst (VectorStore.findSimilarMemories content limit minSimilarity w) = Returned [].
Proof.
  intros [En|(q & s & Eq & Hs & Hne)].
  - destruct (@embed_None_throws content w En) as (e & w1 & E).
    unfold VectorStore.findSimilarMemories, try_catch, bind. rewrite E. reflexivity.
  - destruct (map_outcome_thrown (VectorStore.score q) (vectors w) s Hs (score_mismatch q s Hne))
      as (e & Ee).
    rewrite (@findSimilarMemories_unscored content limit minSimilarity w q e Eq Ee).
    reflexivity.
Qed.

Lemma findSimilarMemories_returns (content : string) (limit : Z)
  (minSimilarity : number) (w : World) :
  exists result w',
    VectorStore.findSimilarMemories content limit minSimilarity w = (Returned result, w').
Proof.
  destruct (findSimilarMemories_cases content limit minSimilarity w)
    as [(q & sims & _ & _ & E)|(c & E)]; eauto.
Qed.

(** Whatever it returns reaches the floor and comes in descending order. *)
Lemma findSimilarMemories_matches (content : string) (limit : Z) (minSimilarity : number)
  (w w' : World) (similar : list Match.t) :
  VectorStore.findSimilarMemories content limit minSimilarity w = (Returned similar, w') ->
  Forall (fun m => minSimilarity <= Match.similarity m) similar
  /\ Descending Match.similarity similar.
Proof.
  intros E.
  destruct (findSimilarMemories_cases content limit minSimilarity w)
    as [(q & sims & _ & _ & E')|(c & E')]; rewrite E' in E; inversion E; subst.
  - split; [apply select_threshold | apply select_Descending].
  - split; constructor.
Qed.

(** C6, as the code has it.  [findSimilarMemories] always returns.  Its
    matches reach [minSimilarity], come in descending similarity and carry
    no connections, and for a [limit] that is not negative they are at most
    [limit].  When the query embeds and the stored vectors have the length of
    the query's, every stored record is scored by its cosine similarity with
    the query; the matches are [kept] of the records that reach the floor,
    where a negative [limit] does not bound the result but drops that many
    of them from the end; the matches of one similarity are the first stored
    records of that similarity in insertion order; and what is left out is
    no more similar than what is returned.  When the query does not embed,
    or a stored vector has another length, the result is empty. *)
Theorem findSimilarMemories_spec (content : string) (limit : Z) (minSimilarity : number)
  (w : World) :
  exists result w',
    VectorStore.findSimilarMemories content limit minSimilarity w = (Returned result, w')
    /\ Forall (fun m => minSimilarity <= Match.similarity m) result
    /\ Descending Match.similarity result
    /\ Forall (fun m => Memory.connections (Match.memory m) = []) result
    /\ ((0 <= limit)%Z -> (Z.of_nat (length result) <= limit)%Z)
    /\ (forall q,
          embed content = Some q ->
          (forall s, In s (vectors w) -> length (StoredMemory.embedding s) = length q) ->
          exists sims,
            map Scored.storedMemory sims = vectors w
            /\ Forall (fun s =>
                         Embeddings.cosineSimilarity q
                           (StoredMemory.embedding (Scored.storedMemory s))
                         = Returned (Scored.similarity s)) sims
            /\ length result = kept (length (qualifying sims minSimilarity)) limit
            /\ (forall v, exists rest,
                  filter (has_key Match.similarity v) result ++ rest
                  = map VectorStore.toMatch
                      (filter (has_key Scored.similarity v) (qualifying sims minSimilarity)))
            /\ (exists rest,
                  Permutation (result ++ map VectorStore.toMatch rest)
                              (map VectorStore.toMatch (qualifying sims minSimilarity))
                  /\ (forall r m, In r rest -> In m result ->
                                  Scored.similarity r <= Match.similarity m)))
    /\ ((embed content = None
         \/ exists q s, embed content = Some q /\ In s (vectors w)
                        /\ length (StoredMemory.embedding s) <> length q) ->
        result = []).
Proof.
  destruct (findSimilarMemories_returns content limit minSimilarity w)
    as (result & w' & E).
  exists result, w'. split; [exact E|].
  destruct (findSimilarMemories_matches _ _ _ _ E) as [Hfloor Hdesc].
  split; [exact Hfloor|]. split; [exact Hdesc|]. split; [|split; [|split]].
  - destruct (findSimilarMemories_cases content limit minSimilarity w)
      as [(q & sims & _ & _ & E')|(c & E')]; rewrite E' in E; inversion E; subst.
    + apply select_connections.
    + constructor.
  - intros Hlimit.
    destruct (findSimilarMemories_cases content limit minSimilarity w)
      as [(q & sims & _ & _ & E')|(c & E')]; rewrite E' in E; inversion E; subst.
    + apply select_length. exact Hlimit.
    + cbn. exact Hlimit.
  - intros q Eq Hlen.
    destruct (findSimilarMemories_selected content limit minSimilarity w Eq Hlen)
      as (sims & E1 & E2 & E3).
    rewrite E3 in E. inversion E; subst.
    exists sims. split; [exact E1|]. split; [exact E2|].
    destruct (select_cut sims limit minSimilarity) as [Hkept Hcut].
    split; [exact Hkept|]. split; [|exact Hcut].
    intros v. apply select_stable.
  - intros Hfail.
    pose proof (findSimilarMemories_unselected content limit minSimilarity w Hfail) as Hr.
    rewrite E in Hr. cbn in Hr. congruence.
Qed.

(** C2, as the code has it.  When the query text cannot be embedded,
    [findSimilarMemories] prints the error and returns the empty array; the
    store, the stored item and the zustand state are as before. *)
Theorem findSimilarMemories_embedding_failure (content : string) (limit : Z)
  (minSimilarity : number) (w : World) :
  throws (Embeddings.generateEmbedding content) w ->
  exists w',
    VectorStore.findSimilarMemories content limit minSimilarity w = (Returned [], w')
    /\ hd_error (console w') = Some "Failed to find similar memories:"
    /\ vectors w' = vectors w /\ item w' = item w /\ store w' = store w.
Proof.
  intros (e & w1 & E).
  destruct (generateEmbedding_thrown _ _ E) as (Hv & Hi & Hs & _).
  unfold VectorStore.findSimilarMemories, try_catch, bind. rewrite E. cbn.
  eexists. split; [reflexivity|]. cbn. auto.
Qed.

(** C8, as the code has it.  A failed write is caught inside [saveToStorage]
    and printed: [addMemory] (once the content is embedded), [deleteMemory]
    and [clear] return normally, the array holds the mutation and the stored
    item is the old one.  A failed read, whether or not the storage can be
    written, is caught too and leaves the new store empty. *)
Theorem write_failure_is_printed (w : World) :
  (full w = true ->
   (forall memory v,
       Embeddings.generateEmbedding (Memory.content memory) w = (Returned v, w) ->
       exists w',
         VectorStore.addMemory memory w = (Returned tt, w')
         /\ vectors w' = upserted (vectors w) (VectorStore.toStored memory v)
         /\ item w' = item w
         /\ hd_error (console w') = Some "Failed to save vector store to storage:")
   /\ (forall id,
         exists w',
           VectorStore.deleteMemory id w = (Returned tt, w')
           /\ vectors w'
              = filter (fun m => negb (String.eqb (StoredMemory.id m) id)) (vectors w)
           /\ item w' = item w
           /\ hd_error (console w') = Some "Failed to save vector store to storage:")
   /\ (exists w',
         VectorStore.clear w = (Returned tt, w')
         /\ vectors w' = []
         /\ item w' = item w
         /\ hd_error (console w') = Some "Failed to save vector store to storage:"))
  /\ (unreadable w ->
      exists w',
        VectorStore.constructor w = (Returned tt, w')
        /\ vectors w' = []
        /\ item w' = item w
        /\ hd_error (console w') = Some "Failed to load vector store from storage:").
Proof.
  split.
  - intros Hfull. split; [|split].
    + intros memory v E. rewrite (addMemory_embedded _ E), saveToStorage_eq. cbn.
      rewrite Hfull. eexists. split; [reflexivity|]. cbn. auto.
    + intros id. unfold VectorStore.deleteMemory, bind, modify.
      rewrite saveToStorage_eq. cbn. rewrite Hfull.
      eexists. split; [reflexivity|]. cbn. auto.
    + unfold VectorStore.clear, bind, modify.
      rewrite saveToStorage_eq. cbn. rewrite Hfull.
      eexists. split; [reflexivity|]. cbn. auto.
  - intros Hr.
    unfold VectorStore.constructor, VectorStore.loadFromStorage, bind, modify, try_catch,
      LocalStorage.getItem. cbn.
    destruct (denied w) eqn:Ed; cbn.
    + eexists. split; [reflexivity|]. cbn. auto.
    + destruct Hr as [Hr|Hr]; [congruence|]. rewrite Hr. cbn.
      eexists. split; [reflexivity|]. cbn. auto.
Qed.

(** A successful write, for comparison: the stored item is the new array. *)
Lemma clear_written (w : World) :
  full w = false ->
  VectorStore.clear w = (Returned tt, with_item (with_vectors w []) (Json [])).
Proof.
  intros Hfull. unfold VectorStore.clear, bind, modify.
  rewrite saveToStorage_eq. cbn. rewrite Hfull. reflexivity.
Qed.

End VectorStoreFacts.

(** ** The memory store: connections *)

Section ConnectionFacts.

Lemma connect_id sourceId targetId type strength description memory :
  Memory.id (MemoryStore.connect sourceId targetId type strength description memory)
  = Memory.id memory.
Proof.
  unfold MemoryStore.connect. destruct (String.eqb (Memory.id memory) sourceId); reflexivity.
Qed.

Lemma connect_source sourceId targetId type strength description memory :
  Memory.id memory = sourceId ->
  Memory.connections (MemoryStore.connect sourceId targetId type strength description memory)
  = upsert (Memory.connections memory) (Connection.mk type targetId strength description).
Proof.
  intros E. unfold MemoryStore.connect. rewrite (proj2 (String.eqb_eq _ _) E).
  unfold upsert. cbn. destruct (findIndex _ _); reflexivity.
Qed.

Lemma connect_other sourceId targetId type strength description memory :
  Memory.id memory <> sourceId ->
  MemoryStore.connect sourceId targetId type strength description memory = memory.
Proof.
  intros E. unfold MemoryStore.connect. rewrite (proj2 (String.eqb_neq _ _) E). reflexivity.
Qed.

(** [upsert] walks the list to the first edge with the target of [new]. *)
Lemma upsert_cons (c : Connection.t) (cs : list Connection.t) (new : Connection.t) :
  upsert (c :: cs) new =
  if String.eqb (Connection.targetId c) (Connection.targetId new)
  then new :: cs
  else c :: upsert cs new.
Proof.
  unfold upsert. cbn [findIndex].
  destruct (String.eqb (Connection.targetId c) (Connection.targetId new)).
  - reflexivity.
  - destruct (findIndex _ cs) as [i|].
    + unfold slice, slice_from. cbn. rewrite Nat.sub_0_r. reflexivity.
    + reflexivity.
Qed.

Lemma edges_to_absent (target : string) (conns : list Connection.t) :
  ~ In target (targets conns) -> edges_to target conns = [].
Proof.
  induction conns as [|c cs IH]; simpl; intros Hn; [reflexivity|].
  destruct (String.eqb (Connection.targetId c) target) eqn:E.
  - apply String.eqb_eq in E. tauto.
  - apply IH. tauto.
Qed.

Lemma upsert_edges_to (conns : list Connection.t) (new : Connection.t) :
  NoDup (targets conns) ->
  edges_to (Connection.targetId new) (upsert conns new) = [new].
Proof.
  induction conns as [|c cs IH]; intros Hnd.
  - cbn. rewrite String.eqb_refl. reflexivity.
  - rewrite upsert_cons. inversion Hnd as [|? ? Hc Hcs]; subst.
    destruct (String.eqb (Connection.targetId c) (Connection.targetId new)) eqn:E.
    + cbn. rewrite String.eqb_refl. f_equal.
      apply edges_to_absent. apply String.eqb_eq in E. now rewrite <- E.
    + cbn. rewrite E. apply IH. exact Hcs.
Qed.

Lemma upsert_targets_In (conns : list Connection.t) (new : Connection.t) (x : string) :
  In x (targets (upsert conns new)) -> In x (targets conns) \/ x = Connection.targetId new.
Proof.
  induction conns as [|c cs IH].
  - cbn. intuition.
  - rewrite upsert_cons.
    destruct (String.eqb (Connection.targetId c) (Connection.targetId new)) eqn:E; cbn.
    + apply String.eqb_eq in E. intuition.
    + intros [Hx|Hx]; [now left; left|]. destruct (IH Hx); auto.
Qed.

Lemma upsert_NoDup (conns : list Connection.t) (new : Connection.t) :
  NoDup (targets conns) -> NoDup (targets (upsert conns new)).
Proof.
  induction conns as [|c cs IH]; intros Hnd.
  - cbn. constructor; [intros [] | constructor].
  - rewrite upsert_cons. inversion Hnd as [|? ? Hc Hcs]; subst.
    destruct (String.eqb (Connection.targetId c) (Connection.targetId new)) eqn:E; cbn.
    + apply String.eqb_eq in E. constructor; [now rewrite <- E | exact Hcs].
    + constructor; [|apply IH; exact Hcs].
      intros Hin. apply upsert_targets_In in Hin. destruct Hin as [Hin|Hin]; [tauto|].
      apply String.eqb_neq in E. congruence.
Qed.

Lemma addConnection_eq sourceId targetId type strength description (w : World) :
  MemoryStore.addConnection sourceId targetId type strength description w =
  (Returned tt,
   with_store w
     (MemoryState.set_memories (store w)
        (map (MemoryStore.connect sourceId targetId type strength description)
             (MemoryState.memories (store w))))).
Proof. reflexivity. Qed.

(** C7.  After [addConnection(A, B, type1, s1)] and then
    [addConnection(A, B, type2, s2)], a memory [A] whose edges had distinct
    targets has exactly one edge to [B], the one of the second call, and
    its edges still have distinct targets; the memories are the same ones. *)
Theorem addConnection_last_write_wins (w : World) (A B : string)
  (type1 type2 : ConnectionType) (s1 s2 : number) (d1 d2 : option string) :
  (forall m, In m (MemoryState.memories (store w)) -> Memory.id m = A -> single_edged m) ->
  exists w1 w2,
    MemoryStore.addConnection A B type1 s1 d1 w = (Returned tt, w1)
    /\ MemoryStore.addConnection A B type2 s2 d2 w1 = (Returned tt, w2)
    /\ map Memory.id (MemoryState.memories (store w2))
       = map Memory.id (MemoryState.memories (store w))
    /\ forall m, In m (MemoryState.memories (store w2)) -> Memory.id m = A ->
         edges_to B (Memory.connections m) = [Connection.mk type2 B s2 d2]
         /\ single_edged m.
Proof.
  intros Hinv. do 2 eexists.
  split; [apply addConnection_eq|]. split; [apply addConnection_eq|].
  cbn. rewrite !map_map. split.
  - apply map_ext. intros m. now rewrite !connect_id.
  - intros m Hm Hid. apply in_map_iff in Hm. destruct Hm as (m0 & <- & Hm0).
    rewrite !connect_id in Hid.
    assert (H0 : single_edged m0) by (apply Hinv; assumption).
    rewrite connect_source by (now rewrite connect_id).
    rewrite connect_source by assumption.
    unfold single_edged. rewrite connect_source by (now rewrite connect_id).
    rewrite connect_source by assumption.
    split.
    + apply (upsert_edges_to _ (Connection.mk type2 B s2 d2)).
      apply upsert_NoDup. exact H0.
    + apply upsert_NoDup, upsert_NoDup. exact H0.
Qed.

End ConnectionFacts.

(** ** The memory store: [addMemory] *)

Section AddMemoryFacts.

Context `{Platform}.

(** [addMemory] settles the id and the timestamp, which may draw on the
    platform, and then upserts and updates the state. *)
Lemma addMemory_shape (memory : PartialMemory.t) (w : World) :
  exists id timestamp n,
    MemoryStore.addMemory memory w =
    (VectorStore.addMemory (newMemory memory id timestamp) ;;;
     MemoryStore.set (fun state =>
       MemoryState.set_memories state
         (placed (MemoryState.memories state) (newMemory memory id timestamp))))%js
      (with_calls w n).
Proof.
  unfold MemoryStore.addMemory.
  destruct memory as [mid mtype mcontent msource mts mconf mconns mmd]. cbn.
  assert (W : forall w0 : World, with_calls w0 (calls w0) = w0) by (intros []; reflexivity).
  unfold bind at 1.
  destruct mid as [i|]; [destruct (MemoryStore.string_truthy i)|]; cbn;
    unfold bind at 1;
    (destruct mts as [t|]; [destruct (truthy t)|]); cbn;
    do 3 eexists; try reflexivity;
    try (rewrite <- (W w) at 1; reflexivity).
Qed.

(** C3.  When the content of a memory cannot be embedded, the upsert of the
    vector store throws the error of the embedding, and so does [addMemory]
    of the memory store; the array of stored vectors, the stored item and the
    memories of the zustand state are what they were. *)
Theorem addMemory_embedding_failure (w : World) :
  (forall memory : Memory.t,
      throws (Embeddings.generateEmbedding (Memory.content memory)) w ->
      exists e w1 w',
        Embeddings.generateEmbedding (Memory.content memory) w = (Thrown e, w1)
        /\ VectorStore.addMemory memory w = (Thrown e, w')
        /\ vectors w' = vectors w /\ item w' = item w /\ store w' = store w)
  /\ (forall memory : PartialMemory.t,
        throws (Embeddings.generateEmbedding (PartialMemory.content memory)) w ->
        exists w',
          MemoryStore.addMemory memory w =
          (Thrown (mkError "Failed to generate text embedding. Please try again."), w')
          /\ vectors w' = vectors w /\ item w' = item w /\ store w' = store w).
Proof.
  split.
  - intros memory (e & w1 & E).
    destruct (generateEmbedding_thrown _ _ E) as (Hv & Hi & Hs & _).
    exists e, w1. eexists. split; [exact E|].
    split; [apply addMemory_thrown; exact E|]. cbn. auto.
  - intros memory Ht.
    destruct (addMemory_shape memory w) as (id & timestamp & n & ->).
    apply generateEmbedding_throws with (w' := with_calls w n) in Ht.
    destruct Ht as (e & w1 & E).
    destruct (generateEmbedding_thrown _ _ E) as (Hv & Hi & Hs & _).
    unfold bind.
    rewrite (@addMemory_thrown _ (newMemory memory id timestamp) _ _ _ E).
    destruct (generateEmbedding_cases (PartialMemory.content memory) (with_calls w n))
      as [(v & E')|(c & E')]; cbn in E; rewrite E' in E; inversion E; subst.
    eexists. split; [reflexivity|]. cbn. auto.
Qed.

End AddMemoryFacts.

(** ** [Set] and [Map] *)

Section CollectionFacts.

Lemma Set_has_In (s : Set_) (k : string) : Set_has s k = true <-> In k s.
Proof.
  unfold Set_has. rewrite existsb_exists. split.
  - intros (x & Hx & E). apply String.eqb_eq in E. now subst.
  - intros Hk. exists k. split; [exact Hk | apply String.eqb_refl].
Qed.

Lemma Set_has_not_In (s : Set_) (k : string) : Set_has s k = false <-> ~ In k s.
Proof.
  rewrite <- Set_has_In. destruct (Set_has s k); split; congruence.
Qed.

Lemma Set_add_In (s : Set_) (k x : string) :
  In x (Set_add s k) <-> In x s \/ x = k.
Proof.
  unfold Set_add. destruct (Set_has s k) eqn:E.
  - apply Set_has_In in E. split; [auto|]. intros [Hx| ->]; assumption.
  - rewrite in_app_iff. simpl. intuition.
Qed.

Lemma Set_add_NoDup (s : Set_) (k : string) : NoDup s -> NoDup (Set_add s k).
Proof.
  intros Hs. unfold Set_add. destruct (Set_has s k) eqn:E; [exact Hs|].
  apply Set_has_not_In in E.
  apply NoDup_app; [exact Hs | constructor; [intros [] | constructor] |].
  intros x Hx [<-|[]]. contradiction.
Qed.

Variable V : Type.

Lemma Map_get_set (m : Map V) (k k' : string) (v : V) :
  Map_get (Map_set m k v) k' = if String.eqb k k' then Some v else Map_get m k'.
Proof.
  induction m as [|[k0 v0] t IH]; simpl.
  - destruct (String.eqb k k'); reflexivity.
  - destruct (String.eqb k0 k) eqn:E0; simpl.
    + apply String.eqb_eq in E0. subst k0.
      destruct (String.eqb k k'); reflexivity.
    + rewrite IH. destruct (String.eqb k0 k') eqn:E1; [|reflexivity].
      apply String.eqb_eq in E1. subst k0. rewrite String.eqb_sym, E0. reflexivity.
Qed.

Lemma Map_set_fresh (m : Map V) (k : string) (v : V) :
  ~ In k (map fst m) -> Map_set m k v = m ++ [(k, v)].
Proof.
  induction m as [|[k0 v0] t IH]; simpl; intros Hn; [reflexivity|].
  destruct (String.eqb k0 k) eqn:E.
  - apply String.eqb_eq in E. tauto.
  - rewrite IH by tauto. reflexivity.
Qed.

Lemma Map_set_keys_In (m : Map V) (k x : string) (v : V) :
  In x (map fst (Map_set m k v)) <-> In x (map fst m) \/ x = k.
Proof.
  induction m as [|[k0 v0] t IH]; simpl.
  - intuition.
  - destruct (String.eqb k0 k) eqn:E; simpl.
    + apply String.eqb_eq in E. subst. intuition.
    + rewrite IH. intuition.
Qed.

Lemma Map_set_NoDup (m : Map V) (k : string) (v : V) :
  NoDup (map fst m) -> NoDup (map fst (Map_set m k v)).
Proof.
  induction m as [|[k0 v0] t IH]; simpl; intros Hnd.
  - constructor; [intros [] | constructor].
  - inversion Hnd as [|? ? Hk Ht]; subst.
    destruct (String.eqb k0 k) eqn:E; simpl.
    + constructor; assumption.
    + constructor; [|apply IH; exact Ht].
      rewrite Map_set_keys_In. intros [Hin| ->]; [contradiction|].
      rewrite String.eqb_refl in E. discriminate.
Qed.

(** An entry of the map was put there. *)
Lemma Map_set_In (m : Map V) (k : string) (v : V) (e : string * V) :
  In e (Map_set m k v) -> In e m \/ e = (k, v).
Proof.
  induction m as [|[k0 v0] t IH]; simpl.
  - intuition.
  - destruct (String.eqb k0 k) eqn:E; simpl.
    + apply String.eqb_eq in E. subst. intuition.
    + intros [<-|Hin]; [now left; left|]. destruct (IH Hin); auto.
Qed.

Lemma Map_of_acc (entries : list (string * V)) (acc : Map V) :
  NoDup (map fst acc) ->
  let m := fold_left (fun m e => Map_set m (fst e) (snd e)) entries acc in
  NoDup (map fst m) /\ (forall e, In e m -> In e acc \/ In e entries)
  /\ (NoDup (map fst (acc ++ entries)) -> m = acc ++ entries).
Proof.
  revert acc. induction entries as [|[k v] t IH]; intros acc Hacc; cbn.
  - rewrite app_nil_r. auto.
  - destruct (IH (Map_set acc k v) (Map_set_NoDup acc k v Hacc)) as (H1 & H2 & H3).
    split; [exact H1|]. split.
    + intros e He. destruct (H2 e He) as [Hin|Hin]; [|now right; right].
      apply Map_set_In in Hin. destruct Hin as [Hin| ->]; [now left | right; now left].
    + intros Hnd.
      assert (Hk : ~ In k (map fst acc)).
      { rewrite map_app in Hnd. cbn in Hnd. apply NoDup_remove_2 in Hnd.
        intros Hin. apply Hnd. apply in_or_app. now left. }
      rewrite (@Map_set_fresh acc k v Hk) in H3. rewrite (@Map_set_fresh acc k v Hk).
      rewrite <- app_assoc in H3. apply H3. exact Hnd.
Qed.

Lemma Map_of_NoDup (entries : list (string * V)) : NoDup (map fst (Map_of entries)).
Proof. apply (Map_of_acc entries []). constructor. Qed.

Lemma Map_of_In (entries : list (string * V)) (e : string * V) :
  In e (Map_of entries) -> In e entries.
Proof.
  intros He. destruct (Map_of_acc entries [] (NoDup_nil _)) as (_ & H2 & _).
  destruct (H2 e He) as [[]|Hin]. exact Hin.
Qed.

Lemma Map_of_distinct (entries : list (string * V)) :
  NoDup (map fst entries) -> Map_of entries = entries.
Proof.
  intros Hnd. destruct (Map_of_acc entries [] (NoDup_nil _)) as (_ & _ & H3).
  apply H3. exact Hnd.
Qed.

Lemma Map_get_In (m : Map V) (k : string) (v : V) :
  Map_get m k = Some v -> In (k, v) m.
Proof.
  induction m as [|[k0 v0] t IH]; simpl; [discriminate|].
  destruct (String.eqb k0 k) eqn:E.
  - apply String.eqb_eq in E. intros [= ->]. left. now subst.
  - intros Hg. right. auto.
Qed.

Lemma Map_get_None (m : Map V) (k : string) :
  Map_get m k = None <-> ~ In k (map fst m).
Proof.
  induction m as [|[k0 v0] t IH]; simpl.
  - intuition.
  - destruct (String.eqb k0 k) eqn:E.
    + apply String.eqb_eq in E. split; [discriminate | tauto].
    + apply String.eqb_neq in E. rewrite IH. tauto.
Qed.

End CollectionFacts.

(** ** The memory store: explicit strength *)

Section RelationFacts.

Lemma fold_left_map {A B C} (step : A -> B -> A) (g : C -> B) (l : list C) (a : A) :
  fold_left step (map g l) a = fold_left (fun a c => step a (g c)) l a.
Proof. revert a. induction l as [|x t IH]; intros a; simpl; auto. Qed.

Lemma fold_left_flat_map {A B C} (f : A -> B -> A) (g : C -> list B) (l : list C) (a : A) :
  fold_left f (flat_map g l) a = fold_left (fun a c => fold_left f (g c) a) l a.
Proof.
  revert a. induction l as [|x t IH]; intros a; simpl; [reflexivity|].
  rewrite fold_left_app. apply IH.
Qed.

Lemma incoming_fold (id : string) (memory : Memory.t) (conns : list Connection.t)
  (acc : MemoryStore.Relations) :
  fold_left (MemoryStore.incoming id memory) conns acc =
  fold_left max_step
    (map (fun conn => (Memory.id memory, Connection.strength conn)) (edges_to id conns)) acc.
Proof.
  revert acc. induction conns as [|c cs IH]; intros acc; simpl; [reflexivity|].
  rewrite IH. unfold MemoryStore.incoming at 1.
  destruct (String.eqb (Connection.targetId c) id); reflexivity.
Qed.

(** The two [forEach] loops are two folds over the edges. *)
Lemma relations_flat (memories : list Memory.t) (target : Memory.t) (id : string) :
  MemoryStore.relations memories target id =
  fold_left max_step (incoming_edges memories id)
    (fold_left set_step (outgoing_edges target) (MemoryStore.mkRelations [] [])).
Proof.
  unfold MemoryStore.relations, incoming_edges, outgoing_edges.
  rewrite fold_left_flat_map, fold_left_map.
  set (acc := fold_left _ (Memory.connections target) _). clearbody acc.
  revert acc. induction memories as [|m t IH]; intros acc; simpl; [reflexivity|].
  rewrite incoming_fold. apply IH.
Qed.

(** Both loops add the candidate of every edge to [relatedIds]. *)
Lemma fold_step_ids (step : MemoryStore.Relations -> string * number -> MemoryStore.Relations)
  (edges : list (string * number)) (acc : MemoryStore.Relations) :
  (forall a e, MemoryStore.relatedIds (step a e) = Set_add (MemoryStore.relatedIds a) (fst e)) ->
  (NoDup (MemoryStore.relatedIds acc) ->
   NoDup (MemoryStore.relatedIds (fold_left step edges acc)))
  /\ (forall c, In c (MemoryStore.relatedIds (fold_left step edges acc)) <->
                In c (MemoryStore.relatedIds acc) \/ In c (map fst edges)).
Proof.
  intros Hstep. revert acc. induction edges as [|e t IH]; intros acc; simpl.
  - split; [auto | intuition].
  - destruct (IH (step acc e)) as [IH1 IH2]. split.
    + intros Hnd. apply IH1. rewrite Hstep. apply Set_add_NoDup. exact Hnd.
    + intros c. rewrite IH2, Hstep, Set_add_In. intuition.
Qed.

(** The strength recorded for [c] after the first loop is that of the last
    edge to [c]. *)
Lemma fold_set_step_get (c : string) (edges : list (string * number))
  (acc : MemoryStore.Relations) :
  Map_get (MemoryStore.relationStrengths (fold_left set_step edges acc)) c =
  fold_left (fun _ s => Some s) (strengths_of c edges)
            (Map_get (MemoryStore.relationStrengths acc) c).
Proof.
  revert acc. induction edges as [|[k s] t IH]; intros acc; simpl; [reflexivity|].
  rewrite IH. cbn. rewrite Map_get_set. unfold strengths_of. cbn.
  destruct (String.eqb k c); reflexivity.
Qed.

(** The strength recorded for [c] after the second loop. *)
Lemma fold_max_step_get (c : string) (edges : list (string * number))
  (acc : MemoryStore.Relations) :
  Map_get (MemoryStore.relationStrengths (fold_left max_step edges acc)) c =
  fold_left raise (strengths_of c edges) (Map_get (MemoryStore.relationStrengths acc) c).
Proof.
  revert acc. induction edges as [|[k s] t IH]; intros acc; simpl; [reflexivity|].
  rewrite IH. cbn. rewrite Map_get_set. unfold strengths_of. cbn.
  destruct (String.eqb k c) eqn:E; [|reflexivity].
  apply String.eqb_eq in E. subst k. reflexivity.
Qed.

(** The strength recorded for [c] after both loops. *)
Lemma relations_get (memories : list Memory.t) (target : Memory.t) (id c : string) :
  Map_get (MemoryStore.relationStrengths (MemoryStore.relations memories target id)) c =
  fold_left raise (strengths_of c (incoming_edges memories id))
    (fold_left (fun _ s => Some s) (strengths_of c (outgoing_edges target)) None).
Proof.
  rewrite relations_flat, fold_max_step_get, fold_set_step_get. reflexivity.
Qed.

Lemma strengths_of_nil (c : string) (edges : list (string * number)) :
  strengths_of c edges = [] <-> ~ In c (map fst edges).
Proof.
  unfold strengths_of. induction edges as [|[k s] t IH]; simpl.
  - intuition.
  - destruct (String.eqb k c) eqn:E; simpl.
    + apply String.eqb_eq in E. split; [discriminate | tauto].
    + apply String.eqb_neq in E. rewrite IH. tauto.
Qed.

Lemma relations_ids (memories : list Memory.t) (target : Memory.t) (id : string) :
  NoDup (MemoryStore.relatedIds (MemoryStore.relations memories target id))
  /\ forall c, In c (MemoryStore.relatedIds (MemoryStore.relations memories target id))
               <-> explicit_strengths memories target id c <> [].
Proof.
  rewrite relations_flat.
  destruct (fold_step_ids max_step (incoming_edges memories id)
              (fold_left set_step (outgoing_edges target) (MemoryStore.mkRelations [] []))
              (fun _ _ => eq_refl)) as [N2 I2].
  destruct (fold_step_ids set_step (outgoing_edges target) (MemoryStore.mkRelations [] [])
              (fun _ _ => eq_refl)) as [N1 I1].
  split.
  - apply N2, N1. constructor.
  - intros c. rewrite I2, I1. cbn. unfold explicit_strengths.
    pose proof (strengths_of_nil c (outgoing_edges target)) as O.
    pose proof (strengths_of_nil c (incoming_edges memories id)) as I.
    destruct (strengths_of c (outgoing_edges target)) as [|x l];
      destruct (strengths_of c (incoming_edges memories id)) as [|y l']; cbn.
    + split; [|congruence]. intros [[[]|Hc]|Hc]; [apply O in Hc | apply I in Hc]; tauto.
    + split; [discriminate|]. intros _. right.
      destruct (in_dec string_dec c (map fst (incoming_edges memories id))) as [Hc|Hc];
        [exact Hc | apply I in Hc; discriminate].
    + split; [discriminate|]. intros _. left. right.
      destruct (in_dec string_dec c (map fst (outgoing_edges target))) as [Hc|Hc];
        [exact Hc | apply O in Hc; discriminate].
    + split; [discriminate|]. intros _. right.
      destruct (in_dec string_dec c (map fst (incoming_edges memories id))) as [Hc|Hc];
        [exact Hc | apply I in Hc; discriminate].
Qed.

End RelationFacts.

(** ** The memory store: combined strength *)

Section StrengthFacts.

Lemma fold_max_eq (l : list number) (x y : number) :
  x == y -> fold_left Qmax l x == fold_left Qmax l y.
Proof.
  revert x y. induction l as [|s t IH]; intros x y E; simpl; [exact E|].
  apply IH. now rewrite E.
Qed.

Lemma fold_max_out (l : list number) (a b : number) :
  fold_left Qmax l (Qmax a b) == Qmax (fold_left Qmax l a) b.
Proof.
  revert a. induction l as [|s t IH]; intros a; simpl; [reflexivity|].
  rewrite <- IH. apply fold_max_eq.
  rewrite <- !Q.max_assoc. rewrite (Q.max_comm b s). reflexivity.
Qed.

Lemma raise_fold_some (l : list number) (x : number) :
  exists y, fold_left raise l (Some x) = Some y /\ y == fold_left Qmax l x.
Proof.
  revert x. induction l as [|s t IH]; intros x; simpl.
  - exists x. split; reflexivity.
  - unfold raise at 2. destruct (IH (Math_max s (or_default (Some x) 0))) as (y & E & Hy).
    exists y. split; [exact E|]. rewrite Hy. apply fold_max_eq.
    unfold Math_max. rewrite or_default_zero. apply Q.max_comm.
Qed.

Lemma raise_fold_none (s : number) (t : list number) :
  exists y, fold_left raise (s :: t) None = Some y /\ y == Qmax (fold_left Qmax t s) 0.
Proof.
  simpl. unfold raise at 2. cbn [or_default].
  destruct (raise_fold_some t (Math_max s 0)) as (y & E & Hy).
  exists y. split; [exact E|]. rewrite Hy. apply fold_max_out.
Qed.

Lemma strengths_of_single (c : string) (edges : list (string * number)) :
  NoDup (map fst edges) ->
  strengths_of c edges = [] \/ exists s, strengths_of c edges = [s].
Proof.
  unfold strengths_of. induction edges as [|[k s] t IH]; simpl; intros Hnd; [now left|].
  inversion Hnd as [|? ? Hk Ht]; subst.
  destruct (String.eqb k c) eqn:E; [|auto].
  right. exists s. simpl. f_equal.
  apply String.eqb_eq in E. subst k.
  apply (strengths_of_nil c t). exact Hk.
Qed.

Lemma outgoing_edges_targets (target : Memory.t) :
  map fst (outgoing_edges target) = targets (Memory.connections target).
Proof. unfold outgoing_edges, targets. rewrite map_map. reflexivity. Qed.

Lemma latest_cases (l : list number) :
  (l = [] /\ latest l = []) \/ exists x, latest l = [x].
Proof.
  unfold latest. destruct (rev l) as [|x r] eqn:E.
  - left. split; [|reflexivity]. rewrite <- (rev_involutive l), E. reflexivity.
  - right. eauto.
Qed.

(** [relationStrengths.set] over the edges to one candidate keeps the last
    strength. *)
Lemma latest_fold (l : list number) (a : option number) :
  fold_left (fun _ s => Some s) l a =
  match latest l with
  | [] => a
  | x :: _ => Some x
  end.
Proof.
  unfold latest. revert a. induction l as [|s t IH]; intros a; cbn; [reflexivity|].
  rewrite IH. destruct (rev t) as [|x r]; reflexivity.
Qed.

Lemma counted_strengths_nil (memories : list Memory.t) (target : Memory.t) (id c : string) :
  counted_strengths memories target id c = [] <-> explicit_strengths memories target id c = [].
Proof.
  unfold counted_strengths, explicit_strengths.
  destruct (latest_cases (strengths_of c (outgoing_edges target))) as [[-> ->]|(x & Ex)].
  - reflexivity.
  - rewrite Ex. split; [discriminate|]. intros E. apply app_eq_nil in E. destruct E as [E _].
    rewrite E in Ex. discriminate.
Qed.

(** What the loops record for a candidate, against the strongest of the
    strengths that count.  With no edge nothing is recorded.  With an edge,
    the recorded strength and the strongest one give the same maximum with
    any semantic strength, which is never negative. *)
Lemma recorded_strength (memories : list Memory.t) (target : Memory.t) (id c : string) :
  let recorded :=
    Map_get (MemoryStore.relationStrengths (MemoryStore.relations memories target id)) c in
  match strongest (counted_strengths memories target id c) with
  | None => recorded = None
  | Some x =>
      exists y, recorded = Some y
                /\ forall sem, 0 <= sem -> Math_max (or_default (Some y) 0) sem == Qmax x sem
  end.
Proof.
  cbn zeta. rewrite relations_get, latest_fold. unfold counted_strengths.
  destruct (latest_cases (strengths_of c (outgoing_edges target))) as [[_ ->]|(o & ->)];
    cbn [app fold_left].
  - destruct (strengths_of c (incoming_edges memories id)) as [|s t]; [reflexivity|].
    cbn [strongest]. destruct (raise_fold_none s t) as (y & E & Hy).
    exists y. split; [exact E|]. intros sem Hsem.
    unfold Math_max. rewrite or_default_zero, Hy, <- Q.max_assoc.
    rewrite (Q.max_r 0 sem Hsem). reflexivity.
  - cbn [strongest]. destruct (raise_fold_some (strengths_of c (incoming_edges memories id)) o)
      as (y & E & Hy).
    exists y. split; [exact E|]. intros sem _.
    unfold Math_max. rewrite or_default_zero, Hy. reflexivity.
Qed.

(** Where the target has at most one edge per target, the strengths that
    count are all the strengths. *)
Lemma counted_strengths_single (memories : list Memory.t) (target : Memory.t)
  (id c : string) :
  single_edged target ->
  counted_strengths memories target id c = explicit_strengths memories target id c.
Proof.
  intros Hs. unfold counted_strengths, explicit_strengths. f_equal.
  assert (Ho : NoDup (map fst (outgoing_edges target)))
    by (rewrite outgoing_edges_targets; exact Hs).
  destruct (strengths_of_single c _ Ho) as [-> | (o & ->)]; reflexivity.
Qed.

Lemma Map_get_entries {V} (key : V -> string) (l : list V) (c : string) :
  Map_get (map (fun m => (key m, m)) l) c = find (fun m => String.eqb (key m) c) l.
Proof.
  induction l as [|x t IH]; simpl; [reflexivity|].
  destruct (String.eqb (key x) c); [reflexivity | exact IH].
Qed.

Lemma semanticMap_distinct (similar : list Match.t) :
  NoDup (matched_ids similar) ->
  MemoryStore.semanticMap similar = map (fun m => (Memory.id (Match.memory m), m)) similar.
Proof.
  intros Hnd. unfold MemoryStore.semanticMap. apply Map_of_distinct.
  rewrite map_map. exact Hnd.
Qed.

Lemma semantic_strength_nonneg (similar : list Match.t) (floor : number) (c : string) :
  0 <= floor ->
  Forall (fun m => floor <= Match.similarity m) similar ->
  0 <= semantic_strength similar c.
Proof.
  intros Hf Hall. unfold semantic_strength.
  destruct (find _ similar) as [m|] eqn:E; [|apply Qle_refl].
  apply find_some in E. destruct E as [Hin _].
  rewrite Forall_forall in Hall. apply Qle_trans with floor; auto.
Qed.

End StrengthFacts.

(** ** The memory store: [getRelatedMemories] *)

Section RelatedFacts.

Context `{Platform}.

Lemma no_edge_relatedIds (memories : list Memory.t) (target : Memory.t) (id c : string) :
  negb (Set_has (MemoryStore.relatedIds (MemoryStore.relations memories target id)) c)
  = no_edge memories target id c.
Proof.
  destruct (relations_ids memories target id) as [_ Hids]. specialize (Hids c).
  unfold no_edge.
  destruct (Set_has _ c) eqn:E; cbn.
  - apply Set_has_In in E. apply Hids in E.
    destruct (explicit_strengths memories target id c); [congruence | reflexivity].
  - apply Set_has_not_In in E.
    destruct (explicit_strengths memories target id c); [reflexivity|].
    exfalso. apply E, Hids. discriminate.
Qed.

Lemma findMemory_id (memories : list Memory.t) (c : string) (m : Memory.t) :
  MemoryStore.findMemory memories c = Some m -> Memory.id m = c /\ In m memories.
Proof.
  intros E. apply find_some in E. destruct E as [Hin E].
  apply String.eqb_eq in E. auto.
Qed.

Lemma combine_strengths_Some (memories : list Memory.t) (semanticMemories : Map Match.t)
  (strengths : Map number) (c : string) (it : Ranked.t) :
  MemoryStore.combine_strengths memories semanticMemories strengths c = Some it ->
  MemoryStore.findMemory memories c = Some (Ranked.memory it)
  /\ Memory.id (Ranked.memory it) = c
  /\ Ranked.strength it =
     Math_max (or_default (Map_get strengths c) 0)
              (match Map_get semanticMemories c with
               | Some m => Match.similarity m
               | None => 0
               end).
Proof.
  unfold MemoryStore.combine_strengths. fold (MemoryStore.findMemory memories c).
  destruct (MemoryStore.findMemory memories c) as [m|] eqn:E; [|discriminate].
  intros [= <-]. cbn. repeat split. apply (findMemory_id _ _ E).
Qed.

Lemma filter_null_In {A B} (f : A -> option B) (l : list A) (y : B) :
  In y (filter_null (map f l)) <-> exists x, In x l /\ f x = Some y.
Proof.
  induction l as [|a t IH]; simpl.
  - split; [intros [] | intros (x & [] & _)].
  - destruct (f a) as [b|] eqn:E; simpl; rewrite IH; split.
    + intros [<-|(x & Hx & Ex)]; [exists a; auto | exists x; auto].
    + intros (x & [<-|Hx] & Ex); [left; congruence | right; eauto].
    + intros (x & Hx & Ex). eauto.
    + intros (x & [<-|Hx] & Ex); [congruence | eauto].
Qed.

(** The ids of the ranked memories are the candidates that resolve, in the
    order of their discovery. *)
Lemma ranked_ids (memories : list Memory.t) (semanticMemories : Map Match.t)
  (strengths : Map number) (ids : list string) :
  map (fun it => Memory.id (Ranked.memory it))
      (filter_null (map (MemoryStore.combine_strengths memories semanticMemories strengths) ids))
  = filter (fun c => match MemoryStore.findMemory memories c with Some _ => true | None => false end) ids.
Proof.
  induction ids as [|c t IH]; simpl; [reflexivity|].
  destruct (MemoryStore.combine_strengths memories semanticMemories strengths c) as [it|] eqn:E.
  - destruct (combine_strengths_Some _ _ _ _ E) as (Hf & Hid & _).
    rewrite Hf. simpl. now rewrite IH, Hid.
  - unfold MemoryStore.combine_strengths in E. fold (MemoryStore.findMemory memories c) in E.
    destruct (MemoryStore.findMemory memories c); [discriminate | exact IH].
Qed.

Lemma NoDup_map_filter {A B} (l : list A) (key : A -> B) (keep : A -> bool) :
  NoDup (map key l) -> NoDup (map key (filter keep l)).
Proof.
  induction l as [|x t IH]; simpl; intros Hnd; [constructor|].
  inversion Hnd as [|? ? Hx Ht]; subst.
  destruct (keep x); simpl; [|auto].
  constructor; [|auto].
  intros Hin. apply Hx. apply in_map_iff in Hin. destruct Hin as (y & E & Hy).
  apply filter_In in Hy. apply in_map_iff. exists y. tauto.
Qed.

Lemma NoDup_map_slice0 {A B} (f : A -> B) (l : list A) (end_ : Z) :
  NoDup (map f l) -> NoDup (map f (slice0 l end_)).
Proof.
  intros Hnd. destruct (slice0_prefix l end_) as [rest E].
  rewrite <- E, map_app in Hnd. apply NoDup_app_remove_r in Hnd. exact Hnd.
Qed.

(** Distinct ids in the vector store give matches of distinct ids. *)
Lemma findSimilarMemories_distinct (content : string) (limit : Z) (minSimilarity : number)
  (w w' : World) (similar : list Match.t) :
  NoDup (map StoredMemory.id (vectors w)) ->
  VectorStore.findSimilarMemories content limit minSimilarity w = (Returned similar, w') ->
  NoDup (matched_ids similar).
Proof.
  intros Hnd E.
  destruct (findSimilarMemories_cases content limit minSimilarity w)
    as [(q & sims & _ & Es & E')|(c & E')]; rewrite E' in E; inversion E; subst;
    [|constructor].
  destruct (map_outcome_score _ _ Es) as [Hv _]. rewrite <- Hv, map_map in Hnd.
  unfold matched_ids, VectorStore.select. rewrite map_map. cbn.
  apply NoDup_map_slice0.
  apply (Permutation_NoDup
           (Permutation_map (fun s => StoredMemory.id (Scored.storedMemory s))
              (Permutation_sym (sort_perm VectorStore.bySimilarity _)))).
  apply NoDup_map_filter. exact Hnd.
Qed.

Lemma getRelatedMemories_absent (id : string) (w : World) :
  MemoryStore.findMemory (MemoryState.memories (store w)) id = None ->
  MemoryStore.getRelatedMemories id w = (Returned [], w).
Proof.
  intros E. unfold MemoryStore.getRelatedMemories, bind, get.
  fold (MemoryStore.findMemory (MemoryState.memories (store w)) id). rewrite E. reflexivity.
Qed.

Lemma getRelatedMemories_found (id : string) (w w' : World) (target : Memory.t)
  (similar : list Match.t) :
  MemoryStore.findMemory (MemoryState.memories (store w)) id = Some target ->
  VectorStore.findSimilarMemories (Memory.content target)
    VectorStore.default_limit VectorStore.default_minSimilarity w = (Returned similar, w') ->
  let memories := MemoryState.memories (store w) in
  let rel := MemoryStore.relations memories target id in
  MemoryStore.getRelatedMemories id w =
  (Returned
     (map Ranked.memory (MemoryStore.ranked memories (MemoryStore.semanticMap similar) rel)
      ++ MemoryStore.semanticOnly (MemoryStore.semanticMap similar) rel),
   w').
Proof.
  intros Ef Es. unfold MemoryStore.getRelatedMemories, bind, get.
  fold (MemoryStore.findMemory (MemoryState.memories (store w)) id). rewrite Ef. cbn.
  rewrite Es. reflexivity.
Qed.

End RelatedFacts.

Section Ranking.

Context `{Platform}.

Lemma semanticOnly_distinct (memories : list Memory.t) (target : Memory.t) (id : string)
  (similar : list Match.t) :
  NoDup (matched_ids similar) ->
  MemoryStore.semanticOnly (MemoryStore.semanticMap similar)
    (MemoryStore.relations memories target id)
  = map Match.memory
        (filter (fun m => no_edge memories target id (Memory.id (Match.memory m))) similar).
Proof.
  intros Hnd. unfold MemoryStore.semanticOnly. rewrite (@semanticMap_distinct similar Hnd).
  rewrite filter_map_swap, map_map. cbn. f_equal.
  apply filter_ext. intros m. apply no_edge_relatedIds.
Qed.

Lemma sort_map_In {A B} (cmp : A -> A -> number) (f : A -> B) (l : list A) (y : B) :
  In y (map f (sort cmp l)) <-> In y (map f l).
Proof.
  rewrite !in_map_iff. split; intros (x & E & Hx); exists x; split; auto;
    apply (sort_In cmp l x); exact Hx.
Qed.

Lemma default_floor : 0 <= VectorStore.default_minSimilarity.
Proof. unfold VectorStore.default_minSimilarity, Qle. simpl. lia. Qed.

(** C1, as the code has it.  For a target present in the collection and a
    vector store of distinct ids: [getRelatedMemories] returns the ranked
    memories followed by the semantic-only matches.  The ranked ones are the
    candidates with an edge to or from the target that resolve in the
    collection; each is ranked by its combined strength, the maximum of its
    explicit and of its semantic strength; they come in descending combined
    strength.  The explicit strength is the maximum of the strength of the
    last edge of the target to the candidate and of the strengths of the
    edges of the candidate to the target; where the target has one edge per
    target at most, that is the maximum over all the edges between them.
    The semantic strength is the similarity of the candidate among the
    matches of [findSimilarMemories] on the content of the target, with the
    limit 5 and the floor 0.7, and 0 when it is not among them.  Those
    matches are, when the content embeds and the stored vectors have its
    length, five at most of the records whose cosine similarity with it
    reaches the floor, none of those left out more similar than one kept;
    and none when the content does not embed or a stored vector has another
    length.  The matches with no edge to or from the target follow the
    ranked memories, in descending similarity. *)
Theorem getRelatedMemories_ranking (w : World) (id : string) (target : Memory.t) :
  let memories := MemoryState.memories (store w) in
  let floor := VectorStore.default_minSimilarity in
  MemoryStore.findMemory memories id = Some target ->
  NoDup (map StoredMemory.id (vectors w)) ->
  exists similar w' items,
    VectorStore.findSimilarMemories (Memory.content target)
      VectorStore.default_limit floor w = (Returned similar, w')
    /\ MemoryStore.getRelatedMemories id w =
       (Returned
          (map Ranked.memory items
           ++ map Match.memory
                (filter (fun m => no_edge memories target id (Memory.id (Match.memory m)))
                        similar)),
        w')
    /\ (forall c, In c (map (fun it => Memory.id (Ranked.memory it)) items) <->
                  explicit_strengths memories target id c <> []
                  /\ MemoryStore.findMemory memories c <> None)
    /\ Forall (fun it =>
                 MemoryStore.findMemory memories (Memory.id (Ranked.memory it))
                 = Some (Ranked.memory it)
                 /\ Ranked.strength it ==
                    combined_strength memories target id similar
                      (Memory.id (Ranked.memory it))) items
    /\ Descending Ranked.strength items
    /\ Descending Match.similarity
         (filter (fun m => no_edge memories target id (Memory.id (Match.memory m))) similar)
    /\ (single_edged target ->
        forall c, counted_strengths memories target id c
                  = explicit_strengths memories target id c)
    /\ (forall q,
          embed (Memory.content target) = Some q ->
          (forall s, In s (vectors w) -> length (StoredMemory.embedding s) = length q) ->
          exists sims,
            map Scored.storedMemory sims = vectors w
            /\ Forall (fun s =>
                         Embeddings.cosineSimilarity q
                           (StoredMemory.embedding (Scored.storedMemory s))
                         = Returned (Scored.similarity s)) sims
            /\ length similar = Nat.min 5 (length (qualifying sims floor))
            /\ exists rest,
                 Permutation (similar ++ map VectorStore.toMatch rest)
                             (map VectorStore.toMatch (qualifying sims floor))
                 /\ (forall r m, In r rest -> In m similar ->
                                 Scored.similarity r <= Match.similarity m))
    /\ ((embed (Memory.content target) = None
         \/ exists q s, embed (Memory.content target) = Some q /\ In s (vectors w)
                        /\ length (StoredMemory.embedding s) <> length q) ->
        similar = []).
Proof.
  intros memories floor Ef Hnd.
  destruct (findSimilarMemories_returns (Memory.content target)
              VectorStore.default_limit floor w)
    as (similar & w' & Es).
  pose proof (@findSimilarMemories_distinct _ _ _ _ _ _ _ Hnd Es) as Hd.
  destruct (@findSimilarMemories_matches _ _ _ _ _ _ _ Es) as [Hfloor Hdesc].
  set (rel := MemoryStore.relations memories target id).
  exists similar, w', (MemoryStore.ranked memories (MemoryStore.semanticMap similar) rel).
  split; [exact Es|].
  split.
  { rewrite (@getRelatedMemories_found _ id w w' target similar Ef Es). cbn zeta.
    fold memories. fold rel. unfold rel. rewrite (@semanticOnly_distinct memories target id similar Hd). reflexivity. }
  destruct (relations_ids memories target id) as [_ Hids]. fold rel in Hids.
  split.
  { intros c. unfold MemoryStore.ranked.
    rewrite sort_map_In.
    rewrite ranked_ids, filter_In, Hids.
    destruct (MemoryStore.findMemory memories c); intuition congruence. }
  split.
  { apply Forall_forall. intros it Hit. unfold MemoryStore.ranked in Hit.
    apply sort_In in Hit. apply filter_null_In in Hit. destruct Hit as (c & Hc & Eit).
    destruct (@combine_strengths_Some _ _ _ _ _ Eit) as (Hf & Hid & Hstr).
    rewrite Hid. split; [exact Hf|]. rewrite Hstr.
    rewrite (@semanticMap_distinct similar Hd), Map_get_entries.
    fold (semantic_strength similar c).
    apply Hids in Hc. unfold combined_strength.
    pose proof (recorded_strength memories target id c) as Hrec. cbn zeta in Hrec.
    destruct (strongest (counted_strengths memories target id c)) as [x|] eqn:Ex.
    - destruct Hrec as (y & Ey & Hy). fold rel in Ey. rewrite Ey. apply Hy.
      apply (@semantic_strength_nonneg similar _ c default_floor Hfloor).
    - exfalso. apply Hc. apply counted_strengths_nil.
      destruct (counted_strengths memories target id c); [reflexivity | discriminate]. }
  split.
  { exact (@sort_Descending _ Ranked.strength _). }
  split.
  { apply Descending_filter. exact Hdesc. }
  split.
  { intros Hs c. apply counted_strengths_single. exact Hs. }
  split.
  { intros q Eq Hlen.
    destruct (@findSimilarMemories_selected _ (Memory.content target)
                VectorStore.default_limit floor w q Eq Hlen) as (sims & E1 & E2 & E3).
    rewrite E3 in Es. inversion Es; subst.
    exists sims. split; [exact E1|]. split; [exact E2|].
    destruct (select_cut sims VectorStore.default_limit floor) as [Hkept Hcut].
    split; [|exact Hcut]. rewrite Hkept. reflexivity. }
  intros Hfail.
  pose proof (@findSimilarMemories_unselected _ (Memory.content target)
                VectorStore.default_limit floor w Hfail) as Hr.
  rewrite Es in Hr. cbn in Hr. congruence.
Qed.

Lemma Map_of_keys {V} (entries : list (string * V)) (k : string) :
  In k (map fst (Map_of entries)) <-> In k (map fst entries).
Proof.
  unfold Map_of.
  assert (G : forall acc : Map V,
             In k (map fst (fold_left (fun m e => Map_set m (fst e) (snd e)) entries acc))
             <-> In k (map fst acc) \/ In k (map fst entries)).
  { induction entries as [|[k0 v0] t IH]; intros acc; simpl.
    - intuition.
    - rewrite IH, Map_set_keys_In. intuition. }
  rewrite G. simpl. intuition.
Qed.

(** The entries of the map of matches are matches, under their own ids. *)
Lemma semanticMap_entries (similar : list Match.t) (e : string * Match.t) :
  In e (MemoryStore.semanticMap similar) ->
  In (snd e) similar /\ Memory.id (Match.memory (snd e)) = fst e.
Proof.
  intros He. apply Map_of_In in He. apply in_map_iff in He.
  destruct He as (m & <- & Hm). auto.
Qed.

Lemma semanticOnly_ids (similar : list Match.t) (rel : MemoryStore.Relations) :
  map Memory.id (MemoryStore.semanticOnly (MemoryStore.semanticMap similar) rel)
  = filter (fun c => negb (Set_has (MemoryStore.relatedIds rel) c))
           (map fst (MemoryStore.semanticMap similar)).
Proof.
  unfold MemoryStore.semanticOnly. rewrite map_map, filter_map_swap.
  apply map_ext_in. intros e He. apply filter_In in He.
  apply (semanticMap_entries similar e), He.
Qed.



End Ranking.

(** ** The memory service: [extractMemories] *)

Section ExtractionFacts.

Context `{Platform}.

Lemma with_calls_same (w : World) : with_calls w (calls w) = w.
Proof. destruct w; reflexivity. Qed.

Lemma candidate_eq (conversation : string) (relevantMemories : list Memory.t)
  (memory : ExtractedMemory.t) (w : World) :
  ExtractedMemory.connections memory <> None ->
  MemoryService.candidate conversation relevantMemories memory w =
  (Returned (candidate_of conversation relevantMemories memory (Date_now (calls w))),
   with_calls w (S (calls w))).
Proof.
  intros Hc. unfold MemoryService.candidate, candidate_of, bind.
  destruct (ExtractedMemory.connections memory) as [conns|]; [|congruence].
  reflexivity.
Qed.

Lemma map_M_candidates (conversation : string) (relevantMemories : list Memory.t)
  (parsed : list ExtractedMemory.t) (w : World) :
  Forall (fun m => ExtractedMemory.connections m <> None) parsed ->
  map_M (MemoryService.candidate conversation relevantMemories) parsed w =
  (Returned (candidates conversation relevantMemories parsed (calls w)),
   with_calls w (calls w + length parsed)).
Proof.
  intros Hall. revert w. induction Hall as [|m t Hm Ht IH]; intros w; cbn.
  - rewrite Nat.add_0_r, with_calls_same. reflexivity.
  - unfold bind at 1. rewrite (@candidate_eq conversation relevantMemories m w Hm).
    unfold bind at 1. rewrite IH. cbn.
    unfold ret. f_equal. unfold with_calls. cbn. f_equal. lia.
Qed.

Lemma upserted_fresh (vs : list StoredMemory.t) (s : StoredMemory.t) :
  ~ In (StoredMemory.id s) (map StoredMemory.id vs) -> upserted vs s = vs ++ [s].
Proof.
  intros Hn. unfold upserted.
  assert (E : findIndex (fun m => String.eqb (StoredMemory.id m) (StoredMemory.id s)) vs = None).
  { induction vs as [|x t IH]; simpl; [reflexivity|].
    destruct (String.eqb (StoredMemory.id x) (StoredMemory.id s)) eqn:Ex.
    - apply String.eqb_eq in Ex. simpl in Hn. tauto.
    - rewrite IH; [reflexivity | simpl in Hn; tauto]. }
  rewrite E. reflexivity.
Qed.

Lemma persist_eq (memory : PartialMemory.t) (w : World) :
  embed (PartialMemory.content memory) <> None ->
  MemoryService.persist memory w =
  VectorStore.saveToStorage
    (with_vectors (with_calls w (S (S (calls w))))
       (upserted (vectors w) (copy memory (calls w)))).
Proof.
  intros He. destruct (embed (PartialMemory.content memory)) as [v|] eqn:Ev; [|congruence].
  unfold MemoryService.persist, bind, crypto_randomUUID, now. cbn.
  rewrite (@addMemory_embedded _ _ _ v).
  - unfold copy. rewrite Ev. reflexivity.
  - apply generateEmbedding_embed. exact Ev.
Qed.

(** The storing loop, when every content embeds and the ids drawn are new:
    it appends the copies to the array, one after the other, and leaves the
    zustand state alone. *)
Lemma persist_all (memories : list PartialMemory.t) (w : World) :
  Forall (fun m => embed (PartialMemory.content m) <> None) memories ->
  fresh_ids (vectors w) (calls w) (length memories) ->
  exists w',
    for_of memories MemoryService.persist w = (Returned tt, w')
    /\ vectors w' = vectors w ++ copies memories (calls w)
    /\ store w' = store w
    /\ calls w' = (calls w + 2 * length memories)%nat.
Proof.
  intros Hall. revert w. induction Hall as [|m t Hm Ht IH]; intros w [Hnd Hfresh]; cbn.
  - exists w. rewrite app_nil_r, Nat.add_0_r. auto.
  - cbn in Hnd, Hfresh. inversion Hnd as [|? ? Hx Hnd']; subst.
    inversion Hfresh as [|? ? Hy Hfresh']; subst.
    unfold bind. rewrite (@persist_eq m w Hm), saveToStorage_eq.
    rewrite upserted_fresh by exact Hy.
    set (vs' := vectors w ++ [copy m (calls w)]).
    assert (Hnext : forall w1, vectors w1 = vs' -> calls w1 = S (S (calls w)) ->
                               fresh_ids (vectors w1) (calls w1) (length t)).
    { intros w1 -> ->. split; [exact Hnd'|].
      rewrite Forall_forall in *. intros x Hin. unfold vs'.
      rewrite map_app, in_app_iff. cbn. intros [Hin'|[<-|[]]].
      - exact (Hfresh' x Hin Hin').
      - contradiction. }
    cbn. destruct (full w); cbn.
    + match goal with |- context [for_of t _ ?w1] =>
        destruct (IH w1 (Hnext w1 eq_refl eq_refl)) as (w' & E & Hv & Hst & Hc) end.
      exists w'. rewrite E. cbn in Hv, Hst, Hc. split; [reflexivity|].
      rewrite Hv, Hst, Hc. unfold vs'. rewrite <- app_assoc. repeat split. lia.
    + match goal with |- context [for_of t _ ?w1] =>
        destruct (IH w1 (Hnext w1 eq_refl eq_refl)) as (w' & E & Hv & Hst & Hc) end.
      exists w'. rewrite E. cbn in Hv, Hst, Hc. split; [reflexivity|].
      rewrite Hv, Hst, Hc. unfold vs'. rewrite <- app_assoc. repeat split. lia.
Qed.

Lemma findSimilarMemories_world (content : string) (limit : Z) (minSimilarity : number)
  (w w0 : World) (similar : list Match.t) :
  VectorStore.findSimilarMemories content limit minSimilarity w = (Returned similar, w0) ->
  vectors w0 = vectors w /\ calls w0 = calls w /\ store w0 = store w /\ item w0 = item w.
Proof.
  intros E.
  destruct (findSimilarMemories_cases content limit minSimilarity w)
    as [(q & sims & _ & _ & E')|(c & E')]; rewrite E' in E; inversion E; subst; cbn; auto.
Qed.

Lemma candidates_facts (conversation : string) (relevantMemories : list Memory.t)
  (parsed : list ExtractedMemory.t) (c : nat) :
  length (candidates conversation relevantMemories parsed c) = length parsed
  /\ map PartialMemory.content (candidates conversation relevantMemories parsed c)
     = map ExtractedMemory.content parsed
  /\ Forall (fun m => PartialMemory.id m = None /\ PartialMemory.timestamp m = None)
            (candidates conversation relevantMemories parsed c).
Proof.
  revert c. induction parsed as [|m t IH]; intros c; cbn.
  - repeat split. constructor.
  - destruct (IH (S c)) as (IH1 & IH2 & IH3). rewrite IH1, IH2.
    repeat split. constructor; [split; reflexivity | exact IH3].
Qed.

(** The copy of the [i]-th candidate carries the id drawn at its round, the
    time read right after, and the candidate's content. *)
Lemma copies_nth (memories : list PartialMemory.t) (c i : nat) (m : PartialMemory.t) :
  nth_error memories i = Some m ->
  exists s,
    nth_error (copies memories c) i = Some s
    /\ StoredMemory.id s = randomUUID (c + 2 * i)
    /\ StoredMetadata.timestamp (StoredMemory.metadata s) = Date_now (S (c + 2 * i))
    /\ StoredMemory.content s = PartialMemory.content m.
Proof.
  revert c i. induction memories as [|x t IH]; intros c [|i] E; cbn in E; try discriminate.
  - injection E as ->. exists (copy m c). cbn. rewrite Nat.add_0_r. auto.
  - destruct (IH (S (S c)) i E) as (s & Es & Hid & Hts & Hc).
    exists s. cbn [copies nth_error]. split; [exact Es|].
    replace (c + 2 * S i)%nat with (S (S c) + 2 * i)%nat by lia. auto.
Qed.

(** C4, as the code has it.  When the answer of the language model parses,
    every entry has its list of connections, every content embeds and the
    ids drawn are new, [extractMemories] returns the candidates of the
    entries.  The returned records carry neither an id nor a timestamp.  For
    each of them, in order, a copy with an id drawn from [randomUUID] and the
    time read from [Date.now] is appended to the vector store.  The
    collection of the zustand store is not touched. *)
Theorem extractMemories_parsed (conversation : string) (existingMemories : list Memory.t)
  (w w0 : World) (similar : list Match.t) (response : string)
  (parsed : list ExtractedMemory.t) :
  let relevantMemories := existingMemories ++ map Match.memory similar in
  let memories := candidates conversation relevantMemories parsed (calls w) in
  let first := (calls w + length parsed)%nat in
  VectorStore.findSimilarMemories conversation 5 VectorStore.default_minSimilarity w
    = (Returned similar, w0) ->
  openRouter (MemoryService.prompt_of relevantMemories conversation) = Returned response ->
  JSON_parse response = Some parsed ->
  Forall (fun m => ExtractedMemory.connections m <> None) parsed ->
  Forall (fun m => embed (ExtractedMemory.content m) <> None) parsed ->
  fresh_ids (vectors w) first (length parsed) ->
  exists w',
    MemoryService.extractMemories conversation existingMemories w = (Returned memories, w')
    /\ Forall (fun m => PartialMemory.id m = None /\ PartialMemory.timestamp m = None) memories
    /\ map PartialMemory.content memories = map ExtractedMemory.content parsed
    /\ vectors w' = vectors w ++ copies memories first
    /\ (forall i m, nth_error memories i = Some m ->
          exists s,
            nth_error (copies memories first) i = Some s
            /\ StoredMemory.id s = randomUUID (first + 2 * i)
            /\ StoredMetadata.timestamp (StoredMemory.metadata s)
               = Date_now (S (first + 2 * i))
            /\ StoredMemory.content s = PartialMemory.content m)
    /\ store w' = store w.
Proof.
  intros relevantMemories memories first Hsim Hopen Hparse Hconns Hembed Hfresh.
  destruct (findSimilarMemories_world _ _ _ _ Hsim) as (Hv0 & Hc0 & Hs0 & _).
  destruct (candidates_facts conversation relevantMemories parsed (calls w))
    as (Hlen & Hcontent & Hnone).
  fold memories in Hlen, Hcontent, Hnone.
  assert (Hembed' : Forall (fun m => embed (PartialMemory.content m) <> None) memories).
  { apply Forall_forall. intros m Hm.
    apply (in_map PartialMemory.content) in Hm. rewrite Hcontent in Hm.
    apply in_map_iff in Hm. destruct Hm as (x & <- & Hx).
    rewrite Forall_forall in Hembed. auto. }
  set (w1 := with_calls w0 (calls w0 + length parsed)).
  assert (Hfresh' : fresh_ids (vectors w1) (calls w1) (length memories)).
  { unfold w1. cbn. rewrite Hv0, Hc0, Hlen. exact Hfresh. }
  destruct (persist_all w1 Hembed' Hfresh') as (w' & Ep & Hv & Hst & _).
  exists w'. split.
  { unfold MemoryService.extractMemories, try_catch at 1, bind at 1.
    change 5%Z with 5%Z. rewrite Hsim. cbn match.
    unfold bind at 1, lift. fold relevantMemories. rewrite Hopen. cbn match.
    unfold try_catch, bind at 1. rewrite Hparse. unfold ret at 1. cbn match.
    unfold bind at 1.
    rewrite (@map_M_candidates conversation relevantMemories parsed w0 Hconns).
    fold w1. rewrite Hc0. fold memories. cbn match.
    unfold bind. rewrite Ep. reflexivity. }
  split; [exact Hnone|]. split; [exact Hcontent|].
  split.
  { rewrite Hv. unfold w1. cbn. rewrite Hv0, Hc0. reflexivity. }
  split; [|rewrite Hst; unfold w1; cbn; exact Hs0].
  intros i m Em. apply copies_nth. exact Em.
Qed.

End ExtractionFacts.

(* ================================================================== *)
(** * Further properties *)

(** ** The vector store: upsert, delete, reload *)

Section StoreFacts.

Context `{Platform}.

(** [upserted] walks the array to the first record with the id of [s]. *)
Lemma upserted_cons (x : StoredMemory.t) (t : list StoredMemory.t) (s : StoredMemory.t) :
  upserted (x :: t) s =
  if String.eqb (StoredMemory.id x) (StoredMemory.id s) then s :: t else x :: upserted t s.
Proof.
  unfold upserted. cbn [findIndex].
  destruct (String.eqb (StoredMemory.id x) (StoredMemory.id s)); [reflexivity|].
  destruct (findIndex _ t); reflexivity.
Qed.

Lemma upserted_ids_In (vs : list StoredMemory.t) (s : StoredMemory.t) (x : string) :
  In x (stored_ids (upserted vs s)) <-> In x (stored_ids vs) \/ x = StoredMemory.id s.
Proof.
  induction vs as [|y t IH].
  - cbn. intuition.
  - rewrite upserted_cons.
    destruct (String.eqb (StoredMemory.id y) (StoredMemory.id s)) eqn:E; cbn.
    + apply String.eqb_eq in E. rewrite E. intuition.
    + unfold stored_ids in IH. rewrite IH. intuition.
Qed.

Lemma upserted_NoDup (vs : list StoredMemory.t) (s : StoredMemory.t) :
  NoDup (stored_ids vs) -> NoDup (stored_ids (upserted vs s)).
Proof.
  induction vs as [|y t IH]; intros Hnd.
  - cbn. constructor; [intros [] | constructor].
  - rewrite upserted_cons. inversion Hnd as [|? ? Hy Ht]; subst.
    destruct (String.eqb (StoredMemory.id y) (StoredMemory.id s)) eqn:E; cbn.
    + apply String.eqb_eq in E. constructor; [now rewrite <- E | exact Ht].
    + constructor; [|apply IH; exact Ht].
      intros Hin. apply upserted_ids_In in Hin. destruct Hin as [Hin|Hin]; [contradiction|].
      apply String.eqb_neq in E. congruence.
Qed.

Lemma filter_absent (id : string) (vs : list StoredMemory.t) :
  ~ In id (stored_ids vs) -> filter (has_id id) vs = [].
Proof.
  induction vs as [|y t IH]; simpl; intros Hn; [reflexivity|].
  change (has_id id y) with (String.eqb (StoredMemory.id y) id).
  destruct (String.eqb (StoredMemory.id y) id) eqn:E.
  - apply String.eqb_eq in E. tauto.
  - apply IH. tauto.
Qed.

Lemma upserted_one (vs : list StoredMemory.t) (s : StoredMemory.t) :
  NoDup (stored_ids vs) -> filter (has_id (StoredMemory.id s)) (upserted vs s) = [s].
Proof.
  induction vs as [|y t IH]; intros Hnd.
  - cbn. unfold has_id. rewrite String.eqb_refl. reflexivity.
  - rewrite upserted_cons. inversion Hnd as [|? ? Hy Ht]; subst.
    destruct (String.eqb (StoredMemory.id y) (StoredMemory.id s)) eqn:E; cbn.
    + change (has_id (StoredMemory.id s) s)
        with (String.eqb (StoredMemory.id s) (StoredMemory.id s)).
      rewrite String.eqb_refl. f_equal.
      apply filter_absent. apply String.eqb_eq in E. now rewrite <- E.
    + change (has_id (StoredMemory.id s) y)
        with (String.eqb (StoredMemory.id y) (StoredMemory.id s)).
      rewrite E. apply IH. exact Ht.
Qed.

Lemma upserted_others (vs : list StoredMemory.t) (s : StoredMemory.t) :
  filter (other_id (StoredMemory.id s)) (upserted vs s)
  = filter (other_id (StoredMemory.id s)) vs.
Proof.
  induction vs as [|y t IH].
  - cbn. unfold other_id. rewrite String.eqb_refl. reflexivity.
  - rewrite upserted_cons.
    destruct (String.eqb (StoredMemory.id y) (StoredMemory.id s)) eqn:E; cbn.
    + change (other_id (StoredMemory.id s) s)
        with (negb (String.eqb (StoredMemory.id s) (StoredMemory.id s))).
      change (other_id (StoredMemory.id s) y)
        with (negb (String.eqb (StoredMemory.id y) (StoredMemory.id s))).
      rewrite String.eqb_refl, E. reflexivity.
    + change (other_id (StoredMemory.id s) y)
        with (negb (String.eqb (StoredMemory.id y) (StoredMemory.id s))).
      rewrite E. cbn. now rewrite IH.
Qed.

Lemma upserted_idem (vs : list StoredMemory.t) (s : StoredMemory.t) :
  upserted (upserted vs s) s = upserted vs s.
Proof.
  induction vs as [|y t IH].
  - cbn. unfold upserted. cbn. rewrite String.eqb_refl. reflexivity.
  - rewrite upserted_cons.
    destruct (String.eqb (StoredMemory.id y) (StoredMemory.id s)) eqn:E.
    + rewrite upserted_cons, String.eqb_refl. reflexivity.
    + rewrite upserted_cons, E, IH. reflexivity.
Qed.

(** The upsert of a memory whose content embeds. *)
Lemma addMemory_ok (memory : Memory.t) (w : World) (v : list number) :
  embed (Memory.content memory) = Some v ->
  VectorStore.addMemory memory w =
  (Returned tt,
   let vs := upserted (vectors w) (VectorStore.toStored memory v) in
   if full w
   then with_console (with_vectors w vs)
          ("Failed to save vector store to storage:" :: console w)
   else with_item (with_vectors w vs) (Json vs)).
Proof.
  intros E. rewrite (@addMemory_embedded _ memory w v (@generateEmbedding_embed _ _ v w E)).
  rewrite saveToStorage_eq. cbn. destruct (full w); reflexivity.
Qed.

(** X1.  An upsert whose content embeds keeps the ids of the vector store
    distinct: afterwards exactly one record has the id of the memory, the new
    one, the records of the other ids are the old ones in their order, and a
    write that succeeds stores the new array. *)
Theorem addMemory_upserts (memory : Memory.t) (w : World) (v : list number) :
  embed (Memory.content memory) = Some v ->
  NoDup (stored_ids (vectors w)) ->
  exists w',
    VectorStore.addMemory memory w = (Returned tt, w')
    /\ NoDup (stored_ids (vectors w'))
    /\ filter (has_id (Memory.id memory)) (vectors w') = [VectorStore.toStored memory v]
    /\ filter (other_id (Memory.id memory)) (vectors w')
       = filter (other_id (Memory.id memory)) (vectors w)
    /\ (full w = false -> item w' = Json (vectors w')).
Proof.
  intros E Hnd. rewrite (@addMemory_ok memory w v E). eexists. split; [reflexivity|].
  cbn zeta.
  assert (V : forall w0, vectors (if full w
                then with_console (with_vectors w w0)
                       ("Failed to save vector store to storage:" :: console w)
                else with_item (with_vectors w w0) (Json w0)) = w0)
    by (intros; destruct (full w); reflexivity).
  rewrite V. split; [apply upserted_NoDup; exact Hnd|].
  split; [exact (@upserted_one (vectors w) (VectorStore.toStored memory v) Hnd)|].
  split; [exact (@upserted_others (vectors w) (VectorStore.toStored memory v))|].
  intros Hf. rewrite Hf. reflexivity.
Qed.

(** X2.  Upserting the same memory again changes neither the array nor the
    stored item. *)
Theorem addMemory_twice (memory : Memory.t) (w : World) (v : list number) :
  embed (Memory.content memory) = Some v ->
  let w1 := snd (VectorStore.addMemory memory w) in
  let w2 := snd (VectorStore.addMemory memory w1) in
  fst (VectorStore.addMemory memory w1) = Returned tt
  /\ vectors w2 = vectors w1 /\ item w2 = item w1.
Proof.
  intros E. cbn zeta. rewrite (@addMemory_ok memory w v E). cbn [snd].
  rewrite (@addMemory_ok memory _ v E). cbn [fst snd]. cbn zeta.
  destruct (full w) eqn:Hf; cbn; rewrite ?Hf; cbn; rewrite upserted_idem; auto.
Qed.

End StoreFacts.

Section SearchFacts.

Context `{Platform}.

(** The matches are projections of stored records. *)
Lemma select_In (sims : list Scored.t) (limit : Z) (minSimilarity : number) (m : Match.t) :
  In m (VectorStore.select sims limit minSimilarity) ->
  exists s, In s sims /\ m = VectorStore.toMatch s
            /\ minSimilarity <= Scored.similarity s.
Proof.
  unfold VectorStore.select. intros Hm. apply in_map_iff in Hm.
  destruct Hm as (s & <- & Hs). apply slice0_In in Hs. apply sort_In in Hs.
  apply filter_In in Hs. destruct Hs as [Hs Hg]. apply geb_le in Hg. eauto.
Qed.

(** Every match carries the id of a stored record. *)
Lemma findSimilarMemories_ids (content : string) (limit : Z) (minSimilarity : number)
  (w w' : World) (result : list Match.t) :
  VectorStore.findSimilarMemories content limit minSimilarity w = (Returned result, w') ->
  forall id, In id (matched_ids result) -> In id (map StoredMemory.id (vectors w)).
Proof.
  intros E.
  destruct (findSimilarMemories_cases content limit minSimilarity w)
    as [(q & sims & _ & Es & E')|(c & E')]; rewrite E' in E; inversion E; subst.
  - intros id Hid. unfold matched_ids in Hid. apply in_map_iff in Hid.
    destruct Hid as (m & <- & Hm). apply select_In in Hm.
    destruct Hm as (s & Hs & -> & _). cbn.
    destruct (map_outcome_score _ _ Es) as [Hv _]. rewrite <- Hv.
    apply in_map, in_map, Hs.
  - intros id [].
Qed.

(** Every match is the projection of a stored record. *)
Lemma findSimilarMemories_projections (content : string) (limit : Z)
  (minSimilarity : number) (w w' : World) (result : list Match.t) :
  VectorStore.findSimilarMemories content limit minSimilarity w = (Returned result, w') ->
  forall m, In m result -> exists s, In s (vectors w) /\ Match.memory m = projection s.
Proof.
  intros E.
  destruct (findSimilarMemories_cases content limit minSimilarity w)
    as [(q & sims & _ & Es & E')|(c & E')]; rewrite E' in E; inversion E; subst.
  - intros m Hm. apply select_In in Hm. destruct Hm as (x & Hx & -> & _).
    destruct (map_outcome_score _ _ Es) as [Hv _].
    exists (Scored.storedMemory x). split.
    + rewrite <- Hv. apply in_map, Hx.
    + destruct x; reflexivity.
  - intros m [].
Qed.

(** X3.  [findSimilarMemories] never throws and changes nothing but the
    console: the array, the stored item, the zustand state and the counter of
    calls are what they were, and every match carries the id of a stored
    record. *)
Theorem findSimilarMemories_reads_only (content : string) (limit : Z)
  (minSimilarity : number) (w : World) :
  exists result w',
    VectorStore.findSimilarMemories content limit minSimilarity w = (Returned result, w')
    /\ vectors w' = vectors w /\ item w' = item w /\ store w' = store w
    /\ calls w' = calls w
    /\ forall id, In id (matched_ids result) -> In id (map StoredMemory.id (vectors w)).
Proof.
  destruct (findSimilarMemories_returns content limit minSimilarity w) as (result & w' & E).
  exists result, w'. split; [exact E|].
  destruct (findSimilarMemories_world _ _ _ _ E) as (Hv & Hc & Hs & Hi).
  repeat split; auto.
  exact (findSimilarMemories_ids _ _ _ _ E).
Qed.

Lemma deleteMemory_eq (id : string) (w : World) :
  VectorStore.deleteMemory id w =
  VectorStore.saveToStorage
    (with_vectors w
       (filter (fun m => negb (String.eqb (StoredMemory.id m) id)) (vectors w))).
Proof.
  unfold VectorStore.deleteMemory, bind, modify. rewrite !saveToStorage_eq. cbn.
  destruct (full w); reflexivity.
Qed.

Lemma saveToStorage_vectors (w : World) :
  fst (VectorStore.saveToStorage w) = Returned tt
  /\ vectors (snd (VectorStore.saveToStorage w)) = vectors w
  /\ store (snd (VectorStore.saveToStorage w)) = store w
  /\ denied (snd (VectorStore.saveToStorage w)) = denied w
  /\ full (snd (VectorStore.saveToStorage w)) = full w
  /\ (full w = false -> item (snd (VectorStore.saveToStorage w)) = Json (vectors w)).
Proof.
  rewrite saveToStorage_eq. destruct (full w) eqn:Hf; cbn; repeat split; auto; congruence.
Qed.

Lemma filter_other_absent (id : string) (vs : list StoredMemory.t) :
  ~ In id (map StoredMemory.id vs) ->
  filter (fun m => negb (String.eqb (StoredMemory.id m) id)) vs = vs.
Proof.
  induction vs as [|y t IH]; simpl; intros Hn; [reflexivity|].
  destruct (String.eqb (StoredMemory.id y) id) eqn:E; cbn.
  - apply String.eqb_eq in E. tauto.
  - rewrite IH by tauto. reflexivity.
Qed.

(** X4.  [deleteMemory] never throws.  Afterwards no record has the id, the
    other records are the old ones in their order, and no search returns the
    id, whatever the query, the limit and the floor; deleting an id that is
    not stored leaves the array as it is. *)
Theorem deleteMemory_forgets (id : string) (w : World) :
  exists w1,
    VectorStore.deleteMemory id w = (Returned tt, w1)
    /\ ~ In id (map StoredMemory.id (vectors w1))
    /\ (forall s, In s (vectors w1) <-> In s (vectors w) /\ StoredMemory.id s <> id)
    /\ (~ In id (map StoredMemory.id (vectors w)) -> vectors w1 = vectors w)
    /\ forall content limit minSimilarity,
         exists result w2,
           VectorStore.findSimilarMemories content limit minSimilarity w1
           = (Returned result, w2)
           /\ ~ In id (matched_ids result).
Proof.
  rewrite deleteMemory_eq.
  set (w0 := with_vectors w _).
  destruct (saveToStorage_vectors w0) as (Hr & Hv & _).
  exists (snd (VectorStore.saveToStorage w0)).
  split; [destruct (VectorStore.saveToStorage w0); cbn in *; now rewrite Hr|].
  rewrite Hv. unfold w0. cbn [vectors with_vectors].
  assert (Hgone : ~ In id (map StoredMemory.id
             (filter (fun m => negb (String.eqb (StoredMemory.id m) id)) (vectors w)))).
  { intros Hin. apply in_map_iff in Hin. destruct Hin as (s & Es & Hs).
    apply filter_In in Hs. destruct Hs as [_ Hs]. rewrite Es, String.eqb_refl in Hs.
    discriminate. }
  split; [exact Hgone|]. split.
  { intros s. rewrite filter_In. split; intros [Hs Hid]; split; auto.
    - intros E. rewrite E, String.eqb_refl in Hid. discriminate.
    - apply String.eqb_neq in Hid. now rewrite Hid. }
  split; [apply filter_other_absent|].
  intros content limit minSimilarity.
  destruct (findSimilarMemories_returns content limit minSimilarity
              (snd (VectorStore.saveToStorage w0))) as (result & w2 & E).
  exists result, w2. split; [exact E|].
  intros Hin. apply (findSimilarMemories_ids _ _ _ _ E) in Hin.
  rewrite Hv in Hin. exact (Hgone Hin).
Qed.

End SearchFacts.

Section RoundTrips.

Context `{Platform}.

(** A search whose query embeds and whose scoring goes through. *)
(** X5.  One stored embedding whose length differs from the query's empties
    every search with that query: the error of [cosineSimilarity] is caught,
    printed, and the empty array is returned, whatever else is stored. *)
Theorem dimension_mismatch_empties_search (content : string) (limit : Z)
  (minSimilarity : number) (w : World) (q : list number) (s : StoredMemory.t) :
  embed content = Some q ->
  In s (vectors w) ->
  length (StoredMemory.embedding s) <> length q ->
  exists w',
    VectorStore.findSimilarMemories content limit minSimilarity w = (Returned [], w')
    /\ hd_error (console w') = Some "Failed to find similar memories:"
    /\ vectors w' = vectors w.
Proof.
  intros Eq Hs Hne.
  destruct (map_outcome_thrown (VectorStore.score q) (vectors w) s Hs (score_mismatch q s Hne))
    as (e & Ee).
  rewrite (@findSimilarMemories_unscored _ content limit minSimilarity w q e Eq Ee).
  eexists. split; [reflexivity|]. cbn. auto.
Qed.

Lemma slice0_all {A} (l : list A) (end_ : Z) :
  (Z.of_nat (length l) <= end_)%Z -> slice0 l end_ = l.
Proof.
  intros Hl. unfold slice0.
  destruct (end_ <? 0)%Z eqn:E; [apply Z.ltb_lt in E; lia|].
  apply firstn_all2. lia.
Qed.

Lemma upserted_In (vs : list StoredMemory.t) (s x : StoredMemory.t) :
  In x (upserted vs s) -> In x vs \/ x = s.
Proof.
  induction vs as [|y t IH].
  - cbn. intuition.
  - rewrite upserted_cons.
    destruct (String.eqb (StoredMemory.id y) (StoredMemory.id s)); cbn; intuition.
Qed.

Lemma upserted_new (vs : list StoredMemory.t) (s : StoredMemory.t) :
  In s (upserted vs s) /\ (length (upserted vs s) <= S (length vs))%nat.
Proof.
  induction vs as [|y t IH].
  - cbn. auto.
  - rewrite upserted_cons.
    destruct (String.eqb (StoredMemory.id y) (StoredMemory.id s)); cbn;
      [split; [now left | lia]|].
    destruct IH as [IH1 IH2]. split; [now right | lia].
Qed.

(** X6.  A memory that was upserted is found by its own content: when the
    stored embeddings all have the length of its embedding, the floor is not
    above the similarity of the embedding to itself, and the limit covers the
    store, the search returns the projection of its record with that
    similarity. *)
Theorem added_memory_is_found (memory : Memory.t) (w : World) (v : list number)
  (sim : number) (limit : Z) (minSimilarity : number) :
  embed (Memory.content memory) = Some v ->
  (forall x, In x (vectors w) -> length (StoredMemory.embedding x) = length v) ->
  Embeddings.cosineSimilarity v v = Returned sim ->
  minSimilarity <= sim ->
  (Z.of_nat (length (vectors w)) < limit)%Z ->
  let w1 := snd (VectorStore.addMemory memory w) in
  exists result w2,
    VectorStore.findSimilarMemories (Memory.content memory) limit minSimilarity w1
    = (Returned result, w2)
    /\ In (VectorStore.toMatch (Scored.mk (VectorStore.toStored memory v) sim)) result.
Proof.
  intros Ev Hlen Hsim Hmin Hlimit. cbn zeta.
  rewrite (@addMemory_ok _ memory w v Ev). cbn [snd]. cbn zeta.
  set (record := VectorStore.toStored memory v).
  set (vs := upserted (vectors w) record).
  set (w1 := if full w then _ else _).
  assert (Hv : vectors w1 = vs) by (unfold w1; destruct (full w); reflexivity).
  assert (Hall : forall x, In x vs -> exists y, VectorStore.score v x = Returned y).
  { intros x Hx. apply upserted_In in Hx.
    destruct (score_same_length v x) as (sx & _ & Ex); [|eauto].
    destruct Hx as [Hx| ->]; [auto | reflexivity]. }
  destruct (map_outcome_returned (VectorStore.score v) vs Hall) as (sims & Es & Hl & Hin).
  rewrite <- Hv in Es.
  rewrite (@findSimilarMemories_scored _ (Memory.content memory) limit minSimilarity w1 v sims
             Ev Es).
  do 2 eexists. split; [reflexivity|].
  unfold VectorStore.select. apply in_map.
  assert (Hrec : In (Scored.mk record sim) sims).
  { apply (Hin record); [apply upserted_new|].
    unfold VectorStore.score. cbn [StoredMemory.embedding record VectorStore.toStored].
    rewrite Hsim. reflexivity. }
  rewrite slice0_all.
  - apply sort_In. apply filter_In. split; [exact Hrec|]. apply geb_le. exact Hmin.
  - rewrite sort_length.
    pose proof (filter_length_le (fun s => geb (Scored.similarity s) minSimilarity) sims).
    pose proof (proj2 (upserted_new (vectors w) record)). fold vs in H1. lia.
Qed.

Lemma constructor_reads (w : World) (vs : list StoredMemory.t) :
  denied w = false -> item w = Json vs ->
  VectorStore.constructor w = (Returned tt, with_vectors w vs).
Proof.
  intros Hd Hi.
  unfold VectorStore.constructor, VectorStore.loadFromStorage, bind, modify, try_catch,
    LocalStorage.getItem. cbn. rewrite Hd. cbn. rewrite Hi. reflexivity.
Qed.

Lemma constructor_after_save (w : World) :
  denied w = false -> item w = Json (vectors w) ->
  fst (VectorStore.constructor w) = Returned tt
  /\ vectors (snd (VectorStore.constructor w)) = vectors w.
Proof.
  intros Hd Hi. rewrite (constructor_reads w Hd Hi). split; reflexivity.
Qed.

(** X7.  What a mutation wrote is what a new store reads: after an upsert, a
    delete or a clear whose write succeeded, the constructor of the store
    loads the array the mutation left, as far as the stored text keeps the
    records. *)
Theorem reload_restores (w : World) :
  full w = false ->
  denied w = false ->
  (forall memory v,
      embed (Memory.content memory) = Some v ->
      let w1 := snd (VectorStore.addMemory memory w) in
      fst (VectorStore.constructor w1) = Returned tt
      /\ vectors (snd (VectorStore.constructor w1)) = vectors w1)
  /\ (forall id,
        let w1 := snd (VectorStore.deleteMemory id w) in
        fst (VectorStore.constructor w1) = Returned tt
        /\ vectors (snd (VectorStore.constructor w1)) = vectors w1)
  /\ (let w1 := snd (VectorStore.clear w) in
      fst (VectorStore.constructor w1) = Returned tt
      /\ vectors (snd (VectorStore.constructor w1)) = vectors w1).
Proof.
  intros Hf Hd. split; [|split].
  - intros m v Ev. cbn zeta. rewrite (@addMemory_ok _ m w v Ev), Hf. cbn [snd].
    apply constructor_after_save; [exact Hd | reflexivity].
  - intros id. cbn zeta. rewrite deleteMemory_eq, saveToStorage_eq. cbn. rewrite Hf. cbn [snd].
    apply constructor_after_save; [exact Hd | reflexivity].
  - cbn zeta. rewrite (@clear_written w Hf). cbn [snd].
    apply constructor_after_save; [exact Hd | reflexivity].
Qed.

End RoundTrips.

(** ** Cosine similarity: symmetry *)

Section CosineSymmetry.

Context `{Platform}.

Lemma products_sum_comm (a b : list number) (x y : number) :
  x == y -> fold_left Qplus (products a b) x == fold_left Qplus (products b a) y.
Proof.
  revert b x y. induction a as [|p a IH]; intros [|q b] x y E; cbn; try exact E.
  apply IH. rewrite E. rewrite (Qmult_comm p q). reflexivity.
Qed.

Lemma dot_comm (a b : list number) : Embeddings.dot a b == Embeddings.dot b a.
Proof. apply (products_sum_comm a b). reflexivity. Qed.

(** X8.  [cosineSimilarity] does not depend on the order of its arguments:
    on vectors of different lengths both orders throw the same error, and on
    vectors of one length both return the same number. *)
Theorem cosineSimilarity_symmetric (a b : list number) :
  same_score (Embeddings.cosineSimilarity a b) (Embeddings.cosineSimilarity b a).
Proof.
  destruct (Nat.eq_dec (length a) (length b)) as [E|E].
  - rewrite (cosineSimilarity_equal_length a b E).
    rewrite (cosineSimilarity_equal_length b a (eq_sym E)).
    destruct (Qeq_bool (Embeddings.magnitude a) 0), (Qeq_bool (Embeddings.magnitude b) 0);
      cbn; try reflexivity.
    rewrite (dot_comm a b).
    rewrite (Qmult_comm (Embeddings.magnitude a) (Embeddings.magnitude b)).
    reflexivity.
  - rewrite (cosineSimilarity_mismatch a b E).
    rewrite (cosineSimilarity_mismatch b a (fun E' => E (eq_sym E'))).
    reflexivity.
Qed.

(** X9.  A vector is as similar to itself as can be: when [Math.sqrt] gives
    the exact root of its squared length and that root is not 0,
    [cosineSimilarity] of the vector with itself returns 1. *)
Theorem cosineSimilarity_self (a : list number) :
  Embeddings.magnitude a * Embeddings.magnitude a == Embeddings.dot a a ->
  ~ Embeddings.magnitude a == 0 ->
  exists s, Embeddings.cosineSimilarity a a = Returned s /\ s == 1.
Proof.
  intros Hsq Hnz. rewrite (cosineSimilarity_equal_length a a eq_refl).
  destruct (Qeq_bool (Embeddings.magnitude a) 0) eqn:E;
    [apply Qeq_bool_iff in E; contradiction|].
  cbn. eexists. split; [reflexivity|].
  rewrite <- Hsq. field. exact Hnz.
Qed.

End CosineSymmetry.

(** ** The memory store: adding and removing *)

Section CollectionUpdates.

Context `{Platform}.

Lemma addMemory_settles (memory : PartialMemory.t) (w : World) :
  exists n,
    MemoryStore.addMemory memory w =
    let new := newMemory memory (settled_id memory w) (settled_timestamp memory w) in
    (VectorStore.addMemory new ;;;
     MemoryStore.set (fun state =>
       MemoryState.set_memories state (placed (MemoryState.memories state) new)))%js
      (with_calls w n).
Proof.
  unfold MemoryStore.addMemory, settled_id, settled_timestamp, calls_after_id.
  destruct memory as [mid mtype mcontent msource mts mconf mconns mmd]. cbn.
  assert (W : forall w0 : World, with_calls w0 (calls w0) = w0) by (intros []; reflexivity).
  unfold bind at 1.
  destruct mid as [i|]; [destruct (MemoryStore.string_truthy i)|]; cbn;
    unfold bind at 1;
    (destruct mts as [t|]; [destruct (truthy t)|]); cbn;
    eexists; try reflexivity;
    try (rewrite <- (W w) at 1; reflexivity).
Qed.

(** The upsert of the vector store, whatever its outcome: the zustand state
    stays, no id leaves the array, and a success adds the id. *)
Lemma addMemory_frame (m : Memory.t) (w : World) :
  store (snd (VectorStore.addMemory m w)) = store w
  /\ (forall x, In x (map StoredMemory.id (vectors w)) ->
                In x (map StoredMemory.id (vectors (snd (VectorStore.addMemory m w)))))
  /\ (fst (VectorStore.addMemory m w) = Returned tt ->
      In (Memory.id m) (map StoredMemory.id (vectors (snd (VectorStore.addMemory m w)))))
  /\ (forall e, fst (VectorStore.addMemory m w) = Thrown e ->
                vectors (snd (VectorStore.addMemory m w)) = vectors w).
Proof.
  destruct (embed (Memory.content m)) as [v|] eqn:Ev.
  - rewrite (@addMemory_ok _ m w v Ev). cbn [fst snd]. cbn zeta.
    assert (V : forall vs, vectors (if full w
                then with_console (with_vectors w vs)
                       ("Failed to save vector store to storage:" :: console w)
                else with_item (with_vectors w vs) (Json vs)) = vs
              /\ store (if full w
                then with_console (with_vectors w vs)
                       ("Failed to save vector store to storage:" :: console w)
                else with_item (with_vectors w vs) (Json vs)) = store w)
      by (intros; destruct (full w); split; reflexivity).
    destruct (V (upserted (vectors w) (VectorStore.toStored m v))) as [-> ->].
    split; [reflexivity|]. split; [|split].
    + intros x Hx. apply (upserted_ids_In (vectors w) (VectorStore.toStored m v) x). now left.
    + intros _. apply (upserted_ids_In (vectors w) (VectorStore.toStored m v)). now right.
    + intros e Habs. discriminate.
  - destruct (@embed_None_throws _ _ w Ev) as (e & w1 & E).
    destruct (@generateEmbedding_thrown _ _ _ _ _ E) as (Hv & _ & Hs & _).
    rewrite (@addMemory_thrown _ m w w1 e E). cbn. rewrite Hv, Hs.
    split; [reflexivity|]. split; [auto|]. split; [discriminate | reflexivity].
Qed.

Lemma placed_In (ms : list Memory.t) (new m : Memory.t) :
  In m (placed ms new) -> In m ms \/ m = new.
Proof.
  unfold placed. intros Hm. apply sort_In in Hm. apply in_app_iff in Hm.
  destruct Hm as [Hm|[<-|[]]]; [|now right].
  apply filter_In in Hm. now left.
Qed.

Lemma placed_perm (ms : list Memory.t) (new : Memory.t) :
  Memory.id new <> "" ->
  Permutation (placed ms new)
    (filter (fun m => negb (String.eqb (Memory.id m) (Memory.id new))) ms ++ [new]).
Proof.
  intros Hid. unfold placed, MemoryStore.string_truthy.
  apply String.eqb_neq in Hid. rewrite Hid. cbn [negb]. apply sort_perm.
Qed.

(** X10.  The state that [addMemory] of the memory store leaves when the
    content embeds: the memory is in the collection under the id it settled
    on (the given one unless it is empty) and the timestamp it settled on
    (the given one unless it is 0).  The collection is in descending order
    of timestamp whatever its order was; when the id is not empty the
    collection is the memories of the other ids and the new one, so that
    distinct ids stay distinct; and the vector store has a record of the
    id. *)
Theorem addMemory_places (memory : PartialMemory.t) (w : World) (v : list number) :
  embed (PartialMemory.content memory) = Some v ->
  let id := settled_id memory w in
  let new := newMemory memory id (settled_timestamp memory w) in
  let w' := snd (MemoryStore.addMemory memory w) in
    Descending Memory.timestamp (MemoryState.memories (store w'))
    /\ In new (MemoryState.memories (store w'))
    /\ In id (map StoredMemory.id (vectors w'))
    /\ (id <> "" ->
        Permutation (MemoryState.memories (store w'))
          (filter (fun m => negb (String.eqb (Memory.id m) id))
                  (MemoryState.memories (store w)) ++ [new])
        /\ (NoDup (memory_ids (MemoryState.memories (store w))) ->
            NoDup (memory_ids (MemoryState.memories (store w'))))).
Proof.
  intros Ev. cbn zeta.
  destruct (addMemory_settles memory w) as (n & ->). cbn zeta.
  set (new := newMemory memory _ _).
  set (w0 := with_calls w n).
  unfold bind. rewrite (@addMemory_ok _ new w0 v Ev). cbn zeta.
  set (w1 := if full w0 then _ else _).
  assert (Hs1 : store w1 = store w) by (unfold w1; destruct (full w0); reflexivity).
  assert (Hv1 : vectors w1 = upserted (vectors w) (VectorStore.toStored new v))
    by (unfold w1; destruct (full w0); reflexivity).
  cbn. rewrite Hs1, Hv1.
  split; [exact (@sort_Descending _ Memory.timestamp _)|].
  split.
  { unfold placed. apply sort_In. apply in_or_app. right. now left. }
  split.
  { apply (upserted_ids_In (vectors w) (VectorStore.toStored new v)). now right. }
  intros Hid.
  pose proof (placed_perm (MemoryState.memories (store w)) new Hid) as Hp.
  split; [exact Hp|].
  intros Hnd. unfold memory_ids.
  apply (Permutation_NoDup (Permutation_map Memory.id (Permutation_sym Hp))).
  rewrite map_app. apply NoDup_app.
  - apply NoDup_map_filter. exact Hnd.
  - constructor; [intros [] | constructor].
  - intros x Hx [<-|[]]. apply in_map_iff in Hx. destruct Hx as (m & Em & Hm).
    apply filter_In in Hm. destruct Hm as [_ Hm]. rewrite Em, String.eqb_refl in Hm.
    discriminate.
Qed.

Lemma removeMemory_eq (id : string) (w : World) :
  exists w1,
    VectorStore.deleteMemory id w = (Returned tt, w1)
    /\ vectors w1 = filter (fun m => negb (String.eqb (StoredMemory.id m) id)) (vectors w)
    /\ store w1 = store w
    /\ MemoryStore.removeMemory id w =
       (Returned tt,
        with_store w1
          (MemoryState.set_memories (store w1)
             (filter (fun m => negb (String.eqb (Memory.id m) id))
                     (MemoryState.memories (store w1))))).
Proof.
  unfold MemoryStore.removeMemory, bind. rewrite deleteMemory_eq, saveToStorage_eq. cbn.
  destruct (full w); eexists; repeat split.
Qed.

(** X11.  [removeMemory] removes the id from both sides: in the state it
    leaves neither the collection nor the vector store holds the id, and the
    memories and the records of the other ids are the old ones in their
    order. *)
Theorem removeMemory_removes (id : string) (w : World) :
  let w' := snd (MemoryStore.removeMemory id w) in
    MemoryState.memories (store w')
       = filter (fun m => negb (String.eqb (Memory.id m) id)) (MemoryState.memories (store w))
    /\ vectors w'
       = filter (fun m => negb (String.eqb (StoredMemory.id m) id)) (vectors w)
    /\ ~ In id (memory_ids (MemoryState.memories (store w')))
    /\ ~ In id (map StoredMemory.id (vectors w')).
Proof.
  cbn zeta. destruct (removeMemory_eq id w) as (w1 & _ & Hv & Hs & ->).
  cbn. rewrite Hs, Hv.
  split; [reflexivity|]. split; [reflexivity|]. split.
  - intros Hin. apply in_map_iff in Hin. destruct Hin as (m & Em & Hm).
    apply filter_In in Hm. destruct Hm as [_ Hm]. rewrite Em, String.eqb_refl in Hm.
    discriminate.
  - intros Hin. apply in_map_iff in Hin. destruct Hin as (m & Em & Hm).
    apply filter_In in Hm. destruct Hm as [_ Hm]. rewrite Em, String.eqb_refl in Hm.
    discriminate.
Qed.

End CollectionUpdates.

(** ** The memory store: connections *)

Section ConnectionUpdates.

Lemma removeConnection_eq (sourceId targetId : string) (w : World) :
  MemoryStore.removeConnection sourceId targetId w =
  (Returned tt,
   with_store w
     (MemoryState.set_memories (store w)
        (map (disconnect sourceId targetId) (MemoryState.memories (store w))))).
Proof. reflexivity. Qed.

Lemma with_connections_same (m : Memory.t) :
  MemoryStore.with_connections m (Memory.connections m) = m.
Proof. destruct m; reflexivity. Qed.

Lemma set_memories_same (w : World) :
  with_store w (MemoryState.set_memories (store w) (MemoryState.memories (store w))) = w.
Proof. destruct w as [vs it d f st c n]. destruct st. reflexivity. Qed.

Lemma edges_to_others (b c : string) (conns : list Connection.t) :
  c <> b ->
  edges_to c (filter (fun conn => negb (String.eqb (Connection.targetId conn) b)) conns)
  = edges_to c conns.
Proof.
  intros Hc. induction conns as [|x t IH]; [reflexivity|]. cbn.
  destruct (String.eqb (Connection.targetId x) b) eqn:Eb; cbn.
  - destruct (String.eqb (Connection.targetId x) c) eqn:Ec; [|exact IH].
    apply String.eqb_eq in Eb, Ec. congruence.
  - destruct (String.eqb (Connection.targetId x) c); [f_equal|]; exact IH.
Qed.

Lemma edges_to_removed (b : string) (conns : list Connection.t) :
  edges_to b (filter (fun conn => negb (String.eqb (Connection.targetId conn) b)) conns) = [].
Proof.
  induction conns as [|x t IH]; [reflexivity|]. cbn.
  destruct (String.eqb (Connection.targetId x) b) eqn:Eb; cbn; [exact IH|].
  rewrite Eb. exact IH.
Qed.

Lemma disconnect_disconnected (a b : string) (m : Memory.t) :
  disconnected a b m (disconnect a b m).
Proof.
  unfold disconnected, disconnect.
  destruct (String.eqb (Memory.id m) a) eqn:E.
  - split; [reflexivity|]. split.
    + intros _. cbn. split; [apply edges_to_removed|].
      intros c Hc. apply edges_to_others. exact Hc.
    + apply String.eqb_eq in E. tauto.
  - split; [symmetry; apply with_connections_same|]. split; [|reflexivity].
    apply String.eqb_neq in E. tauto.
Qed.

Lemma disconnect_idem (a b : string) (m : Memory.t) :
  disconnect a b (disconnect a b m) = disconnect a b m.
Proof.
  unfold disconnect at 2.
  destruct (String.eqb (Memory.id m) a) eqn:E.
  - unfold disconnect. cbn. rewrite E. unfold MemoryStore.with_connections. cbn.
    f_equal. induction (Memory.connections m) as [|x t IH]; [reflexivity|]. cbn.
    destruct (String.eqb (Connection.targetId x) b) eqn:Eb; cbn; [exact IH|].
    rewrite Eb. cbn. f_equal. exact IH.
  - unfold disconnect. rewrite E. reflexivity.
Qed.

(** X12.  [removeConnection(A, B)] touches the connections of the memories
    of id [A] only: in the state it leaves they have no edge to [B] and
    their edges to every other target are the old ones; every other memory,
    and the vector store, are what they were.  A second call leaves that
    state as it is. *)
Theorem removeConnection_removes (A B : string) (w : World) :
  let w' := snd (MemoryStore.removeConnection A B w) in
    vectors w' = vectors w /\ item w' = item w /\ console w' = console w
    /\ Forall2 (disconnected A B)
         (MemoryState.memories (store w)) (MemoryState.memories (store w'))
    /\ snd (MemoryStore.removeConnection A B w') = w'.
Proof.
  cbn zeta. rewrite (removeConnection_eq A B w). cbn [snd].
  split; [reflexivity|]. split; [reflexivity|]. split; [reflexivity|]. split.
  - cbn. induction (MemoryState.memories (store w)) as [|m t IH]; cbn; constructor.
    + apply disconnect_disconnected.
    + exact IH.
  - rewrite removeConnection_eq. cbn. rewrite map_map.
    rewrite (map_ext _ _ (disconnect_idem A B)). reflexivity.
Qed.

Lemma upsert_absent (conns : list Connection.t) (new : Connection.t) :
  ~ In (Connection.targetId new) (targets conns) -> upsert conns new = conns ++ [new].
Proof.
  induction conns as [|c cs IH]; intros Hn; [reflexivity|].
  rewrite upsert_cons. cbn in Hn.
  destruct (String.eqb (Connection.targetId c) (Connection.targetId new)) eqn:E.
  - apply String.eqb_eq in E. tauto.
  - cbn. f_equal. apply IH. tauto.
Qed.

Lemma filter_targets_absent (b : string) (conns : list Connection.t) :
  ~ In b (targets conns) ->
  filter (fun conn => negb (String.eqb (Connection.targetId conn) b)) conns = conns.
Proof.
  induction conns as [|c cs IH]; intros Hn; [reflexivity|]. cbn in *.
  destruct (String.eqb (Connection.targetId c) b) eqn:E; cbn.
  - apply String.eqb_eq in E. tauto.
  - f_equal. apply IH. tauto.
Qed.

Lemma disconnect_connect (a b : string) (type : ConnectionType) (strength : number)
  (description : option string) (m : Memory.t) :
  (Memory.id m = a -> ~ In b (targets (Memory.connections m))) ->
  disconnect a b (MemoryStore.connect a b type strength description m) = m.
Proof.
  intros Hn. unfold disconnect. rewrite connect_id.
  destruct (String.eqb (Memory.id m) a) eqn:E.
  - apply String.eqb_eq in E. rewrite (connect_source b type strength description m E).
    rewrite upsert_absent by (cbn; auto).
    rewrite filter_app. cbn. rewrite String.eqb_refl. cbn. rewrite app_nil_r.
    rewrite filter_targets_absent by auto.
    unfold MemoryStore.connect. rewrite (proj2 (String.eqb_eq _ _) E).
    destruct m; reflexivity.
  - apply String.eqb_neq in E. apply connect_other. exact E.
Qed.

(** X13.  Where no memory of id [A] has an edge to [B], [addConnection(A, B,
    ...)] followed by [removeConnection(A, B)] gives back the state that was
    there. *)
Theorem connection_round_trip (A B : string) (type : ConnectionType) (strength : number)
  (description : option string) (w : World) :
  (forall m, In m (MemoryState.memories (store w)) -> Memory.id m = A ->
             ~ In B (targets (Memory.connections m))) ->
  exists w1,
    MemoryStore.addConnection A B type strength description w = (Returned tt, w1)
    /\ MemoryStore.removeConnection A B w1 = (Returned tt, w).
Proof.
  intros Hn. eexists. split; [apply addConnection_eq|].
  rewrite removeConnection_eq. cbn. rewrite map_map.
  assert (E : map (fun m => disconnect A B
                     (MemoryStore.connect A B type strength description m))
                  (MemoryState.memories (store w))
              = MemoryState.memories (store w)).
  { rewrite <- (map_id (MemoryState.memories (store w))) at 2.
    apply map_ext_in. intros m Hm. apply disconnect_connect. auto. }
  rewrite E. f_equal.
  destruct w as [vs it d f st c n]. destruct st. reflexivity.
Qed.

Lemma NoDup_targets_filter (keep : Connection.t -> bool) (conns : list Connection.t) :
  NoDup (targets conns) -> NoDup (targets (filter keep conns)).
Proof. apply NoDup_map_filter. Qed.

(** X14.  The invariant of the data model, at most one edge per target in
    every memory, is kept by [addConnection], [removeConnection] and
    [removeMemory]. *)
Theorem single_edged_kept (w : World) :
  (forall m, In m (MemoryState.memories (store w)) -> single_edged m) ->
  (forall A B type strength description m,
      In m (MemoryState.memories
              (store (snd (MemoryStore.addConnection A B type strength description w)))) ->
      single_edged m)
  /\ (forall A B m,
      In m (MemoryState.memories (store (snd (MemoryStore.removeConnection A B w)))) ->
      single_edged m)
  /\ (forall id m,
      In m (MemoryState.memories (store (snd (MemoryStore.removeMemory id w)))) ->
      single_edged m).
Proof.
  intros Hinv. split; [|split].
  - intros A B type strength description m Hm. rewrite addConnection_eq in Hm. cbn in Hm.
    apply in_map_iff in Hm. destruct Hm as (m0 & <- & Hm0). unfold single_edged.
    destruct (String.eqb (Memory.id m0) A) eqn:E.
    + apply String.eqb_eq in E. rewrite (connect_source B type strength description m0 E).
      apply upsert_NoDup, Hinv, Hm0.
    + apply String.eqb_neq in E. rewrite connect_other by exact E. apply Hinv, Hm0.
  - intros A B m Hm. rewrite removeConnection_eq in Hm. cbn in Hm.
    apply in_map_iff in Hm. destruct Hm as (m0 & <- & Hm0). unfold single_edged, disconnect.
    destruct (String.eqb (Memory.id m0) A); [|apply Hinv, Hm0].
    cbn. apply NoDup_targets_filter, Hinv, Hm0.
  - intros id m Hm. unfold MemoryStore.removeMemory, bind in Hm.
    destruct (VectorStore.deleteMemory id w) as [[[]|e] w1] eqn:E.
    + cbn in Hm. apply filter_In in Hm. destruct Hm as [Hm _].
      rewrite deleteMemory_eq in E.
      pose proof (saveToStorage_vectors
        (with_vectors w (filter (fun m => negb (String.eqb (StoredMemory.id m) id)) (vectors w))))
        as (_ & _ & Hs & _).
      rewrite E in Hs. cbn in Hs. rewrite Hs in Hm. apply Hinv, Hm.
    + cbn in Hm. rewrite deleteMemory_eq in E.
      pose proof (saveToStorage_vectors
        (with_vectors w (filter (fun m => negb (String.eqb (StoredMemory.id m) id)) (vectors w))))
        as (Hr & _). rewrite E in Hr. discriminate.
Qed.

End ConnectionUpdates.

(** ** The memory store and the vector store together *)

Section BackedFacts.

Context `{Platform}.

Lemma backed_ids (w w' : World) :
  (forall m, In m (MemoryState.memories (store w')) ->
             exists m0, In m0 (MemoryState.memories (store w)) /\ Memory.id m0 = Memory.id m) ->
  (forall x, In x (map StoredMemory.id (vectors w)) ->
             In x (map StoredMemory.id (vectors w'))) ->
  backed w -> backed w'.
Proof.
  intros Hm Hv Hb m Hin. destruct (Hm m Hin) as (m0 & Hm0 & <-). apply Hv, Hb, Hm0.
Qed.

(** X15.  The memory store and the vector store stay in step: when every
    memory of the collection has a record of its id in the vector store, the
    same holds after [addMemory] (whether the embedding succeeds or not),
    [removeMemory], [clearMemories], [addConnection] and
    [removeConnection]. *)
Theorem memories_stay_backed (w : World) :
  backed w ->
  (forall memory, backed (snd (MemoryStore.addMemory memory w)))
  /\ (forall id, backed (snd (MemoryStore.removeMemory id w)))
  /\ backed (snd (MemoryStore.clearMemories w))
  /\ (forall A B type strength description,
        backed (snd (MemoryStore.addConnection A B type strength description w)))
  /\ (forall A B, backed (snd (MemoryStore.removeConnection A B w))).
Proof.
  intros Hb. split; [|split; [|split; [|split]]].
  - intros memory. destruct (addMemory_settles memory w) as (n & ->). cbn zeta.
    set (new := newMemory memory _ _). set (w0 := with_calls w n).
    destruct (addMemory_frame new w0) as (Hs & Hv & Hok & _).
    unfold bind. destruct (VectorStore.addMemory new w0) as [[[]|e] w1]; cbn in *.
    + intros m Hm. rewrite Hs in Hm. apply placed_In in Hm. destruct Hm as [Hm| ->].
      * apply Hv, Hb, Hm.
      * apply Hok. reflexivity.
    + intros m Hm. rewrite Hs in Hm. apply Hv, Hb, Hm.
  - intros id. destruct (removeMemory_eq id w) as (w1 & _ & Hv & Hs & ->). cbn.
    intros m Hm. cbn in Hm. rewrite Hs in Hm. apply filter_In in Hm. destruct Hm as [Hm Hne].
    cbn. rewrite Hv. apply in_map_iff. specialize (Hb m Hm). apply in_map_iff in Hb.
    destruct Hb as (s & Es & Hin). exists s. split; [exact Es|].
    apply filter_In. split; [exact Hin|]. now rewrite Es.
  - unfold MemoryStore.clearMemories, VectorStore.clear, bind, modify.
    rewrite saveToStorage_eq. cbn. destruct (full w); intros m [].
  - intros A B type strength description. rewrite addConnection_eq. cbn.
    apply (@backed_ids w); [|auto|exact Hb].
    cbn. intros m Hm. apply in_map_iff in Hm. destruct Hm as (m0 & <- & Hm0).
    exists m0. split; [exact Hm0|]. now rewrite connect_id.
  - intros A B. rewrite removeConnection_eq. cbn.
    apply (@backed_ids w); [|auto|exact Hb].
    cbn. intros m Hm. apply in_map_iff in Hm. destruct Hm as (m0 & <- & Hm0).
    exists m0. split; [exact Hm0|].
    unfold disconnect. destruct (String.eqb (Memory.id m0) A); reflexivity.
Qed.

Lemma retag_id (id : string) (tags : list string) (m : Memory.t) :
  Memory.id (retag id tags m) = Memory.id m.
Proof. unfold retag. destruct (String.eqb (Memory.id m) id); reflexivity. Qed.

Lemma findMemory_map (f : Memory.t -> Memory.t) (ms : list Memory.t) (id : string) :
  (forall m, Memory.id (f m) = Memory.id m) ->
  MemoryStore.findMemory (map f ms) id = option_map f (MemoryStore.findMemory ms id).
Proof.
  intros Hf. unfold MemoryStore.findMemory.
  induction ms as [|m t IH]; [reflexivity|]. cbn. rewrite Hf.
  destruct (String.eqb (Memory.id m) id); [reflexivity | exact IH].
Qed.

Lemma findMemory_None (ms : list Memory.t) (id : string) :
  MemoryStore.findMemory ms id = None <-> ~ In id (memory_ids ms).
Proof.
  unfold MemoryStore.findMemory, memory_ids. induction ms as [|m t IH]; cbn; [tauto|].
  destruct (String.eqb (Memory.id m) id) eqn:E.
  - apply String.eqb_eq in E. split; [discriminate | tauto].
  - apply String.eqb_neq in E. rewrite IH. tauto.
Qed.

Lemma retag_absent (id : string) (tags : list string) (ms : list Memory.t) :
  ~ In id (memory_ids ms) -> map (retag id tags) ms = ms.
Proof.
  unfold memory_ids. induction ms as [|m t IH]; cbn; intros Hn; [reflexivity|].
  unfold retag at 1. destruct (String.eqb (Memory.id m) id) eqn:E.
  - apply String.eqb_eq in E. tauto.
  - f_equal. apply IH. tauto.
Qed.

Lemma updateMemoryTags_eq (id : string) (tags : list string) (w : World) :
  MemoryStore.updateMemoryTags id tags w =
  let updatedMemories := map (retag id tags) (MemoryState.memories (store w)) in
  match MemoryStore.findMemory (MemoryState.memories (store w)) id with
  | Some memory =>
      let w1 := snd (VectorStore.addMemory (MemoryStore.with_tags memory tags) w) in
      let w2 := match fst (VectorStore.addMemory (MemoryStore.with_tags memory tags) w) with
                | Returned _ => w1
                | Thrown (mkError message) => with_console w1 (message :: console w1)
                end in
      (Returned tt, with_store w2 (MemoryState.set_memories (store w2) updatedMemories))
  | None =>
      (Returned tt, with_store w (MemoryState.set_memories (store w) updatedMemories))
  end.
Proof.
  unfold MemoryStore.updateMemoryTags. unfold bind at 1. unfold get. cbn zeta.
  fold (retag id tags).
  rewrite (findMemory_map (retag id tags) _ id (retag_id id tags)).
  destruct (MemoryStore.findMemory (MemoryState.memories (store w)) id) as [memory|] eqn:Ef;
    cbn [option_map]; [|reflexivity].
  destruct (findMemory_id _ _ Ef) as [Hid _].
  unfold retag at 1. rewrite (proj2 (String.eqb_eq _ _) Hid).
  unfold bind, try_catch.
  destruct (VectorStore.addMemory (MemoryStore.with_tags memory tags) w) as [[[]|[message]] w1];
    reflexivity.
Qed.

(** X16.  The state that [updateMemoryTags(id, tags)] leaves once the
    re-upsert has settled, whether the embedding succeeds or fails: every
    memory of this id carries the new tags and is otherwise the old one,
    every other memory is the old one, and the collection keeps its order;
    the vector store loses no id, so that a collection that was in step with
    the vector store stays so.  For an id that the collection does not have,
    the collection, the vector store and the console are what they were. *)
Theorem updateMemoryTags_retags (id : string) (tags : list string) (w : World) :
  let w' := snd (MemoryStore.updateMemoryTags id tags w) in
    MemoryState.memories (store w')
       = map (fun m => if String.eqb (Memory.id m) id
                       then MemoryStore.with_tags m tags else m)
             (MemoryState.memories (store w))
    /\ memory_ids (MemoryState.memories (store w'))
       = memory_ids (MemoryState.memories (store w))
    /\ (forall m, In m (MemoryState.memories (store w')) -> Memory.id m = id ->
          Metadata.tags (Memory.metadata m) = Some tags)
    /\ (forall x, In x (map StoredMemory.id (vectors w)) ->
                  In x (map StoredMemory.id (vectors w')))
    /\ (backed w -> backed w')
    /\ (~ In id (memory_ids (MemoryState.memories (store w))) -> w' = w).
Proof.
  cbn zeta. rewrite updateMemoryTags_eq. cbn zeta.
  assert (Hids : memory_ids (map (retag id tags) (MemoryState.memories (store w)))
                 = memory_ids (MemoryState.memories (store w))).
  { unfold memory_ids. rewrite map_map. apply map_ext. apply retag_id. }
  assert (Htags : forall m, In m (map (retag id tags) (MemoryState.memories (store w))) ->
            Memory.id m = id -> Metadata.tags (Memory.metadata m) = Some tags).
  { intros m Hm Hid. apply in_map_iff in Hm. destruct Hm as (m0 & <- & _).
    rewrite retag_id in Hid. unfold retag. rewrite (proj2 (String.eqb_eq _ _) Hid).
    reflexivity. }
  assert (Hback : forall w2,
            (forall x, In x (map StoredMemory.id (vectors w)) ->
                       In x (map StoredMemory.id (vectors w2))) ->
            backed w ->
            backed (with_store w2
                      (MemoryState.set_memories (store w2)
                         (map (retag id tags) (MemoryState.memories (store w)))))).
  { intros w2 Hv Hb. apply (@backed_ids w); [|exact Hv|exact Hb].
    cbn. intros m Hm. apply in_map_iff in Hm. destruct Hm as (m0 & <- & Hm0).
    exists m0. split; [exact Hm0 | now rewrite retag_id]. }
  destruct (MemoryStore.findMemory (MemoryState.memories (store w)) id) as [memory|] eqn:Ef.
  - destruct (addMemory_frame (MemoryStore.with_tags memory tags) w) as (Hs & Hv & _ & _).
    destruct (VectorStore.addMemory (MemoryStore.with_tags memory tags) w)
      as [[[]|[message]] w1]; cbn in *.
    + split; [reflexivity|]. split; [exact Hids|]. split; [exact Htags|].
      split; [exact Hv|]. split; [apply (Hback w1 Hv)|].
      intros Hn. apply findMemory_None in Hn. congruence.
    + split; [reflexivity|]. split; [exact Hids|]. split; [exact Htags|].
      split; [exact Hv|]. split; [apply (Hback (with_console w1 (message :: console w1)) Hv)|].
      intros Hn. apply findMemory_None in Hn. congruence.
  - cbn. split; [reflexivity|]. split; [exact Hids|]. split; [exact Htags|].
    split; [auto|]. split; [apply (Hback w); auto|].
    intros Hn. rewrite (retag_absent id tags _ Hn). apply set_memories_same.
Qed.

End BackedFacts.

(** ** The related memories: where they come from *)

Section RelatedSources.

Context `{Platform}.

Lemma ranked_In (memories : list Memory.t) (semanticMemories : Map Match.t)
  (rel : MemoryStore.Relations) (it : Ranked.t) :
  In it (MemoryStore.ranked memories semanticMemories rel) ->
  In (Ranked.memory it) memories
  /\ In (Memory.id (Ranked.memory it)) (MemoryStore.relatedIds rel).
Proof.
  unfold MemoryStore.ranked. intros Hin. apply sort_In in Hin.
  apply filter_null_In in Hin. destruct Hin as (c & Hc & E).
  destruct (combine_strengths_Some _ _ _ _ E) as (Hf & Hid & _).
  destruct (findMemory_id _ _ Hf) as [_ Hm]. rewrite Hid. auto.
Qed.

Lemma semanticOnly_matches (similar : list Match.t) (rel : MemoryStore.Relations)
  (m : Memory.t) :
  In m (MemoryStore.semanticOnly (MemoryStore.semanticMap similar) rel) ->
  exists x, In x similar /\ m = Match.memory x.
Proof.
  unfold MemoryStore.semanticOnly. intros Hin. apply in_map_iff in Hin.
  destruct Hin as (e & <- & He). apply filter_In in He. destruct He as [He _].
  apply semanticMap_entries in He. destruct He as [He _].
  exists (snd e). split; [exact He | reflexivity].
Qed.

(** X17.  [getRelatedMemories] never throws and changes nothing but the
    console.  Every memory it returns is either a memory of the collection
    that has an edge to or from the target, or the projection of a record of
    the vector store; for an id that the collection does not have, the
    answer is empty. *)
Theorem getRelatedMemories_reads_only (id : string) (w : World) :
  exists result w',
    MemoryStore.getRelatedMemories id w = (Returned result, w')
    /\ vectors w' = vectors w /\ item w' = item w /\ store w' = store w
    /\ calls w' = calls w
    /\ (forall m, In m result ->
          (In m (MemoryState.memories (store w))
           /\ exists target,
                MemoryStore.findMemory (MemoryState.memories (store w)) id = Some target
                /\ explicit_strengths (MemoryState.memories (store w)) target id (Memory.id m)
                   <> [])
          \/ exists s, In s (vectors w) /\ m = projection s)
    /\ (~ In id (memory_ids (MemoryState.memories (store w))) -> result = [] /\ w' = w).
Proof.
  destruct (MemoryStore.findMemory (MemoryState.memories (store w)) id) as [target|] eqn:Ef.
  - destruct (findSimilarMemories_returns (Memory.content target)
                VectorStore.default_limit VectorStore.default_minSimilarity w)
      as (similar & w' & Es).
    destruct (findSimilarMemories_world _ _ _ _ Es) as (Hv & Hc & Hs & Hi).
    do 2 eexists. split; [exact (getRelatedMemories_found id w Ef Es)|].
    repeat (split; [assumption|]). split.
    + intros m Hm. apply in_app_iff in Hm. destruct Hm as [Hm|Hm].
      * left. apply in_map_iff in Hm. destruct Hm as (it & <- & Hit).
        apply ranked_In in Hit. destruct Hit as [Hin Hrel].
        split; [exact Hin|]. exists target. split; [reflexivity|].
        apply (relations_ids (MemoryState.memories (store w)) target id). exact Hrel.
      * right. apply semanticOnly_matches in Hm. destruct Hm as (x & Hx & ->).
        exact (findSimilarMemories_projections _ _ _ _ Es x Hx).
    + intros Hn. apply findMemory_None in Hn. congruence.
  - exists [], w. split; [exact (getRelatedMemories_absent id w Ef)|].
    repeat (split; [reflexivity|]). split; [intros m []|]. auto.
Qed.

Lemma findMemory_Some_ranked (memories : list Memory.t) (semanticMemories : Map Match.t)
  (rel : MemoryStore.Relations) (c : string) (m : Memory.t) :
  In c (MemoryStore.relatedIds rel) ->
  MemoryStore.findMemory memories c = Some m ->
  In c (map Memory.id (map Ranked.memory (MemoryStore.ranked memories semanticMemories rel))).
Proof.
  intros Hc Ef. rewrite map_map. unfold MemoryStore.ranked.
  apply (sort_map_In MemoryStore.byStrength (fun it => Memory.id (Ranked.memory it))).
  rewrite ranked_ids. apply filter_In. split; [exact Hc|]. now rewrite Ef.
Qed.

(** X18.  A memory is listed among its own related memories whenever the
    search on its content matches the record of its id: nothing in
    [getRelatedMemories] leaves the target out. *)
Theorem getRelatedMemories_lists_target (id : string) (w w' : World) (target : Memory.t)
  (similar : list Match.t) :
  MemoryStore.findMemory (MemoryState.memories (store w)) id = Some target ->
  VectorStore.findSimilarMemories (Memory.content target)
    VectorStore.default_limit VectorStore.default_minSimilarity w = (Returned similar, w') ->
  In id (matched_ids similar) ->
  exists result,
    MemoryStore.getRelatedMemories id w = (Returned result, w')
    /\ In id (map Memory.id result).
Proof.
  intros Ef Es Hid. eexists. split; [exact (getRelatedMemories_found id w Ef Es)|].
  cbn zeta. rewrite map_app. apply in_or_app.
  set (rel := MemoryStore.relations (MemoryState.memories (store w)) target id).
  destruct (Set_has (MemoryStore.relatedIds rel) id) eqn:E.
  - left. apply Set_has_In in E. exact (@findMemory_Some_ranked _ _ _ _ _ E Ef).
  - right. rewrite semanticOnly_ids. apply filter_In. split.
    + apply Map_of_keys. unfold matched_ids in Hid. rewrite map_map. cbn.
      rewrite <- map_map in Hid. rewrite map_map in Hid. exact Hid.
    + rewrite E. reflexivity.
Qed.

End RelatedSources.

(** ** The memory service: what an extraction can and cannot do *)

Section ExtractionRuns.

Context `{Platform}.

Lemma grows_refl (w : World) : grows w w.
Proof. split; auto. Qed.

Lemma grows_trans (w1 w2 w3 : World) : grows w1 w2 -> grows w2 w3 -> grows w1 w3.
Proof. intros [S1 V1] [S2 V2]. split; [congruence | auto]. Qed.

Lemma grows_same (w w' : World) :
  store w' = store w -> vectors w' = vectors w -> grows w w'.
Proof. intros Hs Hv. split; [exact Hs|]. rewrite Hv. auto. Qed.

(** The whole of [extractMemories], one step after the other. *)
Lemma extractMemories_run (conversation : string) (existingMemories : list Memory.t)
  (w w0 : World) (similar : list Match.t) :
  VectorStore.findSimilarMemories conversation 5 VectorStore.default_minSimilarity w
    = (Returned similar, w0) ->
  let relevantMemories := existingMemories ++ map Match.memory similar in
  MemoryService.extractMemories conversation existingMemories w =
  match openRouter (MemoryService.prompt_of relevantMemories conversation) with
  | Thrown _ => (Returned [], with_console w0 (extract_label :: console w0))
  | Returned response =>
      match JSON_parse response with
      | None => (Returned [], with_console w0 (parse_label :: console w0))
      | Some parsed =>
          match map_M (MemoryService.candidate conversation relevantMemories) parsed w0 with
          | (Thrown _, w1) => (Returned [], with_console w1 (parse_label :: console w1))
          | (Returned memories, w1) =>
              match for_of memories MemoryService.persist w1 with
              | (Returned _, w2) => (Returned memories, w2)
              | (Thrown _, w2) => (Returned [], with_console w2 (parse_label :: console w2))
              end
          end
      end
  end.
Proof.
  intros Hsim relevantMemories.
  unfold MemoryService.extractMemories, try_catch at 1, bind at 1.
  rewrite Hsim. cbn match. unfold bind at 1, lift. fold relevantMemories.
  destruct (openRouter (MemoryService.prompt_of relevantMemories conversation))
    as [response|e]; cbn match; [|reflexivity].
  unfold try_catch, bind at 1.
  destruct (JSON_parse response) as [parsed|]; cbn; [|reflexivity].
  unfold bind at 1.
  destruct (map_M (MemoryService.candidate conversation relevantMemories) parsed w0)
    as [[memories|e] w1]; [|reflexivity].
  unfold bind.
  destruct (for_of memories MemoryService.persist w1) as [[[]|e] w2]; reflexivity.
Qed.

(** Making the candidates reads the clock and nothing else; it throws as
    soon as an entry has no list of connections. *)
Lemma map_M_candidate_run (conversation : string) (relevantMemories : list Memory.t)
  (parsed : list ExtractedMemory.t) (w : World) :
  exists o w1,
    map_M (MemoryService.candidate conversation relevantMemories) parsed w = (o, w1)
    /\ vectors w1 = vectors w /\ item w1 = item w /\ store w1 = store w
    /\ console w1 = console w
    /\ (forall l, o = Returned l ->
          l = candidates conversation relevantMemories parsed (calls w)
          /\ Forall (fun m => ExtractedMemory.connections m <> None) parsed)
    /\ (Exists (fun m => ExtractedMemory.connections m = None) parsed ->
        exists e, o = Thrown e).
Proof.
  revert w. induction parsed as [|m t IH]; intros w.
  - do 2 eexists. split; [reflexivity|]. do 4 (split; [reflexivity|]). split.
    + intros l [= <-]. split; [reflexivity | constructor].
    + intros Hex. inversion Hex.
  - cbn [map_M]. unfold bind at 1.
    destruct (ExtractedMemory.connections m) as [conns|] eqn:Ec.
    + rewrite (@candidate_eq _ conversation relevantMemories m w) by congruence.
      unfold bind at 1.
      destruct (IH (with_calls w (S (calls w))))
        as (o & w1 & -> & Hv & Hi & Hs & Hc & Hl & Hex).
      cbn in Hv, Hi, Hs, Hc, Hl.
      destruct o as [ys|e].
      * do 2 eexists. split; [reflexivity|]. do 4 (split; [assumption|]). split.
        -- intros l [= <-]. destruct (Hl ys eq_refl) as [-> Hall]. split; [reflexivity|].
           constructor; [congruence | exact Hall].
        -- intros Hx. inversion Hx as [? ? Hm|? ? Ht]; subst; [congruence|].
           destruct (Hex Ht) as (e & Habs). discriminate.
      * do 2 eexists. split; [reflexivity|]. do 4 (split; [assumption|]). split.
        -- intros l Habs. discriminate.
        -- intros _. eauto.
    + unfold MemoryService.candidate, bind. rewrite Ec. cbn.
      do 2 eexists. split; [reflexivity|]. do 4 (split; [reflexivity|]). split.
      * intros l Habs. discriminate.
      * intros _. eauto.
Qed.

Lemma persist_grows (memory : PartialMemory.t) (w : World) :
  grows w (snd (MemoryService.persist memory w)).
Proof.
  unfold MemoryService.persist, bind, crypto_randomUUID, now. cbn.
  match goal with |- context [VectorStore.addMemory ?m ?w1] =>
    destruct (addMemory_frame m w1) as (Hs & Hv & _);
    destruct (VectorStore.addMemory m w1) as [[[]|e] w2] end;
    cbn in *; split; auto.
Qed.

Lemma for_of_persist_grows (memories : list PartialMemory.t) (w : World) :
  grows w (snd (for_of memories MemoryService.persist w)).
Proof.
  revert w. induction memories as [|m t IH]; intros w; cbn.
  - apply grows_refl.
  - unfold bind. pose proof (persist_grows m w) as G.
    destruct (MemoryService.persist m w) as [[[]|e] w1]; cbn in G |- *.
    + exact (grows_trans G (IH w1)).
    + exact G.
Qed.

Lemma candidates_unnamed (conversation : string) (relevantMemories : list Memory.t)
  (parsed : list ExtractedMemory.t) (c : nat) :
  Forall (fun m => PartialMemory.id m = None /\ PartialMemory.timestamp m = None)
         (candidates conversation relevantMemories parsed c).
Proof. apply candidates_facts. Qed.

(** X19.  [extractMemories] never throws, whatever the language model, the
    parser and the embedding model do.  It leaves the collection of the
    zustand store alone and takes no id out of the vector store, and no
    record it returns carries an id or a timestamp. *)
Theorem extractMemories_never_throws (conversation : string)
  (existingMemories : list Memory.t) (w : World) :
  exists result w',
    MemoryService.extractMemories conversation existingMemories w = (Returned result, w')
    /\ store w' = store w
    /\ (forall x, In x (map StoredMemory.id (vectors w)) ->
                  In x (map StoredMemory.id (vectors w')))
    /\ Forall (fun m => PartialMemory.id m = None /\ PartialMemory.timestamp m = None) result.
Proof.
  destruct (findSimilarMemories_returns conversation 5 VectorStore.default_minSimilarity w)
    as (similar & w0 & Hsim).
  destruct (findSimilarMemories_world _ _ _ _ Hsim) as (Hv0 & _ & Hs0 & _).
  assert (G0 : grows w w0) by (apply grows_same; assumption).
  rewrite (extractMemories_run conversation existingMemories w Hsim). cbn zeta.
  set (relevantMemories := existingMemories ++ map Match.memory similar).
  destruct (openRouter (MemoryService.prompt_of relevantMemories conversation))
    as [response|e].
  2:{ do 2 eexists. split; [reflexivity|]. cbn. destruct G0. auto. }
  destruct (JSON_parse response) as [parsed|].
  2:{ do 2 eexists. split; [reflexivity|]. cbn. destruct G0. auto. }
  destruct (map_M_candidate_run conversation relevantMemories parsed w0)
    as (o & w1 & -> & Hv1 & _ & Hs1 & _ & Hl & _).
  destruct o as [memories|e].
  2:{ do 2 eexists. split; [reflexivity|]. cbn. rewrite Hv1, Hs1. destruct G0. auto. }
  assert (G1 : grows w w1).
  { apply (grows_trans G0). apply grows_same; assumption. }
  pose proof (for_of_persist_grows memories w1) as G2.
  destruct (Hl memories eq_refl) as [-> _].
  destruct (for_of _ MemoryService.persist w1) as [[[]|e] w2]; cbn in G2;
    destruct (grows_trans G1 G2) as [Hs Hv];
    do 2 eexists; (split; [reflexivity|]); cbn; repeat split; auto.
  apply candidates_unnamed.
Qed.

(** X20.  When the call to the language model fails, or its answer is not
    JSON, [extractMemories] returns the empty array, and all it does after
    the search is to print one line: which one tells the two failures
    apart. *)
Theorem extractMemories_no_answer (conversation : string)
  (existingMemories : list Memory.t) (w w0 : World) (similar : list Match.t) :
  VectorStore.findSimilarMemories conversation 5 VectorStore.default_minSimilarity w
    = (Returned similar, w0) ->
  let prompt :=
    MemoryService.prompt_of (existingMemories ++ map Match.memory similar) conversation in
  answer_of prompt = None ->
  MemoryService.extractMemories conversation existingMemories w =
  (Returned [],
   with_console w0
     ((match openRouter prompt with
       | Thrown _ => "Failed to extract memories:"
       | Returned _ => "Failed to parse memory extraction result:"
       end) :: console w0)).
Proof.
  intros Hsim prompt Hnone. unfold answer_of in Hnone.
  rewrite (extractMemories_run conversation existingMemories w Hsim). cbn zeta.
  fold prompt. destruct (openRouter prompt) as [response|e]; [|reflexivity].
  rewrite Hnone. reflexivity.
Qed.

(** X21.  One entry of the answer without its list of connections discards
    the whole answer: [extractMemories] returns the empty array and stores
    nothing, whatever the other entries are. *)
Theorem extractMemories_malformed_entry (conversation : string)
  (existingMemories : list Memory.t) (w w0 : World) (similar : list Match.t)
  (parsed : list ExtractedMemory.t) :
  VectorStore.findSimilarMemories conversation 5 VectorStore.default_minSimilarity w
    = (Returned similar, w0) ->
  answer_of (MemoryService.prompt_of (existingMemories ++ map Match.memory similar)
               conversation) = Some parsed ->
  Exists (fun m => ExtractedMemory.connections m = None) parsed ->
  exists w',
    MemoryService.extractMemories conversation existingMemories w = (Returned [], w')
    /\ vectors w' = vectors w /\ item w' = item w /\ store w' = store w
    /\ console w' = "Failed to parse memory extraction result:" :: console w0.
Proof.
  intros Hsim Hans Hex. unfold answer_of in Hans.
  destruct (findSimilarMemories_world _ _ _ _ Hsim) as (Hv0 & _ & Hs0 & Hi0).
  rewrite (extractMemories_run conversation existingMemories w Hsim). cbn zeta.
  destruct (openRouter _) as [response|e]; [|discriminate].
  rewrite Hans.
  destruct (map_M_candidate_run conversation
              (existingMemories ++ map Match.memory similar) parsed w0)
    as (o & w1 & -> & Hv1 & Hi1 & Hs1 & Hc1 & _ & Hthrows).
  destruct (Hthrows Hex) as (e' & ->).
  eexists. split; [reflexivity|]. cbn. unfold parse_label.
  repeat split; congruence.
Qed.

End ExtractionRuns.

(** ** The memory service: the storing loop and the connections *)

Section ExtractionLoop.

Context `{Platform}.

Lemma candidates_app (conversation : string) (relevantMemories : list Memory.t)
  (p1 p2 : list ExtractedMemory.t) (c : nat) :
  candidates conversation relevantMemories (p1 ++ p2) c
  = candidates conversation relevantMemories p1 c
    ++ candidates conversation relevantMemories p2 (c + length p1).
Proof.
  revert c. induction p1 as [|m t IH]; intros c; cbn.
  - now rewrite Nat.add_0_r.
  - rewrite IH. do 3 f_equal. lia.
Qed.

Lemma for_of_app {A} (l1 l2 : list A) (body : A -> M unit) (w : World) :
  for_of (l1 ++ l2) body w =
  match for_of l1 body w with
  | (Returned _, w1) => for_of l2 body w1
  | (Thrown e, w1) => (Thrown e, w1)
  end.
Proof.
  revert w. induction l1 as [|x t IH]; intros w; cbn; [reflexivity|].
  unfold bind. destruct (body x w) as [[[]|e] w1]; [apply IH | reflexivity].
Qed.

(** A round of the storing loop whose content does not embed throws, and
    stores nothing. *)
Lemma persist_throws (memory : PartialMemory.t) (w : World) :
  embed (PartialMemory.content memory) = None ->
  exists e w',
    MemoryService.persist memory w = (Thrown e, w')
    /\ vectors w' = vectors w /\ store w' = store w /\ item w' = item w.
Proof.
  intros Ev. unfold MemoryService.persist, bind, crypto_randomUUID, now. cbn.
  match goal with |- context [VectorStore.addMemory ?m ?w1] =>
    destruct (@embed_None_throws _ (Memory.content m) w1 Ev) as (e & w2 & E);
    rewrite (@addMemory_thrown _ m w1 w2 e E);
    destruct (@generateEmbedding_thrown _ _ _ _ _ E) as (Hv & Hi & Hs & _) end.
  do 2 eexists. split; [reflexivity|]. cbn. rewrite Hv, Hs, Hi. repeat split.
Qed.

(** X22.  The storing loop stops at the first content that does not embed,
    and [extractMemories] then returns the empty array: but the entries
    before that one have been stored, each under a drawn id, and stay in the
    vector store. *)
Theorem extractMemories_stops_at_failed_embedding (conversation : string)
  (existingMemories : list Memory.t) (w w0 : World) (similar : list Match.t)
  (stored : list ExtractedMemory.t) (failed : ExtractedMemory.t)
  (rest : list ExtractedMemory.t) :
  let relevantMemories := existingMemories ++ map Match.memory similar in
  let parsed := stored ++ failed :: rest in
  let first := (calls w + length parsed)%nat in
  VectorStore.findSimilarMemories conversation 5 VectorStore.default_minSimilarity w
    = (Returned similar, w0) ->
  answer_of (MemoryService.prompt_of relevantMemories conversation) = Some parsed ->
  Forall (fun m => ExtractedMemory.connections m <> None) parsed ->
  Forall (fun m => embed (ExtractedMemory.content m) <> None) stored ->
  embed (ExtractedMemory.content failed) = None ->
  fresh_ids (vectors w) first (length stored) ->
  exists w',
    MemoryService.extractMemories conversation existingMemories w = (Returned [], w')
    /\ vectors w'
       = vectors w ++ copies (candidates conversation relevantMemories stored (calls w)) first
    /\ store w' = store w.
Proof.
  intros relevantMemories parsed first Hsim Hans Hconns Hembed Hfail Hfresh.
  unfold answer_of in Hans.
  destruct (findSimilarMemories_world _ _ _ _ Hsim) as (Hv0 & Hc0 & Hs0 & _).
  rewrite (extractMemories_run conversation existingMemories w Hsim). cbn zeta.
  fold relevantMemories.
  destruct (openRouter (MemoryService.prompt_of relevantMemories conversation))
    as [response|e]; [|discriminate].
  rewrite Hans.
  rewrite (@map_M_candidates _ conversation relevantMemories parsed w0 Hconns).
  rewrite Hc0. set (w1 := with_calls w0 (calls w + length parsed)).
  unfold parsed at 1. rewrite candidates_app. cbn [candidates].
  set (before := candidates conversation relevantMemories stored (calls w)).
  destruct (candidates_facts conversation relevantMemories stored (calls w))
    as (Hlen & Hcontent & _). fold before in Hlen, Hcontent.
  assert (Hembed' : Forall (fun m => embed (PartialMemory.content m) <> None) before).
  { apply Forall_forall. intros m Hm.
    apply (in_map PartialMemory.content) in Hm. rewrite Hcontent in Hm.
    apply in_map_iff in Hm. destruct Hm as (x & <- & Hx).
    rewrite Forall_forall in Hembed. auto. }
  assert (Hfresh' : fresh_ids (vectors w1) (calls w1) (length before)).
  { unfold w1. cbn. rewrite Hv0, Hlen. exact Hfresh. }
  destruct (persist_all w1 Hembed' Hfresh') as (w2 & Ep & Hv2 & Hs2 & _).
  rewrite for_of_app, Ep. cbn [for_of]. unfold bind.
  destruct (persist_throws
              (candidate_of conversation relevantMemories failed
                 (Date_now (calls w + length stored))) w2 Hfail)
    as (e & w3 & -> & Hv3 & Hs3 & _).
  eexists. split; [reflexivity|]. cbn.
  rewrite Hv3, Hv2, Hs3, Hs2. unfold w1. cbn. rewrite Hv0, Hs0. split; reflexivity.
Qed.

Lemma candidates_In (conversation : string) (relevantMemories : list Memory.t)
  (parsed : list ExtractedMemory.t) (c : nat) (p : PartialMemory.t) :
  In p (candidates conversation relevantMemories parsed c) ->
  exists memory timestamp,
    In memory parsed /\ p = candidate_of conversation relevantMemories memory timestamp.
Proof.
  revert c. induction parsed as [|m t IH]; intros c; cbn; [intros []|].
  intros [<-|Hp].
  - do 2 eexists. split; [now left | reflexivity].
  - destruct (IH _ Hp) as (m' & ts & Hm' & E). do 2 eexists. split; [right; exact Hm' | exact E].
Qed.

Lemma resolve_target (relevantMemories : list Memory.t) (conn : ProposedConnection.t)
  (c : Connection.t) :
  MemoryService.resolve relevantMemories conn = Some c ->
  In (Connection.targetId c) (map Memory.id relevantMemories).
Proof.
  unfold MemoryService.resolve.
  destruct (find _ relevantMemories) as [m|] eqn:Ef; [|discriminate].
  intros [= <-]. cbn. apply find_some in Ef. apply in_map, Ef.
Qed.

(** X23.  [extractMemories] returns no connection to an unknown memory: the
    target of every connection of every record it returns is the id of one
    of the memories it was given, or of a record of the vector store. *)
Theorem extractMemories_connections_known (conversation : string)
  (existingMemories : list Memory.t) (w w' : World) (result : list PartialMemory.t) :
  MemoryService.extractMemories conversation existingMemories w = (Returned result, w') ->
  forall p c,
    In p result -> In c (or_else (PartialMemory.connections p) []) ->
    In (Connection.targetId c) (map Memory.id existingMemories)
    \/ In (Connection.targetId c) (map StoredMemory.id (vectors w)).
Proof.
  intros E p c Hp Hc.
  destruct (findSimilarMemories_returns conversation 5 VectorStore.default_minSimilarity w)
    as (similar & w0 & Hsim).
  rewrite (extractMemories_run conversation existingMemories w Hsim) in E. cbn zeta in E.
  set (relevantMemories := existingMemories ++ map Match.memory similar) in E.
  assert (Hknown : In (Connection.targetId c) (map Memory.id relevantMemories) ->
            In (Connection.targetId c) (map Memory.id existingMemories)
            \/ In (Connection.targetId c) (map StoredMemory.id (vectors w))).
  { unfold relevantMemories. rewrite map_app, in_app_iff, map_map.
    intros [Hin|Hin]; [now left | right].
    exact (findSimilarMemories_ids _ _ _ _ Hsim _ Hin). }
  destruct (openRouter _) as [response|e]; [|inversion E; subst; destruct Hp].
  destruct (JSON_parse response) as [parsed|]; [|inversion E; subst; destruct Hp].
  destruct (map_M_candidate_run conversation relevantMemories parsed w0)
    as (o & w1 & Em & _ & _ & _ & _ & Hl & _).
  rewrite Em in E. destruct o as [memories|e]; [|inversion E; subst; destruct Hp].
  destruct (Hl memories eq_refl) as [-> _].
  destruct (for_of _ MemoryService.persist w1) as [[[]|e] w2];
    inversion E; subst; [|destruct Hp].
  apply candidates_In in Hp. destruct Hp as (memory & timestamp & _ & ->).
  cbn in Hc. apply filter_null_In in Hc. destruct Hc as (conn & _ & Er).
  apply Hknown. exact (resolve_target _ _ Er).
Qed.

End ExtractionLoop.

(** ** The search service *)

Section SearchService.

Import Google.

Context `{Web}.

Lemma ask_eq (request : ChatRequest) (n : Net) :
  ask request n = (reply request (sent n), mkNet (S (sent n)) (printed n) (waited n)).
Proof.
  unfold ask, send, reply. destruct (fetch (Chat request) (sent n)); reflexivity.
Qed.

Lemma latest_first_shift (from k : nat) :
  latest_first from (S k) = latest_first (S from) k ++ [from].
Proof. unfold latest_first. reflexivity. Qed.

(** A run of [k] failed attempts that does not reach the last one. *)
Lemma attempts_failed (request : ChatRequest) (query : string)
  (results : list SearchResult) (k : nat) :
  forall attempt remaining n,
    (forall i, (i < k)%nat -> exists e, reply request (sent n + i) = Thrown e) ->
    (attempt + k < MAX_RETRIES)%nat ->
    (k <= remaining)%nat ->
    attempts request query results attempt remaining n =
    attempts request query results (attempt + k) (remaining - k)
      (mkNet (sent n + k)
             (map failure_line (latest_first attempt k) ++ printed n)
             (map pause (latest_first attempt k) ++ waited n)).
Proof.
  induction k as [|k IH]; intros attempt remaining n Hfail Hlt Hle.
  - rewrite !Nat.add_0_r, Nat.sub_0_r. destruct n; reflexivity.
  - destruct remaining as [|remaining]; [lia|].
    cbn [attempts]. rewrite ask_eq.
    destruct (Hfail 0%nat ltac:(lia)) as (e & E). rewrite Nat.add_0_r in E. rewrite E.
    replace (attempt =? MAX_RETRIES - 1)%nat with false
      by (symmetry; apply Nat.eqb_neq; unfold MAX_RETRIES in *; lia).
    rewrite IH.
    + cbn [sent printed waited print delay].
      rewrite !latest_first_shift, !map_app, <- !app_assoc. cbn [map app].
      fold (failure_line attempt). fold (pause attempt).
      replace (S attempt + k)%nat with (attempt + S k)%nat by lia.
      replace (S (sent n) + k)%nat with (sent n + S k)%nat by lia.
      reflexivity.
    + intros i Hi. cbn [sent print delay].
      destruct (Hfail (S i) ltac:(lia)) as (e' & E').
      exists e'. rewrite <- E'. f_equal. lia.
    + lia.
    + lia.
Qed.

Lemma length_append (a b : string) :
  String.length (a ++ b) = (String.length a + String.length b)%nat.
Proof. induction a as [|c a IH]; cbn; [reflexivity | now rewrite IH]. Qed.

Lemma read_long (response : Response) (text : string) :
  read response = Returned text -> (10 <= String.length text)%nat.
Proof.
  unfold read. destruct (negb (ok response)).
  - destruct (json_or_empty response); discriminate.
  - destruct (json response) as [[data|]|e]; try discriminate.
    destruct (content data) as [t|]; try discriminate.
    destruct (String.eqb t ""); try discriminate.
    destruct (String.eqb (trim t) ""); cbn [orb]; try discriminate.
    destruct (String.length (trim t) <? 10)%nat eqn:E; try discriminate.
    intros [= <-]. apply Nat.ltb_ge. exact E.
Qed.

Lemma reply_long (request : ChatRequest) (i : nat) (text : string) :
  reply request i = Returned text -> (10 <= String.length text)%nat.
Proof.
  unfold reply. destruct (fetch (Chat request) i); [apply read_long | discriminate].
Qed.

Lemma fallback_long (query : string) (results : list SearchResult) :
  (10 <= String.length (generateFallbackAnalysis query results))%nat.
Proof. unfold generateFallbackAnalysis. rewrite length_append. cbn. lia. Qed.

Lemma attempts_returns (request : ChatRequest) (query : string)
  (results : list SearchResult) (remaining : nat) :
  forall attempt n,
    (attempt + remaining = MAX_RETRIES)%nat ->
    (0 < remaining)%nat ->
    exists text n',
      attempts request query results attempt remaining n = (Returned text, n')
      /\ (10 <= String.length text)%nat
      /\ (sent n < sent n' <= sent n + remaining)%nat
      /\ (length (waited n') < length (waited n) + remaining)%nat.
Proof.
  induction remaining as [|remaining IH]; intros attempt n Hsum Hpos; [lia|].
  cbn [attempts]. rewrite ask_eq.
  destruct (reply request (sent n)) as [text|e] eqn:E.
  - do 2 eexists. split; [reflexivity|]. cbn. split; [exact (reply_long _ _ E) | lia].
  - destruct (attempt =? MAX_RETRIES - 1)%nat eqn:Elast.
    + do 2 eexists. split; [reflexivity|]. cbn. split; [apply fallback_long | lia].
    + apply Nat.eqb_neq in Elast.
      destruct (IH (S attempt) (delay (pause attempt) (print (failure_line attempt)
                  (mkNet (S (sent n)) (printed n) (waited n)))))
        as (text & n' & E' & Hlen & Hsent & Hwait).
      * lia.
      * unfold MAX_RETRIES in *. lia.
      * exists text, n'. split; [exact E'|]. cbn in Hsent, Hwait. split; [exact Hlen | lia].
Qed.

(** X24.  [analyzeSearchResults] never throws: the error after its loop is
    out of reach.  Without results it returns the empty string and sends
    nothing; with results it returns a text of ten characters or more, after
    one to three requests and at most two delays. *)
Theorem analyzeSearchResults_never_throws (apiKey model query : string)
  (results : list SearchResult) (mode : Mode) (previousAnalyses : list string) (n : Net) :
  exists text n',
    analyzeSearchResults apiKey model query results mode previousAnalyses n
    = (Returned text, n')
    /\ (results = [] -> text = "" /\ n' = n)
    /\ (results <> [] ->
        (10 <= String.length text)%nat
        /\ (sent n < sent n' <= sent n + 3)%nat
        /\ (length (waited n') <= length (waited n) + 2)%nat).
Proof.
  destruct results as [|r rs].
  - exists "", n. split; [reflexivity|]. split; [auto | congruence].
  - unfold analyzeSearchResults.
    destruct (@attempts_returns
                (chatRequest apiKey model query (r :: rs) mode previousAnalyses)
                query (r :: rs) MAX_RETRIES 0%nat n eq_refl)
      as (text & n' & E & Hlen & Hsent & Hwait).
    + unfold MAX_RETRIES. lia.
    + exists text, n'. split; [exact E|]. split; [discriminate|].
      intros _. unfold MAX_RETRIES in *. split; [exact Hlen | lia].
Qed.

(** X25.  The first attempt that gets an acceptable answer ends the
    analysis with that answer, trimmed.  When [k] attempts failed before it,
    [k + 1] requests were sent, one line was printed for each failure, and
    the delays waited for were 1000 ms and then 2000 ms: twice as long after
    each failure. *)
Theorem analysis_retry_schedule (apiKey model query : string)
  (results : list SearchResult) (mode : Mode) (previousAnalyses : list string)
  (n : Net) (k : nat) (text : string) :
  let request := chatRequest apiKey model query results mode previousAnalyses in
  results <> [] ->
  (k < MAX_RETRIES)%nat ->
  (forall i, (i < k)%nat -> exists e, reply request (sent n + i) = Thrown e) ->
  reply request (sent n + k) = Returned text ->
  analyzeSearchResults apiKey model query results mode previousAnalyses n
  = (Returned text,
     mkNet (sent n + k + 1)
           (map failure_line (latest_first 0 k) ++ printed n)
           (map pause (latest_first 0 k) ++ waited n))
  /\ Forall (fun ms => In ms [1000; 2000]%Z) (map pause (latest_first 0 k)).
Proof.
  intros request Hne Hk Hfail Hok. split.
  - destruct results as [|r rs]; [congruence|]. unfold analyzeSearchResults.
    fold request.
    rewrite (@attempts_failed request query (r :: rs) k 0%nat MAX_RETRIES n Hfail)
      by (cbn; lia).
    destruct (MAX_RETRIES - k)%nat as [|remaining] eqn:Er; [lia|].
    cbn [attempts]. rewrite ask_eq. cbn [sent printed waited]. rewrite Hok.
    do 2 f_equal. lia.
  - unfold MAX_RETRIES in Hk.
    destruct k as [|[|[|k]]]; [| | |lia];
      repeat (apply Forall_cons; [vm_compute; auto|]); apply Forall_nil.
Qed.

(** X26.  After three failed attempts the analysis is the fallback text:
    three requests were sent, three lines printed, and 1000 ms and 2000 ms
    waited for; no delay follows the last failure.  The fallback text is
    made of the query and of the first three results only. *)
Theorem analysis_falls_back (apiKey model query : string)
  (results : list SearchResult) (mode : Mode) (previousAnalyses : list string) (n : Net) :
  let request := chatRequest apiKey model query results mode previousAnalyses in
  results <> [] ->
  (forall i, (i < MAX_RETRIES)%nat -> exists e, reply request (sent n + i) = Thrown e) ->
  analyzeSearchResults apiKey model query results mode previousAnalyses n
  = (Returned (generateFallbackAnalysis query results),
     mkNet (sent n + 3)
           (["Analysis attempt 3 failed:"; "Analysis attempt 2 failed:";
             "Analysis attempt 1 failed:"] ++ printed n)
           ([2000; 1000]%Z ++ waited n))
  /\ generateFallbackAnalysis query results
     = generateFallbackAnalysis query (firstn 3 results).
Proof.
  intros request Hne Hfail. split.
  - destruct results as [|r rs]; [congruence|]. unfold analyzeSearchResults.
    fold request.
    rewrite (@attempts_failed request query (r :: rs) 2%nat 0%nat MAX_RETRIES n).
    + cbn [MAX_RETRIES Nat.sub Nat.add attempts]. rewrite ask_eq. cbn [sent printed waited].
      destruct (Hfail 2%nat ltac:(unfold MAX_RETRIES; lia)) as (e & ->).
      cbn [Nat.eqb]. unfold print. cbn [sent printed waited].
      f_equal. f_equal; try reflexivity. lia.
    + intros i Hi. apply Hfail. unfold MAX_RETRIES. lia.
    + unfold MAX_RETRIES. lia.
    + unfold MAX_RETRIES. lia.
  - unfold generateFallbackAnalysis, slice0. cbn [Z.ltb Z.compare Z.to_nat Pos.to_nat Pos.iter_op Nat.add].
    rewrite firstn_firstn. reflexivity.
Qed.

End SearchService.

Section SearchRequests.

Import Google.

Context `{Web}.

Lemma map_outcome_length {A B} (f : A -> outcome B) (l : list A) (ys : list B) :
  map_outcome f l = Returned ys -> length ys = length l.
Proof.
  revert ys. induction l as [|x t IH]; cbn; intros ys E.
  - injection E as <-. reflexivity.
  - destruct (f x) as [y|e]; [|discriminate].
    destruct (map_outcome f t) as [ys'|e]; [|discriminate].
    injection E as <-. cbn. f_equal. apply IH. reflexivity.
Qed.

(** The [try] block of [searchGoogle]: what it makes of the response. *)
Lemma search_cases (params : SearchParams) (n : Net) :
  let n1 := mkNet (S (sent n)) (printed n) (waited n) in
  match search params n with
  | (Done results, n') =>
      n' = n1
      /\ exists response data,
           fetch (Search params) (sent n) = Returned response
           /\ ok response = true
           /\ json response = Returned (Some data)
           /\ length results = length (or_else (items data) [])
  | (Raised (GoogleSearchError _ code retryable), n') =>
      retryable = false
      /\ n' = print "Google Search API error:" n1
      /\ exists response,
           fetch (Search params) (sent n) = Returned response
           /\ ok response = false
           /\ (forall c, code = Some c ->
                 status response = c /\ c <> 403%Z /\ c <> 429%Z)
  | (Raised (OtherError _), n') => n' = n1
  end.
Proof.
  cbn zeta. unfold search, send.
  destruct (fetch (Search params) (sent n)) as [response|e]; [|reflexivity].
  destruct (ok response) eqn:Eok; cbn [negb].
  - destruct (json response) as [[data|]|e] eqn:Ej; try reflexivity.
    destruct (items data) as [its|] eqn:Ei.
    + destruct (map_outcome toResult its) as [results|e] eqn:Em; [|reflexivity].
      split; [reflexivity|]. exists response, data. rewrite Ei. cbn.
      repeat split; auto. exact (map_outcome_length _ _ Em).
    + split; [reflexivity|]. exists response, data. rewrite Ei. repeat split; auto.
  - destruct (json_or_empty response) as [error|]; [|reflexivity].
    destruct (status response =? 403)%Z eqn:E403;
      [|destruct (status response =? 429)%Z eqn:E429].
    + split; [reflexivity|]. split; [reflexivity|]. exists response.
      repeat split; auto; discriminate.
    + split; [reflexivity|]. split; [reflexivity|]. exists response.
      repeat split; auto; discriminate.
    + split; [reflexivity|]. split; [reflexivity|]. exists response.
      split; [reflexivity|]. split; [exact Eok|].
      intros c [= <-]. apply Z.eqb_neq in E403, E429. auto.
Qed.

(** X27.  [searchGoogle] raises errors of its own class only, none of them
    marked as retryable.  It sends one request at most, and none when a
    credential is empty.  It returns results only for a response that is
    [ok], one result for each item, and then prints nothing; every error
    raised after the request is printed.  The error carries a status code
    only for a refused response whose status is neither 403 nor 429. *)
Theorem searchGoogle_outcomes (query searchEngineId apiKey : string)
  (numResults : number) (n : Net) :
  let request := Search (mkSearchParams apiKey searchEngineId query numResults) in
  match searchGoogle query searchEngineId apiKey numResults n with
  | (Done results, n') =>
      n' = mkNet (S (sent n)) (printed n) (waited n)
      /\ exists response data,
           fetch request (sent n) = Returned response
           /\ ok response = true
           /\ json response = Returned (Some data)
           /\ length results = length (or_else (items data) [])
  | (Raised (GoogleSearchError _ code retryable), n') =>
      retryable = false
      /\ (n' = n /\ (searchEngineId = "" \/ apiKey = "")
          \/ sent n' = S (sent n)
             /\ hd_error (printed n') = Some "Google Search error:"
             /\ searchEngineId <> "" /\ apiKey <> "")
      /\ (forall c, code = Some c ->
            exists response,
              fetch request (sent n) = Returned response
              /\ ok response = false
              /\ status response = c /\ c <> 403%Z /\ c <> 429%Z)
  | (Raised (OtherError _), _) => False
  end.
Proof.
  cbn zeta. unfold searchGoogle.
  destruct (String.eqb searchEngineId "") eqn:Eid; cbn [orb].
  { apply String.eqb_eq in Eid. split; [reflexivity|]. split; [left; auto|]. discriminate. }
  destruct (String.eqb apiKey "") eqn:Ekey.
  { apply String.eqb_eq in Ekey. split; [reflexivity|]. split; [left; auto|]. discriminate. }
  apply String.eqb_neq in Eid, Ekey.
  pose proof (search_cases (mkSearchParams apiKey searchEngineId query numResults) n) as C.
  cbn zeta in C.
  destruct (search (mkSearchParams apiKey searchEngineId query numResults) n)
    as [[results|[message code retryable|[message]]] n1].
  - exact C.
  - destruct C as (Hr & -> & response & Ef & Eok & Hc).
    split; [exact Hr|]. split.
    + right. repeat split; auto.
    + intros c Ec. exists response. destruct (Hc c Ec) as (Hs & H403 & H429). auto.
  - subst n1. split; [reflexivity|]. split.
    + right. repeat split; auto.
    + discriminate.
Qed.

End SearchRequests.

(** ** The web search of a message *)

Section WebSearch.

Import Google.
Import UseMessage.

Context `{Web}.

Lemma validateGoogleConfig_sent (searchEngineId apiKey : string) (n : Net) :
  (sent n <= sent (snd (validateGoogleConfig searchEngineId apiKey n)) <= S (sent n))%nat.
Proof.
  unfold validateGoogleConfig, send.
  destruct (String.eqb searchEngineId "" || String.eqb apiKey ""); [cbn; lia|].
  destruct (fetch _ (sent n)); cbn; lia.
Qed.

Lemma searchGoogle_sent (query searchEngineId apiKey : string) (numResults : number)
  (n : Net) :
  (sent n <= sent (snd (searchGoogle query searchEngineId apiKey numResults n))
   <= S (sent n))%nat.
Proof.
  unfold searchGoogle.
  destruct (String.eqb searchEngineId "" || String.eqb apiKey ""); [cbn; lia|].
  pose proof (search_cases (mkSearchParams apiKey searchEngineId query numResults) n) as C.
  cbn zeta in C.
  destruct (search (mkSearchParams apiKey searchEngineId query numResults) n)
    as [[results|[message code retryable|[message]]] n1].
  - destruct C as [-> _]. cbn. lia.
  - destruct C as (_ & -> & _). cbn. lia.
  - subst n1. cbn. lia.
Qed.

Lemma searchAll_sent (settings : Settings) (resultsPerQuery : number)
  (queries : list string) :
  forall allResults n,
    (sent n <= sent (snd (searchAll settings resultsPerQuery queries allResults n))
     <= sent n + length queries)%nat.
Proof.
  induction queries as [|searchQuery queries IH]; intros allResults n; cbn [searchAll].
  - cbn. lia.
  - pose proof (searchGoogle_sent searchQuery (googleSearchId settings)
                  (googleSearchApiKey settings) resultsPerQuery n) as S1.
    destruct (searchGoogle searchQuery (googleSearchId settings)
                (googleSearchApiKey settings) resultsPerQuery n) as [[results|e] n1];
      cbn [snd] in S1.
    + specialize (IH (allResults ++ results) n1). cbn [length]. lia.
    + cbn. lia.
Qed.

(** One pass of the analysis over results that are there. *)
Lemma analysis_returns (apiKey model query : string) (r : SearchResult)
  (rs : list SearchResult) (mode : Mode) (previousAnalyses : list string) (n : Net) :
  exists text n',
    analyzeSearchResults apiKey model query (r :: rs) mode previousAnalyses n
    = (Returned text, n')
    /\ (10 <= String.length text)%nat
    /\ (sent n <= sent n' <= sent n + 3)%nat.
Proof.
  unfold analyzeSearchResults.
  destruct (@attempts_returns _
              (chatRequest apiKey model query (r :: rs) mode previousAnalyses)
              query (r :: rs) MAX_RETRIES 0%nat n eq_refl)
    as (text & n' & E & Hlen & Hsent & _).
  - unfold MAX_RETRIES. lia.
  - exists text, n'. unfold MAX_RETRIES in Hsent. split; [exact E|]. split; [exact Hlen | lia].
Qed.

Lemma analyze_returns (settings : Settings) (query : string) (r : SearchResult)
  (rs : list SearchResult) (isDeepSearch : bool) (n : Net) :
  exists text n',
    analyze settings query (r :: rs) isDeepSearch n = (Returned text, n')
    /\ (10 <= String.length text)%nat
    /\ (sent n <= sent n' <= sent n + (if isDeepSearch then 9 else 3))%nat.
Proof.
  unfold analyze. destruct isDeepSearch.
  - destruct (analysis_returns (apiKey settings) (model settings) query r rs
                comprehensive [] n) as (t1 & n1 & -> & _ & S1).
    destruct (analysis_returns (apiKey settings) (model settings) query r rs
                key_points [] n1) as (t2 & n2 & -> & _ & S2).
    destruct (analysis_returns (apiKey settings) (model settings) query r rs
                synthesis [t1; t2] n2) as (t3 & n3 & -> & Hlen & S3).
    exists t3, n3. split; [reflexivity|]. split; [exact Hlen | lia].
  - destruct (analysis_returns (apiKey settings) (model settings) query r rs
                default [] n) as (t & n' & -> & Hlen & S1).
    exists t, n'. split; [reflexivity|]. split; [exact Hlen | lia].
Qed.

Lemma unique_NoDup (allResults : list SearchResult) :
  NoDup (map result_url (unique allResults)).
Proof.
  unfold unique. rewrite map_map.
  set (entries := map (fun result => (result_url result, result)) allResults).
  rewrite (map_ext_in (fun e => result_url (snd e)) fst).
  - apply Map_of_NoDup.
  - intros e He. apply Map_of_In in He. unfold entries in He.
    apply in_map_iff in He. destruct He as (x & <- & _). reflexivity.
Qed.

(** X28.  [performWebSearch] never throws and never leaves the hook in the
    searching state.  Either it returns an analysis, of ten characters or
    more, with no error set and with results that are there and have
    distinct URLs; or it returns null with the error set. *)
Theorem performWebSearch_settles (settings : Settings) (query : string)
  (isDeepSearch : bool) (h : Hook) :
  settled (fst (performWebSearch settings query isDeepSearch h))
          (searchState (snd (performWebSearch settings query isDeepSearch h))).
Proof.
  unfold performWebSearch.
  destruct (String.eqb (googleSearchId settings) ""
            || String.eqb (googleSearchApiKey settings) "").
  { cbn. repeat split. discriminate. }
  cbn zeta.
  destruct (validateGoogleConfig _ _ _) as [[|] n1]; cbn [negb].
  2:{ cbn. repeat split. discriminate. }
  destruct (searchAll _ _ _ [] n1) as [[allResults|e] n2].
  2:{ cbn. repeat split. discriminate. }
  pose proof (unique_NoDup allResults) as Hnd.
  destruct (unique allResults) as [|r rs].
  { cbn. repeat split. discriminate. }
  destruct (analyze_returns settings query r rs isDeepSearch n2)
    as (text & n3 & -> & Hlen & _).
  cbn. repeat split; auto. discriminate.
Qed.

(** X29.  A web search sends few requests: none when a credential is empty,
    else one to validate the configuration, one for each query (one query,
    or four for a deep search) and at most three for each pass of the
    analysis (one pass, or three for a deep search): five at most, or
    fourteen for a deep search. *)
Theorem performWebSearch_budget (settings : Settings) (query : string)
  (isDeepSearch : bool) (h : Hook) :
  let h' := snd (performWebSearch settings query isDeepSearch h) in
  (sent (net h) <= sent (net h')
   <= sent (net h) + (if isDeepSearch then 14 else 5))%nat
  /\ (googleSearchId settings = "" \/ googleSearchApiKey settings = "" ->
      sent (net h') = sent (net h)).
Proof.
  cbn zeta. unfold performWebSearch.
  destruct (String.eqb (googleSearchId settings) "") eqn:Eid; cbn [orb].
  { cbn. split; [destruct isDeepSearch; lia | reflexivity]. }
  destruct (String.eqb (googleSearchApiKey settings) "") eqn:Ekey.
  { cbn. split; [destruct isDeepSearch; lia | reflexivity]. }
  apply String.eqb_neq in Eid, Ekey.
  split; [|intros [E|E]; congruence].
  cbn zeta.
  pose proof (validateGoogleConfig_sent (googleSearchId settings)
                (googleSearchApiKey settings) (net h)) as S1.
  cbn [net setSearchState].
  destruct (validateGoogleConfig _ _ (net h)) as [[|] n1]; cbn [snd negb] in S1 |- *.
  2:{ cbn. destruct isDeepSearch; lia. }
  match goal with |- context [searchAll ?s ?k ?qs [] n1] =>
    pose proof (searchAll_sent s k qs [] n1) as S2;
    destruct (searchAll s k qs [] n1) as [[allResults|e] n2] end; cbn [snd] in S2.
  2:{ cbn. destruct isDeepSearch; cbn in S2; lia. }
  destruct (unique allResults) as [|r rs].
  { cbn. destruct isDeepSearch; cbn in S2; lia. }
  destruct (analyze_returns settings query r rs isDeepSearch n2)
    as (text & n3 & -> & _ & S3).
  cbn. destruct isDeepSearch; cbn in S2; lia.
Qed.

End WebSearch.

(* ================================================================== *)
(** * Witnesses and counterexamples *)


Import Example.

Ltac distinct := repeat constructor; simpl; intuition discriminate.

(** *** Runs of the scenarios of the specification *)

Example cosine_of_a_vector_with_itself :
  @Embeddings.cosineSimilarity browser [3; 4] [3; 4] = Returned (25 # 25).
Proof. reflexivity. Qed.

Example second_connection_replaces_first :
  let w1 := snd (MemoryStore.addConnection "A" "B" related_to (8 # 10) None graph) in
  let w2 := snd (MemoryStore.addConnection "A" "B" causes (3 # 10) None w1) in
  map Memory.connections (MemoryState.memories (store w2))
  = [[Connection.mk causes "B" (3 # 10) None]; [];
     [Connection.mk causes "A" (5 # 10) None]].
Proof. reflexivity. Qed.

Example related_to_A :
  map Memory.id (match fst (@MemoryStore.getRelatedMemories browser "A" graph) with
                 | Returned l => l
                 | Thrown _ => []
                 end)
  = ["C"; "B"; "A"; "D"].
Proof. vm_compute. reflexivity. Qed.

Example related_to_nobody :
  fst (@MemoryStore.getRelatedMemories browser "nobody" graph) = Returned [].
Proof. reflexivity. Qed.

(** *** C5 *)

Lemma cosineSimilarity_spec_witness :
  @Embeddings.cosineSimilarity browser [3; 4] [4]
  = Thrown (mkError "Vectors must have the same length")
  /\ @Embeddings.cosineSimilarity browser [0; 0] [4; 3] = Returned 0
  /\ @Embeddings.cosineSimilarity browser [3; 4] [4; 3]
     = Returned (@Embeddings.dot [3; 4] [4; 3]
                 / (@Embeddings.magnitude browser [3; 4] * @Embeddings.magnitude browser [4; 3])).
Proof.
  split; [|split].
  - apply (proj1 (@cosineSimilarity_spec browser [3; 4] [4])). discriminate.
  - apply (proj1 (proj2 (@cosineSimilarity_spec browser [0; 0] [4; 3]) eq_refl)).
    left. reflexivity.
  - apply (proj2 (proj2 (@cosineSimilarity_spec browser [3; 4] [4; 3]) eq_refl));
      intros E; discriminate E.
Defined.

(** *** C6 *)

Lemma findSimilarMemories_spec_witness :
  exists result w',
    @VectorStore.findSimilarMemories browser "a cat" 2 (1 # 2) graph = (Returned result, w')
    /\ Forall (fun m => 1 # 2 <= Match.similarity m) result
    /\ Descending Match.similarity result
    /\ (Z.of_nat (length result) <= 2)%Z
    /\ Forall (fun m => Memory.connections (Match.memory m) = []) result
    /\ exists sims,
         map Scored.storedMemory sims = vectors graph
         /\ length result = kept (length (qualifying sims (1 # 2))) 2.
Proof.
  destruct (@findSimilarMemories_spec browser "a cat" 2 (1 # 2) graph)
    as (result & w' & E & H1 & H2 & H3 & H4 & H5 & _).
  exists result, w'. split; [exact E|]. split; [exact H1|]. split; [exact H2|].
  split; [apply H4; discriminate|]. split; [exact H3|].
  destruct (H5 [1; 0] eq_refl) as (sims & E1 & _ & Hk & _).
  - intros s [<-|[<-|[<-|[<-|[]]]]]; reflexivity.
  - exists sims. split; [exact E1 | exact Hk].
Defined.

(** With the limit -1 the search returns two matches: [slice(0, -1)] drops
    the last of the three records about cats, and the result is not bounded
    by the limit. *)
Lemma findSimilarMemories_negative_limit :
  exists result w',
    @VectorStore.findSimilarMemories browser "a cat" (-1) (1 # 2) graph = (Returned result, w')
    /\ map (fun m => Memory.id (Match.memory m)) result = ["A"; "C"]
    /\ ~ (Z.of_nat (length result) <= -1)%Z.
Proof.
  do 2 eexists. split; [vm_compute; reflexivity|].
  split; [reflexivity|]. cbn. lia.
Qed.

Example similar_to_a_cat :
  map (fun m => Memory.id (Match.memory m))
      (match fst (@VectorStore.findSimilarMemories browser "a cat" 2 (1 # 2) graph) with
       | Returned l => l
       | Thrown _ => []
       end)
  = ["A"; "C"].
Proof. vm_compute. reflexivity. Qed.

(** *** C2 *)

Lemma offline_throws (text : string) (w : World) :
  throws (@Embeddings.generateEmbedding offline text) w.
Proof. do 2 eexists. reflexivity. Qed.

Lemma findSimilarMemories_embedding_failure_witness :
  exists w',
    @VectorStore.findSimilarMemories offline "capital of France" 5 (7 # 10) graph
    = (Returned [], w')
    /\ vectors w' = vectors graph.
Proof.
  destruct (@findSimilarMemories_embedding_failure offline "capital of France" 5 (7 # 10)
              graph (offline_throws _ _))
    as (w' & E & _ & Hv & _).
  exists w'. auto.
Defined.

(** The embedding of the query throws, and [findSimilarMemories] returns:
    no error reaches the caller. *)
Lemma findSimilarMemories_swallows_embedding_failure :
  throws (@Embeddings.generateEmbedding offline "capital of France") graph
  /\ ~ throws (@VectorStore.findSimilarMemories offline "capital of France" 5 (7 # 10)) graph
  /\ fst (@VectorStore.findSimilarMemories offline "capital of France" 5 (7 # 10) graph)
     = Returned [].
Proof.
  split; [apply offline_throws|]. split; [|reflexivity].
  intros (e & w' & E). discriminate E.
Qed.

(** *** C3 *)

Lemma addMemory_embedding_failure_witness :
  exists w',
    @MemoryStore.addMemory offline unrated graph =
    (Thrown (mkError "Failed to generate text embedding. Please try again."), w')
    /\ vectors w' = vectors graph /\ item w' = item graph /\ store w' = store graph.
Proof.
  apply (@addMemory_embedding_failure offline graph). apply offline_throws.
Defined.

(** *** C7 *)

Lemma addConnection_last_write_wins_witness :
  exists w1 w2,
    MemoryStore.addConnection "A" "B" related_to (8 # 10) None graph = (Returned tt, w1)
    /\ MemoryStore.addConnection "A" "B" causes (3 # 10) None w1 = (Returned tt, w2)
    /\ map Memory.id (MemoryState.memories (store w2))
       = map Memory.id (MemoryState.memories (store graph))
    /\ forall m, In m (MemoryState.memories (store w2)) -> Memory.id m = "A" ->
         edges_to "B" (Memory.connections m) = [Connection.mk causes "B" (3 # 10) None]
         /\ single_edged m.
Proof.
  apply (@addConnection_last_write_wins graph "A" "B" related_to causes
           (8 # 10) (3 # 10) None None).
  intros m [<-|[<-|[<-|[]]]] E; try discriminate E. distinct.
Defined.

(** *** C8 *)

Lemma write_failure_is_printed_witness :
  (exists w',
     VectorStore.clear quota = (Returned tt, w')
     /\ vectors w' = []
     /\ item w' = item quota
     /\ hd_error (console w') = Some "Failed to save vector store to storage:")
  /\ (exists w',
        VectorStore.constructor Scenario.corrupted = (Returned tt, w')
        /\ vectors w' = []
        /\ item w' = Garbage
        /\ hd_error (console w') = Some "Failed to load vector store from storage:").
Proof.
  split.
  - apply (proj2 (proj2 (proj1 (@write_failure_is_printed browser quota) eq_refl))).
  - apply (proj2 (@write_failure_is_printed browser Scenario.corrupted)).
    right. reflexivity.
Defined.

(** The write throws, and [clear], [deleteMemory] and [addMemory] return:
    the caller is not told; the stored item still holds the old array. *)
Lemma write_failure_is_swallowed :
  throws (LocalStorage.setItem []) quota
  /\ ~ throws VectorStore.clear quota
  /\ ~ throws (VectorStore.deleteMemory "A") quota
  /\ ~ throws (@VectorStore.addMemory browser B) quota
  /\ item (snd (VectorStore.clear quota)) = Json (vectors quota).
Proof.
  split; [do 2 eexists; reflexivity|].
  repeat split; try (intros (e & w' & E); discriminate E).
Qed.

(** *** C1 *)

Lemma getRelatedMemories_ranking_witness :
  exists similar w' items,
    @MemoryStore.getRelatedMemories browser "A" graph =
    (Returned
       (map Ranked.memory items
        ++ map Match.memory
             (filter (fun m => no_edge [A; B; C] A "A" (Memory.id (Match.memory m))) similar)),
     w')
    /\ Forall (fun it =>
                 Ranked.strength it ==
                 combined_strength [A; B; C] A "A" similar (Memory.id (Ranked.memory it)))
              items
    /\ Descending Ranked.strength items
    /\ exists sims,
         map Scored.storedMemory sims = vectors graph
         /\ length similar
            = Nat.min 5 (length (qualifying sims VectorStore.default_minSimilarity)).
Proof.
  destruct (@getRelatedMemories_ranking browser graph "A" A eq_refl) as
    (similar & w' & items & _ & E & _ & Hs & Hd & _ & _ & Hsel & _).
  - distinct.
  - exists similar, w', items. split; [exact E|]. split; [|split; [exact Hd|]].
    + apply Forall_forall. intros it Hit. rewrite Forall_forall in Hs. apply Hs, Hit.
    + destruct (Hsel [1; 0] eq_refl) as (sims & E1 & _ & Hk & _).
      * intros s [<-|[<-|[<-|[<-|[]]]]]; reflexivity.
      * exists sims. split; [exact E1 | exact Hk].
Defined.

(** The ranking is not by the maximum over the edges, nor by the cosine
    similarity.  In [doubled] the target [A] holds two edges to [B], 0.9 and
    then 0.2: the second one counts, and [C], with 0.5, comes first.  In
    [crowded] the record of [G] is as similar to [T] as can be but is the
    sixth of six, cut by the limit of 5: [G] is ranked by its edge of 0.2
    alone, after [B] with 0.5.  Ids are distinct in both. *)
Lemma getRelatedMemories_not_by_the_maximum :
  (MemoryStore.findMemory (MemoryState.memories (store Scenario.doubled)) "A"
   = Some Scenario.twice
   /\ NoDup (map StoredMemory.id (vectors Scenario.doubled))
   /\ map Memory.id
        (match fst (@MemoryStore.getRelatedMemories browser "A" Scenario.doubled) with
         | Returned l => l
         | Thrown _ => []
         end)
      = ["C"; "B"; "A"]
   /\ @spec_combined browser Scenario.doubled Scenario.twice "A" "C"
      < @spec_combined browser Scenario.doubled Scenario.twice "A" "B")
  /\ (MemoryStore.findMemory (MemoryState.memories (store Scenario.crowded)) "T"
      = Some Scenario.tom
      /\ NoDup (map StoredMemory.id (vectors Scenario.crowded))
      /\ single_edged Scenario.tom
      /\ map Memory.id
           (match fst (@MemoryStore.getRelatedMemories browser "T" Scenario.crowded) with
            | Returned l => l
            | Thrown _ => []
            end)
         = ["B"; "G"; "T"; "V1"; "V2"; "V3"; "V4"]
      /\ @spec_combined browser Scenario.crowded Scenario.tom "T" "B"
         < @spec_combined browser Scenario.crowded Scenario.tom "T" "G").
Proof.
  split.
  - split; [reflexivity|]. split; [distinct|]. split; [vm_compute; reflexivity|].
    vm_compute. reflexivity.
  - split; [reflexivity|]. split; [distinct|]. split; [distinct|].
    split; [vm_compute; reflexivity|]. vm_compute. reflexivity.
Qed.

(** Why the ids of the records are taken distinct.  In [echoed] two records
    share the id [C]: the map of the matches keeps the place of the first
    and the value of the last, so that the appended matches, the second [C]
    of similarity 0.8 and then [D] of 0.96, are not in descending
    similarity. *)
Lemma shared_record_id_breaks_the_order :
  exists similar result w',
    @VectorStore.findSimilarMemories browser "the cat sleeps"
      VectorStore.default_limit VectorStore.default_minSimilarity Scenario.echoed
    = (Returned similar, w')
    /\ map (fun m => (Memory.content (Match.memory m), Match.similarity m)) similar
       = [("a cat eats", 1); ("a cat drinks", 24 # 25); ("a cat ate", 4 # 5)]
    /\ @MemoryStore.getRelatedMemories browser "A" Scenario.echoed = (Returned result, w')
    /\ map Memory.content result = ["a cat ate"; "a cat drinks"].
Proof.
  do 3 eexists. split; [vm_compute; reflexivity|].
  split; [reflexivity|]. split; vm_compute; reflexivity.
Qed.

Example combined_strengths_of_A :
  map (combined_strength [A; B; C] A "A"
         [Match.mk C 1; Match.mk (memory "D" "cats hunt" []) (85 # 100)])
      ["B"; "C"; "D"]
  = [Qmax (9 # 10) 0; Qmax (5 # 10) 1; 85 # 100].
Proof. reflexivity. Qed.

(** *** C10 *)


(** *** C4 *)

Lemma extractMemories_parsed_witness :
  exists w',
    @MemoryService.extractMemories browser "I have a cat" [] fresh
    = (Returned (@candidates browser "I have a cat" [] [entry] 0), w')
    /\ vectors w' = @copies browser (@candidates browser "I have a cat" [] [entry] 0) 1
    /\ store w' = store fresh.
Proof.
  destruct (@extractMemories_parsed browser "I have a cat" [] fresh fresh [] answer [entry])
    as (w' & E & _ & _ & Hv & _ & Hs).
  - reflexivity.
  - reflexivity.
  - reflexivity.
  - repeat constructor. discriminate.
  - repeat constructor. discriminate.
  - split; repeat constructor; simpl; tauto.
  - exists w'. auto.
Defined.

(** The record that [extractMemories] returns has no id and no timestamp;
    the id and the timestamp are on the copy in the vector store. *)
Lemma extractMemories_returns_no_id :
  exists m w',
    @MemoryService.extractMemories browser "I have a cat" [] fresh = (Returned [m], w')
    /\ PartialMemory.id m = None
    /\ PartialMemory.timestamp m = None
    /\ map StoredMemory.id (vectors w') = ["uuid-i"]
    /\ map (fun s => StoredMetadata.timestamp (StoredMemory.metadata s)) (vectors w')
       = [clock 2].
Proof.
  do 2 eexists. split; [vm_compute; reflexivity|]. repeat split.
Qed.

(** *** C9 *)

(** A memory given the confidence 0 is stored with the confidence 1, by
    [addMemory] of the memory store and by [extractMemories]. *)
Theorem zero_confidence_is_overwritten :
  PartialMemory.confidence unrated = Some 0
  /\ (exists w',
        @MemoryStore.addMemory browser unrated fresh = (Returned tt, w')
        /\ map Memory.confidence (MemoryState.memories (store w')) = [1]
        /\ map (fun s => StoredMetadata.confidence (StoredMemory.metadata s)) (vectors w')
           = [1])
  /\ ExtractedMemory.confidence entry = Some 0
  /\ (exists memories w',
        @MemoryService.extractMemories browser "I have a cat" [] fresh
        = (Returned memories, w')
        /\ map PartialMemory.confidence memories = [Some 1]
        /\ map (fun s => StoredMetadata.confidence (StoredMemory.metadata s)) (vectors w')
           = [1]).
Proof.
  split; [reflexivity|]. split.
  - eexists. split; [vm_compute; reflexivity|]. split; reflexivity.
  - split; [reflexivity|]. do 2 eexists. split; [vm_compute; reflexivity|].
    split; reflexivity.
Qed.

(** A confidence that is given and is not 0 is kept. *)
Lemma given_confidence_is_kept (c : number) :
  ~ c == 0 -> or_default (Some c) 1 = c.
Proof.
  intros Hc. simpl. unfold truthy.
  destruct (Qeq_bool c 0) eqn:E; [apply Qeq_bool_iff in E; contradiction | reflexivity].
Qed.

(** *** Further properties: the vector store *)

Lemma addMemory_upserts_witness :
  exists w',
    @VectorStore.addMemory browser A graph = (Returned tt, w')
    /\ NoDup (stored_ids (vectors w'))
    /\ filter (has_id "A") (vectors w') = [VectorStore.toStored A [1; 0]]
    /\ filter (other_id "A") (vectors w') = filter (other_id "A") (vectors graph)
    /\ (full graph = false -> item w' = Json (vectors w')).
Proof.
  apply (@addMemory_upserts browser A graph [1; 0]); [reflexivity | distinct].
Defined.

Lemma addMemory_twice_witness :
  let w1 := snd (@VectorStore.addMemory browser Scenario.kitten graph) in
  let w2 := snd (@VectorStore.addMemory browser Scenario.kitten w1) in
  fst (@VectorStore.addMemory browser Scenario.kitten w1) = Returned tt
  /\ vectors w2 = vectors w1 /\ item w2 = item w1.
Proof.
  apply (@addMemory_twice browser Scenario.kitten graph [1; 0]). reflexivity.
Defined.

Lemma dimension_mismatch_empties_search_witness :
  exists w',
    @VectorStore.findSimilarMemories browser "a cat" 5 (7 # 10) Scenario.mixed
    = (Returned [], w')
    /\ hd_error (console w') = Some "Failed to find similar memories:"
    /\ vectors w' = vectors Scenario.mixed.
Proof.
  apply (@dimension_mismatch_empties_search browser "a cat" 5 (7 # 10) Scenario.mixed
           [1; 0] (vector "L" "an old note" [1; 0; 0])).
  - reflexivity.
  - right. left. reflexivity.
  - cbn. discriminate.
Defined.

Lemma added_memory_is_found_witness :
  let w1 := snd (@VectorStore.addMemory browser Scenario.kitten graph) in
  exists result w2,
    @VectorStore.findSimilarMemories browser "the cat plays" 5 (7 # 10) w1
    = (Returned result, w2)
    /\ In (VectorStore.toMatch
             (Scored.mk (VectorStore.toStored Scenario.kitten [1; 0]) (1 / (1 * 1))))
          result.
Proof.
  apply (@added_memory_is_found browser Scenario.kitten graph [1; 0] (1 / (1 * 1)) 5 (7 # 10)).
  - reflexivity.
  - intros x [<-|[<-|[<-|[<-|[]]]]]; reflexivity.
  - reflexivity.
  - vm_compute. discriminate.
  - reflexivity.
Defined.

Lemma reload_restores_witness :
  let w1 := snd (VectorStore.deleteMemory "A" graph) in
  fst (VectorStore.constructor w1) = Returned tt
  /\ vectors (snd (VectorStore.constructor w1)) = vectors w1.
Proof.
  apply (proj1 (proj2 (@reload_restores browser graph eq_refl eq_refl)) "A").
Defined.

Lemma cosineSimilarity_self_witness :
  exists s, @Embeddings.cosineSimilarity browser [3; 4] [3; 4] = Returned s /\ s == 1.
Proof.
  apply (@cosineSimilarity_self browser [3; 4]).
  - reflexivity.
  - intros E. discriminate E.
Defined.

(** *** Further properties: the memory store *)

Lemma addMemory_places_witness :
  let w' := snd (@MemoryStore.addMemory browser unrated graph) in
  Descending Memory.timestamp (MemoryState.memories (store w'))
  /\ In "A" (map StoredMemory.id (vectors w'))
  /\ NoDup (memory_ids (MemoryState.memories (store w'))).
Proof.
  destruct (@addMemory_places browser unrated graph [1; 0] eq_refl)
    as (Hd & _ & Hv & Hid).
  split; [exact Hd|]. split; [exact Hv|].
  apply Hid; [discriminate | distinct].
Defined.

Lemma connection_round_trip_witness :
  exists w1,
    MemoryStore.addConnection "B" "C" part_of (1 # 2) None graph = (Returned tt, w1)
    /\ MemoryStore.removeConnection "B" "C" w1 = (Returned tt, graph).
Proof.
  apply (@connection_round_trip "B" "C" part_of (1 # 2) None graph).
  intros m [<-|[<-|[<-|[]]]] E; try discriminate E. intros [].
Defined.

Lemma single_edged_kept_witness :
  Forall single_edged
    (MemoryState.memories
       (store (snd (MemoryStore.addConnection "A" "B" causes (3 # 10) None graph)))).
Proof.
  apply Forall_forall. intros m.
  apply (proj1 (@single_edged_kept graph
    ltac:(intros x [<-|[<-|[<-|[]]]]; distinct)) "A" "B" causes (3 # 10) None m).
Defined.

Lemma memories_stay_backed_witness :
  backed (snd (MemoryStore.removeMemory "B" graph))
  /\ backed (snd (@MemoryStore.addMemory offline unrated graph)).
Proof.
  assert (Hb : backed graph).
  { intros m [<-|[<-|[<-|[]]]]; cbn; auto. }
  split.
  - apply (proj1 (proj2 (@memories_stay_backed browser graph Hb))).
  - apply (proj1 (@memories_stay_backed offline graph Hb)).
Defined.

Lemma getRelatedMemories_lists_target_witness :
  exists result,
    @MemoryStore.getRelatedMemories browser "A" graph = (Returned result, graph)
    /\ In "A" (map Memory.id result).
Proof.
  apply (@getRelatedMemories_lists_target browser "A" graph graph A
           (match fst (@VectorStore.findSimilarMemories browser "the cat sleeps"
                         VectorStore.default_limit VectorStore.default_minSimilarity graph)
            with Returned l => l | Thrown _ => [] end)).
  - reflexivity.
  - vm_compute. reflexivity.
  - vm_compute. auto.
Defined.

(** *** Further properties: the memory service *)

Lemma extractMemories_no_answer_witness :
  @MemoryService.extractMemories Scenario.silent Scenario.heard [] fresh
  = (Returned [], with_console fresh ["Failed to extract memories:"]).
Proof.
  apply (@extractMemories_no_answer Scenario.silent Scenario.heard [] fresh fresh []);
    reflexivity.
Defined.

Lemma extractMemories_malformed_entry_witness :
  exists w',
    @MemoryService.extractMemories Scenario.careless Scenario.heard [] fresh
    = (Returned [], w')
    /\ vectors w' = [] /\ item w' = Missing /\ store w' = MemoryState.initial
    /\ console w' = ["Failed to parse memory extraction result:"].
Proof.
  apply (@extractMemories_malformed_entry Scenario.careless Scenario.heard [] fresh fresh []
           [entry; Scenario.loose]).
  - reflexivity.
  - reflexivity.
  - right. left. reflexivity.
Defined.

Lemma extractMemories_stops_at_failed_embedding_witness :
  exists w',
    @MemoryService.extractMemories Scenario.halting Scenario.heard [] fresh
    = (Returned [], w')
    /\ map StoredMemory.content (vectors w') = ["The cat sleeps on the sofa"]
    /\ store w' = store fresh.
Proof.
  destruct (@extractMemories_stops_at_failed_embedding Scenario.halting Scenario.heard []
              fresh fresh [] [entry] Scenario.about_dogs [entry])
    as (w' & E & Hv & Hs).
  - reflexivity.
  - reflexivity.
  - repeat constructor; discriminate.
  - repeat constructor; discriminate.
  - reflexivity.
  - split; [distinct | repeat constructor; intros []].
  - exists w'. split; [exact E|]. split; [rewrite Hv; reflexivity | exact Hs].
Defined.

Lemma extractMemories_connections_known_witness :
  Forall (fun p =>
            Forall (fun c => In (Connection.targetId c) ["B"]
                             \/ In (Connection.targetId c) ["A"; "B"; "C"; "D"])
                   (or_else (PartialMemory.connections p) []))
         (match fst (@MemoryService.extractMemories browser Scenario.heard [B] graph) with
          | Returned l => l
          | Thrown _ => []
          end).
Proof.
  apply Forall_forall. intros p Hp. apply Forall_forall. intros c Hc.
  apply (@extractMemories_connections_known browser Scenario.heard [B] graph
           (snd (@MemoryService.extractMemories browser Scenario.heard [B] graph))
           (match fst (@MemoryService.extractMemories browser Scenario.heard [B] graph) with
            | Returned l => l
            | Thrown _ => []
            end)
           ltac:(vm_compute; reflexivity) p c Hp Hc).
Defined.

(** *** Further properties: the search service *)

Lemma analysis_retry_schedule_witness :
  @Google.analyzeSearchResults Session.flaky "key" "a-model" "cats" Session.found
    Google.default [] Session.start
  = (Returned "Cats sleep most of the day.",
     Google.mkNet 3 ["Analysis attempt 2 failed:"; "Analysis attempt 1 failed:"]
                  [2000; 1000]%Z).
Proof.
  apply (proj1 (@analysis_retry_schedule Session.flaky "key" "a-model" "cats" Session.found
                  Google.default [] Session.start 2 "Cats sleep most of the day."
                  ltac:(discriminate) ltac:(unfold Google.MAX_RETRIES; lia)
                  ltac:(intros [|[|i]] Hi; [eexists; reflexivity | eexists; reflexivity | lia])
                  eq_refl)).
Defined.

Lemma analysis_falls_back_witness :
  @Google.analyzeSearchResults Session.down "key" "a-model" "cats" Session.found
    Google.default [] Session.start
  = (Returned (Google.generateFallbackAnalysis "cats" Session.found),
     Google.mkNet 3
       ["Analysis attempt 3 failed:"; "Analysis attempt 2 failed:";
        "Analysis attempt 1 failed:"]
       [2000; 1000]%Z).
Proof.
  apply (proj1 (@analysis_falls_back Session.down "key" "a-model" "cats" Session.found
                  Google.default [] Session.start
                  ltac:(discriminate)
                  ltac:(intros [|[|[|i]]] Hi;
                        [eexists; reflexivity | eexists; reflexivity | eexists; reflexivity
                        | unfold Google.MAX_RETRIES in Hi; lia]))).
Defined.
